(** * nxapi: token resolution ([getToken]) and the Nintendo Switch Online
    HTTP proxy ([cli/nso/http-server.ts])

    A shallow embedding of the TypeScript sources.  Asynchronous code is
    written in a small state-and-exception monad over a [World] that
    holds the persisted key-value store, the wall clock, the time that
    coming [await]s will take, the log of upstream requests and the
    in-memory caches of the server process.  Everything the program
    obtains from outside (the JWT decoder, the client id constant, the
    upstream services, the uuid generator) is a field of [Env], so every
    theorem holds for all behaviours of these collaborators.  A request
    in this monad runs from start to end on its own; the handlers whose
    outcome depends on what runs between their awaits are also given as
    tasks cut at their awaits ([Overlap]), which can be run turn by
    turn. *)

From Stdlib Require Import ZArith QArith.
From stdpp Require Import base option list strings gmap fin_maps.

Local Open Scope string_scope.
Local Open Scope Z_scope.

(** ** JavaScript values and helpers *)

Module Js.

(** [new Error(message)] *)
Record Error := mkError { message : string }.

(** Truthiness of a string: only the empty string is falsy. *)
Definition truthy (s : string) : bool :=
  match s with EmptyString => false | _ => true end.

(** Truthiness of an optional string ([undefined] is falsy). *)
Definition truthy_opt (o : option string) : bool :=
  match o with Some s => truthy s | None => false end.

(** [proxy_url ? a : b] takes the first branch for a non-empty string. *)
Definition configured (o : option string) : option string :=
  if truthy_opt o then o else None.

(** Truthiness of an optional array or object: present means truthy. *)
Definition defined {A} (o : option A) : bool :=
  match o with Some _ => true | None => false end.

(** Truthiness of an optional boolean flag. *)
Definition flag (o : option bool) : bool :=
  match o with Some b => b | None => false end.

(** [Array.prototype.includes] on an array of strings. *)
Definition includes (l : list string) (x : string) : bool :=
  existsb (String.eqb x) l.

(** [String.prototype.startsWith] *)
Definition startsWith (s p : string) : bool := String.prefix p s.

(** [String.prototype.substr(n)] with one argument. *)
Fixpoint substr (n : nat) (s : string) : string :=
  match n, s with
  | O, _ => s
  | S n', String _ s' => substr n' s'
  | S _, EmptyString => EmptyString
  end.

(** A JS [Set] of strings keeps its members in insertion order. *)
Definition Set_add (x : string) (s : list string) : list string :=
  if includes s x then s else s ++ [x].

Definition Set_delete (x : string) (s : list string) : list string :=
  filter (fun y => y ≠ x) s.

(** [new Set(iterable)] *)
Definition Set_new (l : list string) : list string :=
  foldl (fun s x => Set_add x s) [] l.

(** [obj[key] = value] on an object created by [{}], for a [value] that
    is itself an object.  The map holds the own properties, which are
    what [JSON.stringify] writes.  The key ["__proto__"] is the accessor
    inherited from [Object.prototype]: assigning an object to it
    replaces the prototype and creates no own property. *)
Definition set_property {V} (key : string) (value : V) (obj : gmap string V)
  : gmap string V :=
  if String.eqb key "__proto__" then obj else <[key := value]> obj.

End Js.

Import Js.

(** ** Data model *)

(** Modelled from the spec: [NintendoAccountSessionTokenJwtPayload] is
    declared in [api/na.ts]; a session token carries issuer, type,
    audience and expiry claims, which are the fields [getToken] reads. *)
Record JwtPayload := {
  iss : string;
  typ : string;
  aud : string;
  exp : Z;            (* seconds since the epoch *)
}.

(** Modelled from the spec: the decoded token of [Jwt.decode] ([api/util.ts]),
    of which the source reads the payload. *)
Record Jwt := { payload : JwtPayload }.

(** Modelled from the spec: [NintendoAccountUser] ([api/na.ts]); [id] is
    the stable identity of the user, the rest of the profile is opaque. *)
Record NintendoAccountUser := { id : string; user_profile : string }.

(** Modelled from the spec: [AccountLogin['webApiServerCredential']]
    ([api/znc-types.ts]), an access token with an explicit [expiresIn]
    in seconds. *)
Record Credential := { accessToken : string; expiresIn : Z }.

(** What [createWithSessionToken] resolves to as [data]: the fields of
    [SavedToken] without [expires_at].  The responses of the providers
    ([nintendoAccountToken], [flapg], [nsoAccount]) are kept as opaque
    blobs. *)
Record TokenData := {
  d_uuid : string;
  d_timestamp : string;
  d_nintendoAccountToken : string;
  d_user : NintendoAccountUser;
  d_flapg : string;
  d_nsoAccount : string;
  d_credential : Credential;
  d_proxy_url : option string;
}.

(** [SavedToken] of the source. *)
Record SavedToken := {
  uuid : string;
  timestamp : string;
  nintendoAccountToken : string;
  user : NintendoAccountUser;
  flapg : string;
  nsoAccount : string;
  credential : Credential;
  expires_at : Z;     (* milliseconds since the epoch *)
  proxy_url : option string;
}.

(** [{...data, expires_at: e}] *)
Definition spread (data : TokenData) (e : Z) : SavedToken :=
  {| uuid := d_uuid data;
     timestamp := d_timestamp data;
     nintendoAccountToken := d_nintendoAccountToken data;
     user := d_user data;
     flapg := d_flapg data;
     nsoAccount := d_nsoAccount data;
     credential := d_credential data;
     expires_at := e;
     proxy_url := d_proxy_url data |}.

(** The API object handed back to the caller: [new ZncApi(accessToken)]
    or [new ZncProxyApi(proxy_url, token)]. *)
Inductive Nso :=
| ZncApi (access_token : string)
| ZncProxyApi (url token : string).

(** Modelled from the spec: the presence types of [api/znc-types.ts].  A
    presence has a state, [updatedAt] and [logoutAt] timestamps and a
    descriptor of the active title; friends and the current user have a
    stable [nsaId] and a presence.  Announcements, web services and the
    active event are passed through by the proxy unread. *)
Inductive PresenceState := ONLINE | PLAYING | INACTIVE | OFFLINE.

Record Presence := {
  state : PresenceState;
  updatedAt : Z;
  logoutAt : Z;
  game : string;
}.

Record Friend := { nsaId : string; name : string; presence : Presence }.
Record CurrentUser := { cu_nsaId : string; cu_name : string; cu_presence : Presence }.
Record Announcement := { announcementId : Z; title : string }.
Record WebService := { ws_id : Z; ws_name : string }.
Record ActiveEvent := { ae_id : Z; ae_name : string }.

(** [AuthPolicy] and [AuthToken] of the source; an optional field is an
    [option]. *)
Record AuthPolicy := {
  announcements : option bool;
  list_friends : option bool;
  list_friends_presence : option bool;
  friend : option bool;
  friend_presence : option bool;
  webservices : option bool;
  activeevent : option bool;
  current_user : option bool;
  current_user_presence : option bool;
  friends : option (list string);
  friends_presence : option (list string);
}.

Record AuthToken := {
  at_user : string;
  policy : option AuthPolicy;
  created_at : Z;
}.

(** ** The world *)

(** Values of the persisted key-value store, by the shape the program
    stores under each key prefix. *)
Inductive Stored :=
| VSavedToken (t : SavedToken)     (* NsoToken.<session token> *)
| VString (s : string)             (* NintendoAccountToken.<user id> *)
| VStrings (l : list string)       (* NintendoAccountIds, ZncProxyAuthPolicies.<user id> *)
| VAuthToken (a : AuthToken).      (* ZncProxyAuthPolicy.<proxy token> *)

(** Requests that leave the process. *)
Inductive Call :=
| NsoLogin (token : string)                  (* ZncApi.createWithSessionToken *)
| ProxyLogin (url token : string)           (* ZncProxyApi.createWithSessionToken *)
| GetAnnouncements (nso : Nso)
| GetFriendList (nso : Nso)
| GetWebServices (nso : Nso)
| GetActiveEvent (nso : Nso)
| GetCurrentUser (nso : Nso)
| GetWebServiceToken (nso : Nso) (ws : string).

Definition AppData : Type := list Friend * list WebService * ActiveEvent * Z.
Definition UserData : Type := CurrentUser * Z.

Record World := {
  storage : gmap string Stored;          (* node-persist store *)
  clock : Z;                             (* Date.now(), milliseconds *)
  schedule : list N;                     (* duration of each coming await *)
  trace : list Call;                     (* upstream requests, oldest first *)
  entropy : nat;                         (* state of the uuid generator *)
  cached_announcements : option (list Announcement);
  cached_appdata : gmap string AppData;
  cached_userdata : gmap string UserData;
}.

Definition with_storage (f : gmap string Stored → gmap string Stored) (w : World) : World :=
  {| storage := f (storage w); clock := clock w; schedule := schedule w;
     trace := trace w; entropy := entropy w;
     cached_announcements := cached_announcements w;
     cached_appdata := cached_appdata w; cached_userdata := cached_userdata w |}.

Definition with_trace (c : Call) (w : World) : World :=
  {| storage := storage w; clock := clock w; schedule := schedule w;
     trace := trace w ++ [c]; entropy := entropy w;
     cached_announcements := cached_announcements w;
     cached_appdata := cached_appdata w; cached_userdata := cached_userdata w |}.

Definition with_entropy (n : nat) (w : World) : World :=
  {| storage := storage w; clock := clock w; schedule := schedule w;
     trace := trace w; entropy := n;
     cached_announcements := cached_announcements w;
     cached_appdata := cached_appdata w; cached_userdata := cached_userdata w |}.

Definition with_announcements (a : option (list Announcement)) (w : World) : World :=
  {| storage := storage w; clock := clock w; schedule := schedule w;
     trace := trace w; entropy := entropy w;
     cached_announcements := a;
     cached_appdata := cached_appdata w; cached_userdata := cached_userdata w |}.

Definition with_appdata (f : gmap string AppData → gmap string AppData) (w : World) : World :=
  {| storage := storage w; clock := clock w; schedule := schedule w;
     trace := trace w; entropy := entropy w;
     cached_announcements := cached_announcements w;
     cached_appdata := f (cached_appdata w); cached_userdata := cached_userdata w |}.

Definition with_userdata (f : gmap string UserData → gmap string UserData) (w : World) : World :=
  {| storage := storage w; clock := clock w; schedule := schedule w;
     trace := trace w; entropy := entropy w;
     cached_announcements := cached_announcements w;
     cached_appdata := cached_appdata w; cached_userdata := f (cached_userdata w) |}.

(** One [await] returns: the clock has moved by the next scheduled
    duration (by nothing once the schedule is used up). *)
Definition elapse (w : World) : World :=
  {| storage := storage w;
     clock := clock w + Z.of_N (hd 0%N (schedule w));
     schedule := tl (schedule w);
     trace := trace w; entropy := entropy w;
     cached_announcements := cached_announcements w;
     cached_appdata := cached_appdata w; cached_userdata := cached_userdata w |}.

(** ** The monad of asynchronous code *)

Inductive Outcome (A : Type) :=
| Returned (a : A)
| Thrown (e : Error).
Arguments Returned {A} a.
Arguments Thrown {A} e.

Definition M (A : Type) : Type := World → Outcome A * World.

Definition ret {A} (a : A) : M A := fun w => (Returned a, w).
Definition throw {A} (e : Error) : M A := fun w => (Thrown e, w).
Definition bind {A B} (m : M A) (k : A → M B) : M B :=
  fun w => match m w with
           | (Returned a, w') => k a w'
           | (Thrown e, w') => (Thrown e, w')
           end.

(** [try { m } catch (err) { h err }] *)
Definition try_catch {A} (m : M A) (h : Error → M A) : M A :=
  fun w => match m w with
           | (Returned a, w') => (Returned a, w')
           | (Thrown e, w') => h e w'
           end.

#[export] Instance M_ret : MRet M := @ret.
#[export] Instance M_bind : MBind M := fun A B k m => bind m k.

Definition get_world : M World := fun w => (Returned w, w).
Definition modify (f : World → World) : M unit := fun w => (Returned tt, f w).

(** [Date.now()] *)
Definition Date_now : M Z := fun w => (Returned (clock w), w).

(** [await m]: run [m]; the promise settles after the scheduled time. *)
Definition await {A} (m : M A) : M A :=
  fun w => let '(r, w') := m w in (r, elapse w').

(** A synchronous result or exception. *)
Definition lift {A} (r : Error + A) : M A :=
  match r with inl e => throw e | inr a => ret a end.

(** *** The persisted store (node-persist [LocalStorage]) *)

(** Modelled from the spec: the persisted store is a flat key-value
    store with string keys, used purely as get, set and remove, without
    transactions; a key that was never set reads as [undefined].  Each
    operation is awaited. *)

Definition getItem (key : string) : M (option Stored) :=
  await (fun w => (Returned (storage w !! key), w)).

Definition setItem (key : string) (v : Stored) : M unit :=
  await (modify (with_storage (insert key v))).

Definition removeItem (key : string) : M unit :=
  await (modify (with_storage (delete key))).

(** The TypeScript annotation on a read fixes the shape of the value; a
    stored value of another shape is outside the declared data model and
    stops the computation with a [TypeError]. *)
Definition TypeError : Error := mkError "TypeError".

Definition as_SavedToken (o : option Stored) : M (option SavedToken) :=
  match o with
  | None => ret None
  | Some (VSavedToken t) => ret (Some t)
  | Some _ => throw TypeError
  end.

Definition as_string (o : option Stored) : M (option string) :=
  match o with
  | None => ret None
  | Some (VString s) => ret (Some s)
  | Some _ => throw TypeError
  end.

Definition as_strings (o : option Stored) : M (option (list string)) :=
  match o with
  | None => ret None
  | Some (VStrings l) => ret (Some l)
  | Some _ => throw TypeError
  end.

Definition as_AuthToken (o : option Stored) : M (option AuthToken) :=
  match o with
  | None => ret None
  | Some (VAuthToken a) => ret (Some a)
  | Some _ => throw TypeError
  end.

(** ** The environment *)

(** An upstream service answers from the time of the request and the
    requests made before it. *)
Definition Service (A : Type) : Type := Z → list Call → Error + A.

Record Env := {
  (** the constant [ZNCA_CLIENT_ID] of [api/znc.ts] *)
  ZNCA_CLIENT_ID : string;
  (** [Jwt.decode] of [api/util.ts]; throws on a malformed token *)
  Jwt_decode : string → Error + (Jwt * string);
  (** [ZncApi.createWithSessionToken(token)] *)
  ZncApi_createWithSessionToken : string → Service (Nso * TokenData);
  (** [ZncProxyApi.createWithSessionToken(proxy_url, token)] *)
  ZncProxyApi_createWithSessionToken : string → string → Service (Nso * TokenData);
  getAnnouncements : Nso → Service (list Announcement);
  getFriendList : Nso → Service (list Friend);
  getWebServices : Nso → Service (list WebService);
  getActiveEvent : Nso → Service ActiveEvent;
  getCurrentUser : Nso → Service CurrentUser;
  getWebServiceToken : Nso → string → Service string;
  (** [uuidgen] of the [uuid] package, as a function of the generator state *)
  uuidgen : nat → string;
}.

(** An awaited upstream request: logged, answered, and time passes. *)
Definition request {A} (c : Call) (s : Service A) : M A :=
  await (fun w => lift (s (clock w) (trace w)) (with_trace c w)).

(** ** [getToken] (util) *)

(** The key prefixes of the persisted store. *)
Definition NsoToken (token : string) : string := "NsoToken." +:+ token.
Definition NintendoAccountToken (user_id : string) : string :=
  "NintendoAccountToken." +:+ user_id.
Definition ZncProxyAuthPolicy (token : string) : string :=
  "ZncProxyAuthPolicy." +:+ token.
Definition ZncProxyAuthPolicies (user_id : string) : string :=
  "ZncProxyAuthPolicies." +:+ user_id.

Module Util.
Section WithEnv.
Context (E : Env).

(** [getToken(storage, token, proxy_url)]; the store is that of the
    world.  Messages written to the console are left out. *)
Definition getToken (token : string) (proxy_url : option string) : M (Nso * SavedToken) :=
  if negb (truthy token) then throw (mkError "Invalid token") else
  '(jwt, sig) ← lift (Jwt_decode E token);
  if negb (String.eqb (iss (payload jwt)) "https://accounts.nintendo.com") then
    throw (mkError "Invalid Nintendo Account session token issuer") else
  if negb (String.eqb (typ (payload jwt)) "session_token") then
    throw (mkError "Invalid Nintendo Account session token type") else
  if negb (String.eqb (aud (payload jwt)) (ZNCA_CLIENT_ID E)) then
    throw (mkError "Invalid Nintendo Account session token audience") else
  now ← Date_now;
  if Qle_bool (inject_Z (exp (payload jwt))) (Qdiv (inject_Z now) (inject_Z 1000)) then
    throw (mkError "Nintendo Account session token expired") else
  existingToken ← getItem ("NsoToken." +:+ token) ≫= as_SavedToken;
  now ← Date_now;
  if match existingToken with
     | None => true
     | Some t => expires_at t <=? now
     end
  then
    '(nso, data) ← match configured proxy_url with
                   | Some url => request (ProxyLogin url token)
                                   (ZncProxyApi_createWithSessionToken E url token)
                   | None => request (NsoLogin token)
                               (ZncApi_createWithSessionToken E token)
                   end;
    now ← Date_now;
    let existingToken := spread data (now + expiresIn (d_credential data) * 1000) in
    setItem ("NsoToken." +:+ token) (VSavedToken existingToken) ;;
    setItem ("NintendoAccountToken." +:+ id (d_user data)) (VString token);;
    ret (nso, existingToken)
  else
    match existingToken with
    | None => throw TypeError  (* not reached: the condition holds without an entry *)
    | Some existingToken =>
      setItem ("NintendoAccountToken." +:+ id (user existingToken)) (VString token);;
      ret (match configured proxy_url with
           | Some url => ZncProxyApi url token
           | None => ZncApi (accessToken (credential existingToken))
           end, existingToken)
    end.

End WithEnv.
End Util.

(** ** The HTTP proxy ([cli/nso/http-server.ts]) *)

Module HttpServer.

(** The parts of an Express request the handlers read or set. *)
Record Request := {
  authorization : option string;       (* req.headers['authorization'] *)
  query_user : option string;          (* req.query.user *)
  query_token : option string;         (* req.query.token *)
  params_nsaid : string;               (* req.params.nsaid *)
  params_id : string;                  (* req.params.id *)
  body_policy : option AuthPolicy;     (* req.body.policy, parsed by bodyParser.json() *)
  znc : option Nso;
  zncAuth : option SavedToken;
  zncAuthPolicy : option AuthPolicy;
  zncAuthPolicyUser : option string;
  zncAuthPolicyToken : option string;
}.

Definition set_authorization (h : string) (req : Request) : Request :=
  {| authorization := Some h; query_user := query_user req;
     query_token := query_token req; params_nsaid := params_nsaid req;
     params_id := params_id req; body_policy := body_policy req;
     znc := znc req; zncAuth := zncAuth req;
     zncAuthPolicy := zncAuthPolicy req;
     zncAuthPolicyUser := zncAuthPolicyUser req;
     zncAuthPolicyToken := zncAuthPolicyToken req |}.

Definition set_policy (auth : AuthToken) (token : string) (req : Request) : Request :=
  {| authorization := authorization req; query_user := query_user req;
     query_token := query_token req; params_nsaid := params_nsaid req;
     params_id := params_id req; body_policy := body_policy req;
     znc := znc req; zncAuth := zncAuth req;
     zncAuthPolicy := policy auth;
     zncAuthPolicyUser := Some (at_user auth);
     zncAuthPolicyToken := Some token |}.

Definition set_znc (nso : Nso) (data : SavedToken) (req : Request) : Request :=
  {| authorization := authorization req; query_user := query_user req;
     query_token := query_token req; params_nsaid := params_nsaid req;
     params_id := params_id req; body_policy := body_policy req;
     znc := Some nso; zncAuth := Some data;
     zncAuthPolicy := zncAuthPolicy req;
     zncAuthPolicyUser := zncAuthPolicyUser req;
     zncAuthPolicyToken := zncAuthPolicyToken req |}.

(** One element of the [tokens] array of [GET /api/znc/tokens]. *)
Record TokenInfo := {
  ti_token : string;
  ti_user : string;
  ti_policy : option AuthPolicy;
  ti_created_at : Z;
}.

(** The value passed to [JSON.stringify] for the response body. *)
Inductive Body :=
| NoBody
| ErrorCode (error : string)                        (* {error} *)
| ErrorMessage (error error_message : string)       (* {error, error_message} *)
| ErrorThrown (err : Error)                         (* {error: err, error_message: err.message} *)
| AuthBody (auth : option SavedToken)
| PolicyBody (p : option AuthPolicy)
| TokensBody (tokens : list TokenInfo)
| CreatedBody (token : string) (auth : AuthToken)   (* {token, ...auth} *)
| AnnouncementsBody (l : list Announcement)
| FriendsBody (l : list Friend) (updated : Z)
| PresencesBody (presence : gmap string Presence)   (* Record<string, Presence> *)
| FriendBody (f : Friend) (updated : Z)
| PresenceBody (p : Presence)
| WebServicesBody (l : list WebService) (updated : Z)
| WebServiceTokenBody (token : string)
| ActiveEventBody (e : ActiveEvent) (updated : Z)
| UserBody (u : CurrentUser) (updated : Z).

Record Response := {
  statusCode : Z;
  content_type : option string;
  body : Body;
}.

(** [res.setHeader('Content-Type', 'application/json'); res.end(JSON.stringify(b))]
    on a response whose status was not set. *)
Definition json (b : Body) : Response :=
  {| statusCode := 200; content_type := Some "application/json"; body := b |}.

Definition json_status (code : Z) (b : Body) : Response :=
  {| statusCode := code; content_type := Some "application/json"; body := b |}.

(** A middleware either calls [next()] or ends the response. *)
Inductive Step :=
| Next (req : Request)
| End (res : Response).

Definition Middleware : Type := Request → M Step.

(** The options of the command that the handlers read. *)
Record Argv := {
  requireToken : bool;
  updateIntervalSeconds : Z;
  zncProxyUrl : option string;
}.

(** Express runs the handlers of a route in order until one ends the
    response; a route whose handlers all call [next()] ends in
    Express's own 404. *)
Fixpoint run (chain : list Middleware) (req : Request) : M Response :=
  match chain with
  | [] => ret {| statusCode := 404; content_type := None; body := NoBody |}
  | m :: rest =>
    s ← m req;
    match s with
    | Next req' => run rest req'
    | End res => ret res
    end
  end.

(** The routes of the application below [/api/znc]; the event stream
    [/presence/events] is treated apart, in [EventStream]. *)
Inductive Route :=
| GET_auth | GET_token | DELETE_token | GET_tokens | POST_tokens
| GET_announcements
| GET_friends | GET_friends_presence | GET_friend | GET_friend_presence
| GET_webservices | GET_webservice_token | GET_activeevent
| GET_user | GET_user_presence.

(** [policy?.friends] *)
Definition friends_of (p : AuthPolicy) : option (list string) := friends p.

(** [x!]: a non-null assertion. *)
Definition nonnull {A} (o : option A) : M A :=
  match o with Some a => ret a | None => throw TypeError end.

Fixpoint mapM {A B} (f : A → M B) (l : list A) : M (list B) :=
  match l with
  | [] => ret []
  | x :: l' => y ← f x; ys ← mapM f l'; ret (y :: ys)
  end.

Section WithEnv.
Context (E : Env) (argv : Argv).

(** The first handler of the application only logs the request and
    calls [next()]; it is left out. *)

Definition updateInterval : Z := updateIntervalSeconds argv * 1000.

Definition localAuth : Middleware := fun req =>
  if requireToken argv || negb (truthy_opt (query_user req)) then ret (Next req) else
  token ← getItem ("NintendoAccountToken." +:+ default "" (query_user req)) ≫= as_string;
  if negb (truthy_opt token) then ret (Next req) else
  ret (Next (set_authorization ("na " +:+ default "" token) req)).

Definition authToken : Middleware := fun req =>
  if match authorization req with
     | Some h => startsWith h "Bearer "
     | None => false
     end
  then
    let token := substr 7 (default "" (authorization req)) in
    auth ← getItem ("ZncProxyAuthPolicy." +:+ token) ≫= as_AuthToken;
    match auth with
    | None => ret (Next req)
    | Some auth => ret (Next (set_policy auth token req))
    end
  else if truthy_opt (query_token req) then
    let token := default "" (query_token req) in
    auth ← getItem ("ZncProxyAuthPolicy." +:+ token) ≫= as_AuthToken;
    match auth with
    | None => ret (Next req)
    | Some auth => ret (Next (set_policy auth token req))
    end
  else ret (Next req).

Definition tokenUnauthorised : Response :=
  json_status 403 (ErrorCode "token_unauthorised").

Definition nsoAuth : Middleware := fun req =>
  try_catch
    (nintendoAccountSessionToken ←
       (if truthy_opt (zncAuthPolicyUser req) then
          na_token ← getItem ("NintendoAccountToken." +:+ default "" (zncAuthPolicyUser req))
                       ≫= as_string;
          if negb (truthy_opt na_token) then
            throw (mkError "Nintendo Account for this token must reauthenticate")
          else ret (default "" na_token)
        else
          match authorization req with
          | Some auth =>
            if negb (truthy auth) || negb (startsWith auth "na ") then
              throw (mkError "Requires Nintendo Account authentication")
            else ret (substr 3 auth)
          | None => throw (mkError "Requires Nintendo Account authentication")
          end);
     '(nso, data) ← Util.getToken E nintendoAccountSessionToken (zncProxyUrl argv);
     ids ← getItem "NintendoAccountIds" ≫= as_strings;
     let users := Set_add (id (user data)) (Set_new (default [] ids)) in
     setItem "NintendoAccountIds" (VStrings users);;
     ret (Next (set_znc nso data req)))
    (fun err => ret (End (json_status 500 (ErrorThrown err)))).

(** *** Proxy tokens *)

Definition get_auth : Middleware := fun req =>
  ret (End (json (AuthBody (zncAuth req)))).

Definition get_token : Middleware := fun req =>
  if negb (truthy_opt (zncAuthPolicyToken req)) then
    ret (End (json_status 403 (ErrorCode "no_policy")))
  else ret (End (json (PolicyBody (zncAuthPolicy req)))).

Definition delete_token : Middleware := fun req =>
  if negb (truthy_opt (zncAuthPolicyToken req)) then
    ret (End (json_status 403 (ErrorCode "no_policy")))
  else
    let token := default "" (zncAuthPolicyToken req) in
    let user_key := "ZncProxyAuthPolicies." +:+ default "undefined" (zncAuthPolicyUser req) in
    removeItem ("ZncProxyAuthPolicy." +:+ token);;
    ids ← getItem user_key ≫= as_strings;
    let tokens := Set_delete token (Set_new (default [] ids)) in
    setItem user_key (VStrings tokens);;
    ret (End {| statusCode := 204; content_type := None; body := NoBody |}).

(** The entries are read one after the other ([Promise.all] over the
    reads of the source). *)
Definition get_tokens : Middleware := fun req =>
  auth ← nonnull (zncAuth req);
  token_ids ← getItem ("ZncProxyAuthPolicies." +:+ id (user auth)) ≫= as_strings;
  found ← mapM (fun tid =>
                  a ← getItem ("ZncProxyAuthPolicy." +:+ tid) ≫= as_AuthToken;
                  ret (match a with
                       | None => None
                       | Some a => Some {| ti_token := tid; ti_user := at_user a;
                                           ti_policy := policy a;
                                           ti_created_at := created_at a |}
                       end))
               (default [] token_ids);
  ret (End (json (TokensBody (omap (fun p => p) found)))).

Definition post_tokens : Middleware := fun req =>
  w ← get_world;
  let token := uuidgen E (entropy w) in
  modify (with_entropy (S (entropy w)));;
  zauth ← nonnull (zncAuth req);
  now ← Date_now;
  let auth := {| at_user := id (user zauth);
                 policy := body_policy req;
                 created_at := now / 1000 |} in
  setItem ("ZncProxyAuthPolicy." +:+ token) (VAuthToken auth);;
  ids ← getItem ("ZncProxyAuthPolicies." +:+ id (user zauth)) ≫= as_strings;
  let tokens := Set_add token (Set_new (default [] ids)) in
  setItem ("ZncProxyAuthPolicies." +:+ id (user zauth)) (VStrings tokens);;
  ret (End (json (CreatedBody token auth))).

(** *** Announcements (cached for all users) *)

(** The inline policy check in front of a route: no resolved policy
    lets the request through. *)
Definition gate (allowed : AuthPolicy → Request → bool) : Middleware := fun req =>
  match zncAuthPolicy req with
  | None => ret (Next req)
  | Some p => if allowed p req then ret (Next req) else ret (End tokenUnauthorised)
  end.

Definition allow_announcements (p : AuthPolicy) (req : Request) : bool :=
  if negb (flag (announcements p)) then false else true.

Definition get_announcements : Middleware := fun req =>
  w ← get_world;
  match cached_announcements w with
  | Some cached => ret (End (json (AnnouncementsBody cached)))
  | None =>
    try_catch
      (nso ← nonnull (znc req);
       result ← request (GetAnnouncements nso) (getAnnouncements E nso);
       modify (with_announcements (Some result));;
       ret (End (json (AnnouncementsBody result))))
      (fun err => ret (End (json_status 500 (ErrorThrown err))))
  end.

(** *** Friends, web services, events *)

Definition getAppData : Middleware := fun req =>
  auth ← nonnull (zncAuth req);
  w ← get_world;
  now ← Date_now;
  if match cached_appdata w !! id (user auth) with
     | Some (_, _, _, updated) => now <? updated + updateInterval
     | None => false
     end
  then ret (Next req)
  else
    try_catch
      (nso ← nonnull (znc req);
       friends' ← request (GetFriendList nso) (getFriendList E nso);
       webservices' ← request (GetWebServices nso) (getWebServices E nso);
       activeevent' ← request (GetActiveEvent nso) (getActiveEvent E nso);
       now ← Date_now;
       modify (with_appdata (insert (id (user auth))
                               (friends', webservices', activeevent', now)));;
       ret (Next req))
      (fun err => ret (End (json_status 500 (ErrorThrown err)))).

(** [cached_appdata.get(req.zncAuth!.user.id)!] *)
Definition appdata (req : Request) : M AppData :=
  auth ← nonnull (zncAuth req);
  w ← get_world;
  nonnull (cached_appdata w !! id (user auth)).

Definition allow_list_friends (p : AuthPolicy) (req : Request) : bool :=
  if negb (flag (list_friends p)) then false else true.

Definition get_friends : Middleware := fun req =>
  '(friends', webservices', activeevent', updated) ← appdata req;
  ret (End (json (FriendsBody
    match zncAuthPolicy req ≫= friends_of with
    | Some allowed => List.filter (fun f => includes allowed (nsaId f)) friends'
    | None => friends'
    end updated))).

Definition allow_list_friends_presence (p : AuthPolicy) (req : Request) : bool :=
  if negb (flag (list_friends_presence p)) then false else true.

(** The loop body of the presence listing: [true] stands for [continue]. *)
Definition skipped (policy : option AuthPolicy) (friend : Friend) : bool :=
  match policy with
  | Some p =>
    if match friends_presence p with
       | Some fp => negb (includes fp (nsaId friend))
       | None => false
       end then true
    else if match friends p with
            | Some fs => negb (defined (friends_presence p)) && negb (includes fs (nsaId friend))
            | None => false
            end then true
    else false
  | None => false
  end.

Definition get_friends_presence : Middleware := fun req =>
  '(friends', webservices', activeevent', updated) ← appdata req;
  let presence' :=
    foldl (fun (acc : gmap string Presence) f =>
             if skipped (zncAuthPolicy req) f then acc
             else set_property (nsaId f) (presence f) acc)
          ∅ friends' in
  ret (End (json (PresencesBody presence'))).

Definition allow_friend (p : AuthPolicy) (req : Request) : bool :=
  if negb (flag (friend p)) then false
  else if match friends p with
          | Some fs => negb (includes fs (params_nsaid req))
          | None => false
          end then false
  else true.

Definition not_found : Response :=
  json_status 404
    (ErrorMessage "not_found" "The user is not friends with the authenticated user.").

Definition get_friend : Middleware := fun req =>
  '(friends', webservices', activeevent', updated) ← appdata req;
  match List.find (fun f => String.eqb (nsaId f) (params_nsaid req)) friends' with
  | None => ret (End not_found)
  | Some f => ret (End (json (FriendBody f updated)))
  end.

Definition allow_friend_presence (p : AuthPolicy) (req : Request) : bool :=
  if negb (flag (friend_presence p)) then false
  else if match friends_presence p with
          | Some fp => negb (includes fp (params_nsaid req))
          | None => false
          end then false
  else if match friends p with
          | Some fs => negb (defined (friends_presence p)) && negb (includes fs (params_nsaid req))
          | None => false
          end then false
  else true.

Definition get_friend_presence : Middleware := fun req =>
  '(friends', webservices', activeevent', updated) ← appdata req;
  match List.find (fun f => String.eqb (nsaId f) (params_nsaid req)) friends' with
  | None => ret (End not_found)
  | Some f => ret (End (json (PresenceBody (presence f))))
  end.

Definition allow_webservices (p : AuthPolicy) (req : Request) : bool :=
  if negb (flag (webservices p)) then false else true.

Definition get_webservices : Middleware := fun req =>
  '(friends', webservices', activeevent', updated) ← appdata req;
  ret (End (json (WebServicesBody webservices' updated))).

Definition get_webservice_token : Middleware := fun req =>
  try_catch
    (nso ← nonnull (znc req);
     response ← request (GetWebServiceToken nso (params_id req))
                  (getWebServiceToken E nso (params_id req));
     ret (End (json (WebServiceTokenBody response))))
    (fun err => ret (End (json_status 500 (ErrorThrown err)))).

Definition allow_activeevent (p : AuthPolicy) (req : Request) : bool :=
  if negb (flag (activeevent p)) then false else true.

Definition get_activeevent : Middleware := fun req =>
  '(friends', webservices', activeevent', updated) ← appdata req;
  ret (End (json (ActiveEventBody activeevent' updated))).

(** *** User data *)

Definition getUserData : Middleware := fun req =>
  auth ← nonnull (zncAuth req);
  w ← get_world;
  now ← Date_now;
  if match cached_userdata w !! id (user auth) with
     | Some (_, updated) => now <? updated + updateInterval
     | None => false
     end
  then ret (Next req)
  else
    try_catch
      (nso ← nonnull (znc req);
       user' ← request (GetCurrentUser nso) (getCurrentUser E nso);
       now ← Date_now;
       modify (with_userdata (insert (id (user auth)) (user', now)));;
       ret (Next req))
      (fun err => ret (End (json_status 500 (ErrorThrown err)))).

Definition userdata (req : Request) : M UserData :=
  auth ← nonnull (zncAuth req);
  w ← get_world;
  nonnull (cached_userdata w !! id (user auth)).

Definition allow_current_user (p : AuthPolicy) (req : Request) : bool :=
  if negb (flag (current_user p)) then false else true.

Definition get_user : Middleware := fun req =>
  '(user', updated) ← userdata req;
  ret (End (json (UserBody user' updated))).

Definition allow_current_user_presence (p : AuthPolicy) (req : Request) : bool :=
  if negb (flag (current_user_presence p)) then false
  else if negb (defined (current_user_presence p)) && negb (flag (current_user p)) then false
  else true.

Definition get_user_presence : Middleware := fun req =>
  '(user', updated) ← userdata req;
  ret (End (json (PresenceBody (cu_presence user')))).

(** *** The routing table *)

Definition handlers (r : Route) : list Middleware :=
  match r with
  | GET_auth => [nsoAuth; get_auth]
  | GET_token => [authToken; get_token]
  | DELETE_token => [authToken; delete_token]
  | GET_tokens => [nsoAuth; get_tokens]
  | POST_tokens => [nsoAuth; post_tokens]
  | GET_announcements =>
      [authToken; gate allow_announcements; localAuth; nsoAuth; get_announcements]
  | GET_friends =>
      [authToken; gate allow_list_friends; localAuth; nsoAuth; getAppData; get_friends]
  | GET_friends_presence =>
      [authToken; gate allow_list_friends_presence; localAuth; nsoAuth; getAppData;
       get_friends_presence]
  | GET_friend =>
      [authToken; gate allow_friend; localAuth; nsoAuth; getAppData; get_friend]
  | GET_friend_presence =>
      [authToken; gate allow_friend_presence; localAuth; nsoAuth; getAppData;
       get_friend_presence]
  | GET_webservices =>
      [authToken; gate allow_webservices; localAuth; nsoAuth; getAppData; get_webservices]
  | GET_webservice_token => [nsoAuth; get_webservice_token]
  | GET_activeevent =>
      [authToken; gate allow_activeevent; localAuth; nsoAuth; getAppData; get_activeevent]
  | GET_user =>
      [authToken; gate allow_current_user; localAuth; nsoAuth; getUserData; get_user]
  | GET_user_presence =>
      [authToken; gate allow_current_user_presence; localAuth; nsoAuth; getUserData;
       get_user_presence]
  end.

(** One request served by the application, with no code of another
    request running between its awaits.  Requests that overlap are the
    subject of [Overlap] below. *)
Definition serve (r : Route) (req : Request) : M Response :=
  run (handlers r) req.

End WithEnv.
End HttpServer.

(** ** The event stream ([ZncPresenceEventStream]) *)

Module EventStream.

Inductive ZncPresenceEventStreamEvent :=
| FRIEND_ONLINE
| FRIEND_OFFLINE
| FRIEND_TITLE_CHANGE
| FRIEND_TITLE_STATECHANGE.

(** The string value of each member of the enum. *)
Definition value (e : ZncPresenceEventStreamEvent) : string :=
  match e with
  | FRIEND_ONLINE => "0"
  | FRIEND_OFFLINE => "1"
  | FRIEND_TITLE_CHANGE => "2"
  | FRIEND_TITLE_STATECHANGE => "3"
  end.

(** [CurrentUser | Friend] *)
Definition Subject : Type := CurrentUser + Friend.

Definition subject_nsaId (s : Subject) : string :=
  match s with inl u => cu_nsaId u | inr f => nsaId f end.

Definition subject_presence (s : Subject) : Presence :=
  match s with inl u => cu_presence u | inr f => presence f end.

(** [{id: friend.nsaId, presence: friend.presence, prev: prev?.presence}] *)
Record EventData := {
  ed_id : string;
  ed_presence : Presence;
  ed_prev : option Presence;
}.

Definition event_data (friend : Subject) (prev : option Subject) : EventData :=
  {| ed_id := subject_nsaId friend;
     ed_presence := subject_presence friend;
     ed_prev := subject_presence <$> prev |}.

(** The line feed written after every field. *)
Definition LF : string := String (Ascii.ascii_of_nat 10) EmptyString.

Section WithJson.
(** [JSON.stringify] on the data of an event. *)
Context (JSON_stringify : EventData → string).

(** The chunks passed to [res.write], in order. *)
Definition sendEvent (event : option string) (data : list EventData) : list string :=
  (if truthy_opt event then ["event: " +:+ default "" event +:+ LF] else [])
  ++ ((fun d => "data: " +:+ JSON_stringify d +:+ LF) <$> data)
  ++ [LF].

Definition onFriendOnline (friend : Subject) (prev : option Subject) : list string :=
  sendEvent (Some (value FRIEND_ONLINE)) [event_data friend prev].

Definition onFriendOffline (friend : Subject) (prev : option Subject) : list string :=
  sendEvent (Some (value FRIEND_OFFLINE)) [event_data friend prev].

Definition onFriendPlayingChangeTitle (friend : Subject) (prev : option Subject) : list string :=
  sendEvent (Some (value FRIEND_TITLE_CHANGE)) [event_data friend prev].

Definition onFriendTitleStateChange (friend : Subject) (prev : option Subject) : list string :=
  sendEvent (Some (value FRIEND_TITLE_STATECHANGE)) [event_data friend prev].

End WithJson.
End EventStream.

(** ** Requests that overlap *)

Module Overlap.
Import HttpServer.

(** Node runs the code of a request up to its next [await]; until the
    awaited operation has settled, code of other requests may run.  A
    [Task] is an asynchronous function cut at its awaits: [Await m k]
    runs the synchronous code [m], which ends in the awaited operation,
    and goes on as [k] with its result when it is resumed; [Sync m k]
    runs [m] and goes on at once; [Done a] is the end.  An exception
    that is not caught ends the task. *)
Inductive Task (A : Type) : Type :=
| Done (a : A)
| Sync {B : Type} (m : M B) (k : B → Task A)
| Await {B : Type} (m : M B) (k : B → Task A).
Arguments Done {A} a.
Arguments Sync {A B} m k.
Arguments Await {A B} m k.

(** The task run with nothing between its awaits. *)
Fixpoint atomic {A} (t : Task A) : M A :=
  match t with
  | Done a => ret a
  | Sync m k => b ← m; atomic (k b)
  | Await m k => b ← m; atomic (k b)
  end.

(** A request in progress: waiting to be started or resumed, or
    answered. *)
Inductive Job (A : Type) : Type :=
| Running (t : Task A)
| Settled (r : Outcome A).
Arguments Running {A} t.
Arguments Settled {A} r.

(** The task runs until it awaits or ends. *)
Fixpoint resume {A} (t : Task A) (w : World) : Job A * World :=
  match t with
  | Done a => (Settled (Returned a), w)
  | Sync m k =>
    match m w with
    | (Returned b, w') => resume (k b) w'
    | (Thrown e, w') => (Settled (Thrown e), w')
    end
  | Await m k =>
    match m w with
    | (Returned b, w') => (Running (k b), w')
    | (Thrown e, w') => (Settled (Thrown e), w')
    end
  end.

Definition advance {A} (j : Job A) (w : World) : Job A * World :=
  match j with
  | Running t => resume t w
  | Settled r => (Settled r, w)
  end.

(** The requests [jobs] served together: [order] names, turn by turn,
    the request that runs next, up to its next await. *)
Fixpoint interleaved {A} (order : list nat) (jobs : list (Job A)) (w : World)
  : list (Job A) * World :=
  match order with
  | [] => (jobs, w)
  | i :: order' =>
    match jobs !! i with
    | Some j => let '(j', w') := advance j w in interleaved order' (<[i := j']> jobs) w'
    | None => interleaved order' jobs w
    end
  end.

Section WithEnv.
Context (E : Env).

(** The handler of [POST /api/znc/tokens], awaiting three times. *)
Definition post_tokens_task (req : Request) : Task Step :=
  Await (w ← get_world;
         let token := uuidgen E (entropy w) in
         modify (with_entropy (S (entropy w)));;
         zauth ← nonnull (zncAuth req);
         now ← Date_now;
         let auth := {| at_user := id (user zauth);
                        policy := body_policy req;
                        created_at := now / 1000 |} in
         setItem ("ZncProxyAuthPolicy." +:+ token) (VAuthToken auth);;
         ret (token, zauth, auth))
    (fun '(token, zauth, auth) =>
  Await (getItem ("ZncProxyAuthPolicies." +:+ id (user zauth)) ≫= as_strings)
    (fun ids =>
  Await (let tokens := Set_add token (Set_new (default [] ids)) in
         setItem ("ZncProxyAuthPolicies." +:+ id (user zauth)) (VStrings tokens))
    (fun _ =>
  Done (End (json (CreatedBody token auth)))))).

(** The handler of [DELETE /api/znc/token], awaiting three times. *)
Definition delete_token_task (req : Request) : Task Step :=
  if negb (truthy_opt (zncAuthPolicyToken req)) then
    Done (End (json_status 403 (ErrorCode "no_policy")))
  else
    let token := default "" (zncAuthPolicyToken req) in
    let user_key := "ZncProxyAuthPolicies." +:+ default "undefined" (zncAuthPolicyUser req) in
    Await (removeItem ("ZncProxyAuthPolicy." +:+ token))
      (fun _ =>
    Await (getItem user_key ≫= as_strings)
      (fun ids =>
    Await (let tokens := Set_delete token (Set_new (default [] ids)) in
           setItem user_key (VStrings tokens))
      (fun _ =>
    Done (End {| statusCode := 204; content_type := None; body := NoBody |})))).

(** The handler of [GET /api/znc/announcements]: the variable is
    checked before the request is sent and assigned when its answer has
    arrived. *)
Definition get_announcements_task (req : Request) : Task Step :=
  Sync get_world
    (fun w =>
  match cached_announcements w with
  | Some cached => Done (End (json (AnnouncementsBody cached)))
  | None =>
    Await (try_catch
             (nso ← nonnull (znc req);
              result ← request (GetAnnouncements nso) (getAnnouncements E nso);
              ret (inr result))
             (fun err => ret (inl err)))
      (fun answer =>
    match answer with
    | inr result =>
      Sync (modify (with_announcements (Some result)))
        (fun _ => Done (End (json (AnnouncementsBody result))))
    | inl err => Done (End (json_status 500 (ErrorThrown err)))
    end)
  end).

End WithEnv.
End Overlap.

(** ** Vocabulary of the statements *)

(** A text read as lines: a line ends at a line feed (character 10); what
    follows the last line feed is a line of its own unless it is
    empty. *)
Fixpoint lines (s : string) : list string :=
  match s with
  | EmptyString => []
  | String c s' =>
    if Ascii.eqb c (Ascii.ascii_of_nat 10) then EmptyString :: lines s'
    else match lines s' with
         | l :: ls => String c l :: ls
         | [] => [String c EmptyString]
         end
  end.

(** The text holds no line feed. *)
Fixpoint single_line (s : string) : bool :=
  match s with
  | EmptyString => true
  | String c s' => negb (Ascii.eqb c (Ascii.ascii_of_nat 10)) && single_line s'
  end.

(** The errors raised by the checks at the head of [getToken]: the
    [InvalidToken] class of the specification. *)
Definition InvalidToken (e : Error) : Prop :=
  message e ∈ ["Invalid token";
               "Invalid Nintendo Account session token issuer";
               "Invalid Nintendo Account session token type";
               "Invalid Nintendo Account session token audience";
               "Nintendo Account session token expired"].

(** The session token is not empty, decodes, and its four claims are as
    required when the clock reads [now] milliseconds. *)
Definition passes_checks (E : Env) (token : string) (now : Z) : Prop :=
  truthy token = true ∧
  ∃ jwt sig, Jwt_decode E token = inr (jwt, sig) ∧
    iss (payload jwt) = "https://accounts.nintendo.com" ∧
    typ (payload jwt) = "session_token" ∧
    aud (payload jwt) = ZNCA_CLIENT_ID E ∧
    now < exp (payload jwt) * 1000.

(** The exchange [getToken] performs for a session token: with the
    proxy when one is configured, with Nintendo otherwise. *)
Definition exchange_call (proxy_url : option string) (token : string) : Call :=
  match configured proxy_url with
  | Some url => ProxyLogin url token
  | None => NsoLogin token
  end.

Definition exchange (E : Env) (proxy_url : option string) (token : string)
  : Service (Nso * TokenData) :=
  match configured proxy_url with
  | Some url => ZncProxyApi_createWithSessionToken E url token
  | None => ZncApi_createWithSessionToken E token
  end.

(** The world in which the exchange started by [getToken] in [w] has
    completed: the store was read, the request was sent and answered. *)
Definition exchange_done (proxy_url : option string) (token : string) (w : World) : World :=
  elapse (with_trace (exchange_call proxy_url token) (elapse w)).

(** A request as Express hands it to the first handler of a route: the
    fields the handlers attach are still undefined. *)
Definition incoming (req : HttpServer.Request) : Prop :=
  HttpServer.znc req = None ∧ HttpServer.zncAuth req = None
  ∧ HttpServer.zncAuthPolicy req = None
  ∧ HttpServer.zncAuthPolicyUser req = None
  ∧ HttpServer.zncAuthPolicyToken req = None.

(** The proxy token a request presents to [authToken]: the bearer token
    of the [Authorization] header, else the [token] query parameter. *)
Definition presented_token (req : HttpServer.Request) : option string :=
  match HttpServer.authorization req with
  | Some h =>
    if startsWith h "Bearer " then Some (substr 7 h)
    else if truthy_opt (HttpServer.query_token req) then HttpServer.query_token req
    else None
  | None =>
    if truthy_opt (HttpServer.query_token req) then HttpServer.query_token req else None
  end.

(** The proxy token of a request together with the entry the store
    holds for it. *)
Definition resolved (w : World) (req : HttpServer.Request) : option (string * AuthToken) :=
  match presented_token req with
  | Some tok =>
    match storage w !! ZncProxyAuthPolicy tok with
    | Some (VAuthToken a) => Some (tok, a)
    | _ => None
    end
  | None => None
  end.

(** What [authToken] leaves in [req.zncAuthPolicy]. *)
Definition policy_after_authToken (w : World) (req : HttpServer.Request) : option AuthPolicy :=
  match resolved w req with
  | Some (_, a) => policy a
  | None => HttpServer.zncAuthPolicy req
  end.

(** The friend-id allowlist of a policy for presence data:
    [friends_presence] when present, otherwise [friends]. *)
Definition presence_allowlist (p : AuthPolicy) : option (list string) :=
  match friends_presence p with
  | Some l => Some l
  | None => friends p
  end.

(** The tokens recorded for a user under [ZncProxyAuthPolicies.<user>]. *)
Definition tokens_of (w : World) (user_id : string) : list string :=
  match storage w !! ZncProxyAuthPolicies user_id with
  | Some (VStrings l) => l
  | _ => []
  end.

(** The entry of a proxy token under [ZncProxyAuthPolicy.<token>]. *)
Definition policy_entry (w : World) (token : string) : option Stored :=
  storage w !! ZncProxyAuthPolicy token.

(** The requests by which a session is opened. *)
Definition is_login (c : Call) : Prop :=
  match c with
  | NsoLogin _ | ProxyLogin _ _ => True
  | _ => False
  end.

(** The keys written while a session token is resolved. *)
Definition session_key (k : string) : Prop :=
  (∃ t, k = NsoToken t) ∨ (∃ u, k = NintendoAccountToken u) ∨ k = "NintendoAccountIds".

(** [session_effects w w']: [w'] comes from [w] by awaits, writes under
    session keys and login requests, and by nothing else. *)
Inductive session_effects (w : World) : World → Prop :=
| session_none : session_effects w w
| session_elapse w' : session_effects w w' → session_effects w (elapse w')
| session_store w' k v :
    session_effects w w' → session_key k →
    session_effects w (with_storage (insert k v) w')
| session_login w' c :
    session_effects w w' → is_login c → session_effects w (with_trace c w').

(** The policy check in front of each route, where there is one. *)
Definition policy_check (r : HttpServer.Route)
  : option (AuthPolicy → HttpServer.Request → bool) :=
  match r with
  | HttpServer.GET_announcements => Some HttpServer.allow_announcements
  | HttpServer.GET_friends => Some HttpServer.allow_list_friends
  | HttpServer.GET_friends_presence => Some HttpServer.allow_list_friends_presence
  | HttpServer.GET_friend => Some HttpServer.allow_friend
  | HttpServer.GET_friend_presence => Some HttpServer.allow_friend_presence
  | HttpServer.GET_webservices => Some HttpServer.allow_webservices
  | HttpServer.GET_activeevent => Some HttpServer.allow_activeevent
  | HttpServer.GET_user => Some HttpServer.allow_current_user
  | HttpServer.GET_user_presence => Some HttpServer.allow_current_user_presence
  | _ => None
  end.

(** The error bodies. *)
Definition is_error_body (b : HttpServer.Body) : Prop :=
  match b with
  | HttpServer.ErrorCode _ | HttpServer.ErrorMessage _ _ | HttpServer.ErrorThrown _ => True
  | _ => False
  end.

Definition no_policy : HttpServer.Response :=
  HttpServer.json_status 403 (HttpServer.ErrorCode "no_policy").

Definition no_content : HttpServer.Response :=
  {| HttpServer.statusCode := 204; HttpServer.content_type := None;
     HttpServer.body := HttpServer.NoBody |}.

(** The responses of the proxy: a success, or one of four errors. *)
Definition response_shape (res : HttpServer.Response) : Prop :=
  (HttpServer.statusCode res = 200 ∧ ¬ is_error_body (HttpServer.body res))
  ∨ res = no_content
  ∨ res = HttpServer.tokenUnauthorised
  ∨ res = no_policy
  ∨ res = HttpServer.not_found
  ∨ ∃ err, res = HttpServer.json_status 500 (HttpServer.ErrorThrown err).

Definition step_shape (s : HttpServer.Step) : Prop :=
  match s with
  | HttpServer.Next _ => True
  | HttpServer.End res => response_shape res
  end.

Definition final_shape (s : HttpServer.Step) : Prop :=
  match s with
  | HttpServer.Next _ => False
  | HttpServer.End res => response_shape res
  end.

(** The cached application data of the user is missing or older than
    the update interval, so [getAppData] fetches it again. *)
Definition appdata_stale (argv : HttpServer.Argv) (w : World) (auth : SavedToken) : Prop :=
  match cached_appdata w !! id (user auth) with
  | Some (_, _, _, updated) => updated + HttpServer.updateInterval argv <= clock w
  | None => True
  end.

Definition userdata_stale (argv : HttpServer.Argv) (w : World) (auth : SavedToken) : Prop :=
  match cached_userdata w !! id (user auth) with
  | Some (_, updated) => updated + HttpServer.updateInterval argv <= clock w
  | None => True
  end.

(** Of the three fetches that [getAppData] makes in turn from world
    [w] (friend list, web services, active event), the first one that
    fails, fails with [err]. *)
Definition appdata_fetch_fails (E : Env) (nso : Nso) (w : World) (err : Error) : Prop :=
  let w1 := elapse (with_trace (GetFriendList nso) w) in
  let w2 := elapse (with_trace (GetWebServices nso) w1) in
  getFriendList E nso (clock w) (trace w) = inl err
  ∨ (∃ fs, getFriendList E nso (clock w) (trace w) = inr fs)
    ∧ (getWebServices E nso (clock w1) (trace w1) = inl err
       ∨ (∃ ws, getWebServices E nso (clock w1) (trace w1) = inr ws)
         ∧ getActiveEvent E nso (clock w2) (trace w2) = inl err).

(** Once the announcements are cached as [l], they stay cached as [l]. *)
Definition keeps_announcements (l : list Announcement) (w w' : World) : Prop :=
  cached_announcements w = Some l → cached_announcements w' = Some l.

(** A token is recorded for a user exactly when its entry exists and
    names that user. *)
Definition consistent (w : World) : Prop :=
  ∀ t u, t ∈ tokens_of w u ↔ ∃ a, policy_entry w t = Some (VAuthToken a) ∧ at_user a = u.

(** [preserves R m]: whatever [m] does, the world it leaves is related
    by [R] to the world it started in. *)
Definition preserves {A} (R : World → World → Prop) (m : M A) : Prop :=
  ∀ w out w', m w = (out, w') → R w w'.

(** [returns Q m]: whenever [m] returns a value, the value satisfies [Q]. *)
Definition returns {A} (Q : A → Prop) (m : M A) : Prop :=
  ∀ w a w', m w = (Returned a, w') → Q a.

(** ** A concrete environment, for examples *)

(** A request for the announcements that has not started, or one that
    was answered with the list [l]. *)
Definition fresh_or_answered (E : Env) (l : list Announcement)
    (j : Overlap.Job HttpServer.Step) : Prop :=
  (∃ req, j = Overlap.Running (Overlap.get_announcements_task E req))
  ∨ j = Overlap.Settled (Returned (HttpServer.End
          (HttpServer.json (HttpServer.AnnouncementsBody l)))).

Module Example.

Definition client_id : string := "71b963c1b7b6d119".

Definition session (aud' : string) (exp' : Z) : Jwt :=
  {| payload := {| iss := "https://accounts.nintendo.com"; typ := "session_token";
                   aud := aud'; exp := exp' |} |}.

(** Three session tokens: two well-formed ones that expire at 2000 s and
    at 5 s, and one issued to another client. *)
Definition decode (token : string) : Error + (Jwt * string) :=
  if String.eqb token "alice" then inr (session client_id 2000, "sig")
  else if String.eqb token "old" then inr (session client_id 5, "sig")
  else if String.eqb token "other" then inr (session "5c38e31cd085304b" 2000, "sig")
  else inl (mkError "Invalid JWT").

Definition alice : NintendoAccountUser := {| id := "a1"; user_profile := "Alice" |}.

Definition login (token : string) : TokenData :=
  {| d_uuid := "u"; d_timestamp := "t"; d_nintendoAccountToken := "na";
     d_user := alice; d_flapg := "f"; d_nsoAccount := "acc";
     d_credential := {| accessToken := "access"; expiresIn := 3600 |};
     d_proxy_url := None |}.

Definition online : Presence :=
  {| state := ONLINE; updatedAt := 1; logoutAt := 0; game := "" |}.
Definition offline : Presence :=
  {| state := OFFLINE; updatedAt := 1; logoutAt := 1; game := "" |}.
Definition bob : Friend := {| nsaId := "b"; name := "Bob"; presence := online |}.
Definition carol : Friend := {| nsaId := "c"; name := "Carol"; presence := offline |}.

Definition env : Env :=
  {| ZNCA_CLIENT_ID := client_id;
     Jwt_decode := decode;
     ZncApi_createWithSessionToken := fun token _ _ =>
       inr (ZncApi "access", login token);
     ZncProxyApi_createWithSessionToken := fun url token _ _ =>
       inr (ZncProxyApi url token, login token);
     getAnnouncements := fun _ _ _ => inr [{| announcementId := 1; title := "News" |}];
     getFriendList := fun _ _ _ => inr [bob; carol];
     getWebServices := fun _ _ _ => inr [];
     getActiveEvent := fun _ _ _ => inr {| ae_id := 0; ae_name := "" |};
     getCurrentUser := fun _ _ _ =>
       inr {| cu_nsaId := "a"; cu_name := "Alice"; cu_presence := online |};
     getWebServiceToken := fun _ _ _ _ => inr "wst";
     uuidgen := fun n => "uuid-" +:+ String (Ascii.ascii_of_nat (48 + n)) EmptyString |}.

(** An environment whose upstream services all fail. *)
Definition down : Error := mkError "upstream unavailable".

Definition env_down : Env :=
  {| ZNCA_CLIENT_ID := client_id;
     Jwt_decode := decode;
     ZncApi_createWithSessionToken := fun _ _ _ => inl down;
     ZncProxyApi_createWithSessionToken := fun _ _ _ _ => inl down;
     getAnnouncements := fun _ _ _ => inl down;
     getFriendList := fun _ _ _ => inl down;
     getWebServices := fun _ _ _ => inl down;
     getActiveEvent := fun _ _ _ => inl down;
     getCurrentUser := fun _ _ _ => inl down;
     getWebServiceToken := fun _ _ _ _ => inl down;
     uuidgen := fun n => "uuid" |}.

(** A fresh process at time [now] over the store [s]; every await takes
    [d] milliseconds for the first few awaits. *)
Definition world (s : gmap string Stored) (now : Z) (d : N) : World :=
  {| storage := s; clock := now; schedule := [d; d; d; d];
     trace := []; entropy := 0;
     cached_announcements := None; cached_appdata := ∅; cached_userdata := ∅ |}.

Definition saved (e : Z) : SavedToken := spread (login "alice") e.

Definition argv : HttpServer.Argv :=
  {| HttpServer.requireToken := true; HttpServer.updateIntervalSeconds := 30;
     HttpServer.zncProxyUrl := None |}.

(** An incoming request with the given [Authorization] header. *)
Definition http (h : option string) : HttpServer.Request :=
  {| HttpServer.authorization := h; HttpServer.query_user := None;
     HttpServer.query_token := None; HttpServer.params_nsaid := "b";
     HttpServer.params_id := "1"; HttpServer.body_policy := None;
     HttpServer.znc := None; HttpServer.zncAuth := None;
     HttpServer.zncAuthPolicy := None; HttpServer.zncAuthPolicyUser := None;
     HttpServer.zncAuthPolicyToken := None |}.

(** A policy that lists the presence of friend ["b"] only. *)
Definition only_b : AuthPolicy :=
  {| announcements := None; list_friends := None; list_friends_presence := Some true;
     friend := None; friend_presence := None; webservices := None; activeevent := None;
     current_user := None; current_user_presence := None;
     friends := None; friends_presence := Some ["b"] |}.

Definition proxy_token : AuthToken :=
  {| at_user := "a1"; policy := Some only_b; created_at := 0 |}.

(** A store in which the proxy token ["pt"] was issued to user ["a1"],
    whose last session token is ["alice"]. *)
Definition proxy_store : gmap string Stored :=
  <[ ZncProxyAuthPolicy "pt" := VAuthToken proxy_token ]>
    (<[ ZncProxyAuthPolicies "a1" := VStrings ["pt"] ]>
       {[ NintendoAccountToken "a1" := VString "alice" ]}).

(** The entry of the first proxy token issued to Alice at 6000 ms. *)
Definition issued : AuthToken := {| at_user := "a1"; policy := None; created_at := 6 |}.

Definition news : list Announcement := [{| announcementId := 1; title := "News" |}].

(** A process that has the announcements cached. *)
Definition with_news (w : World) : World := with_announcements (Some news) w.

End Example.

(** ** Further vocabulary *)

(** [only_token_keys w w']: the store of [w'] differs from that of [w]
    at most under keys [NsoToken.<token>] and
    [NintendoAccountToken.<user id>]. *)
Definition only_token_keys (w w' : World) : Prop :=
  ∀ k, (∀ t, k ≠ NsoToken t) → (∀ u, k ≠ NintendoAccountToken u) →
       storage w' !! k = storage w !! k.


(** ** The desktop application's view of the store ([app/main/ipc.ts]) *)

Module Ipc.


(** [ipcMain.handle('nxapi:coral:gettoken', (e, id) => ...)] *)
Definition coral_gettoken (id : string) : M (option Stored) :=
  getItem ("NintendoAccountToken." +:+ id).

(** [ipcMain.handle('nxapi:coral:getcachedtoken', (e, token) => ...)] *)
Definition coral_getcachedtoken (token : string) : M (option Stored) :=
  getItem ("NsoToken." +:+ token).

(** [ipcMain.handle('nxapi:moon:gettoken', (e, id) => ...)] *)
Definition moon_gettoken (id : string) : M (option Stored) :=
  getItem ("NintendoAccountToken-pctl." +:+ id).

(** [ipcMain.handle('nxapi:moon:getcachedtoken', (e, token) => ...)] *)
Definition moon_getcachedtoken (token : string) : M (option Stored) :=
  getItem ("MoonToken." +:+ token).

(** [ipcMain.handle('nxapi:discord:users', ...)].  The clients that
    [getDiscordRpcClients] finds are given; of a client the loop sees
    what [connect] leaves in [client.user], or the error it throws, and
    whether [destroy] throws. *)
Record DiscordUser := { du_id : string; du_username : string }.

Record Client := {
  connect : Error + option DiscordUser;
  destroy : option Error;
}.

(** The calls made to the clients, in order. *)
Inductive RpcCall :=
| Connect (c : Client)
| Destroy (c : Client).

(** [users.find(u => u.id === client.user!.id)] *)
Definition find_user (users : list DiscordUser) (u : DiscordUser) : option DiscordUser :=
  List.find (fun v => String.eqb (du_id v) (du_id u)) users.

(** The loop over the clients, from the users collected so far.  An
    error thrown by [destroy] in the [finally] block replaces the one
    thrown by [connect]. *)
Fixpoint discord_users_from (clients : list Client) (users : list DiscordUser)
  : list RpcCall * (Error + list DiscordUser) :=
  match clients with
  | [] => ([], inr users)
  | client :: rest =>
    match connect client with
    | inl e => ([Connect client; Destroy client], inl (default e (destroy client)))
    | inr u =>
      let users' := match u with
                    | Some u => if negb (defined (find_user users u))
                                then (users ++ [u])%list else users
                    | None => users
                    end in
      match destroy client with
      | Some e => ([Connect client; Destroy client], inl e)
      | None =>
        let '(calls, r) := discord_users_from rest users' in
        (Connect client :: Destroy client :: calls, r)
      end
    end
  end.

Definition discord_users (clients : list Client) : list RpcCall * (Error + list DiscordUser) :=
  discord_users_from clients [].

End Ipc.

(** The entry of a proxy token as [GET /api/znc/tokens] lists it. *)
Definition token_info (w : World) (tid : string) : option HttpServer.TokenInfo :=
  match policy_entry w tid with
  | Some (VAuthToken a) =>
      Some {| HttpServer.ti_token := tid; HttpServer.ti_user := at_user a;
              HttpServer.ti_policy := policy a;
              HttpServer.ti_created_at := created_at a |}
  | _ => None
  end.

(** A response other than the denial of the policy check. *)
Definition not_denied (s : HttpServer.Step) : Prop :=
  match s with
  | HttpServer.Next _ => True
  | HttpServer.End res => res ≠ HttpServer.tokenUnauthorised
  end.

(** ** The [friends] command ([cli/nso/friends.ts]) *)

Module Friends.

(** The options of the command that the handler reads. *)
Record Arguments := {
  user : option string;          (* --user *)
  token : option string;         (* --token *)
  json : bool;                   (* --json *)
  jsonPrettyPrint : bool;        (* --json-pretty-print *)
  zncProxyUrl : option string;   (* --znc-proxy-url *)
}.

(** What the command prints: the friend list as JSON, indented or not,
    or the table built from it.  The texts of the table's cells are
    left out. *)
Inductive Output :=
| PrettyJson (friends : list Friend)
| Json (friends : list Friend)
| Table (friends : list Friend).

Section WithEnv.
Context (E : Env).

(** [handler(argv)].  The store opened by [initStorage] is that of the
    world; opening it is one [await].  [argv.user ?? x] reads the store
    only without a [--user], [argv.token || x] only without a non-empty
    [--token]; a missing user id is concatenated as [undefined]. *)
Definition handler (argv : Arguments) : M Output :=
  await (ret tt);;
  usernsid ← match user argv with
             | Some u => ret (Some u)
             | None => getItem "SelectedUser" ≫= as_string
             end;
  token' ← (if truthy_opt (token argv) then ret (token argv)
            else getItem ("NintendoAccountToken." +:+ default "undefined" usernsid)
                   ≫= as_string);
  '(nso, data) ← Util.getToken E (default "" token') (zncProxyUrl argv);
  announcements' ← request (GetAnnouncements nso) (getAnnouncements E nso);
  friends' ← request (GetFriendList nso) (getFriendList E nso);
  webservices' ← request (GetWebServices nso) (getWebServices E nso);
  activeevent' ← request (GetActiveEvent nso) (getActiveEvent E nso);
  if jsonPrettyPrint argv then ret (PrettyJson friends')
  else if json argv then ret (Json friends')
  else ret (Table friends').

End WithEnv.
End Friends.

(** The account the [friends] command acts for: [--user], else the
    selected user of the store. *)
Definition selected_user (argv : Friends.Arguments) (w : World) : option string :=
  match Friends.user argv with
  | Some u => Some u
  | None => match storage w !! "SelectedUser" with
            | Some (VString s) => Some s
            | _ => None
            end
  end.

(** The friend list that an output of the command shows. *)
Definition printed (out : Friends.Output) : list Friend :=
  match out with Friends.PrettyJson l | Friends.Json l | Friends.Table l => l end.

(** The options with [--token] set. *)
Definition with_token (t : string) (argv : Friends.Arguments) : Friends.Arguments :=
  {| Friends.user := Friends.user argv; Friends.token := Some t;
     Friends.json := Friends.json argv;
     Friends.jsonPrettyPrint := Friends.jsonPrettyPrint argv;
     Friends.zncProxyUrl := Friends.zncProxyUrl argv |}.

(** The store holds no ill-typed selected user. *)
Definition selected_user_readable (w : World) : Prop :=
  match storage w !! "SelectedUser" with
  | Some (VString _) | None => True
  | Some _ => False
  end.

(** The session token the [friends] command acts on: [--token] when it
    is not empty, else the string stored for the account. *)
Definition command_token (argv : Friends.Arguments) (w : World) : option string :=
  if truthy_opt (Friends.token argv) then Friends.token argv
  else match storage w !! NintendoAccountToken (default "undefined" (selected_user argv w)) with
       | Some (VString s) => Some s
       | _ => None
       end.

(** The world in which the command calls [getToken]: the store has been
    opened, and read once for the selected user without [--user] and
    once for the token without a non-empty [--token]. *)
Definition session_start (argv : Friends.Arguments) (w : World) : World :=
  let opened := elapse w in
  let selected := if defined (Friends.user argv) then opened else elapse opened in
  if truthy_opt (Friends.token argv) then selected else elapse selected.

(** Of the four requests the command sends from [w], the first that
    fails, fails with [err]. *)
Definition command_fetch_fails (E : Env) (nso : Nso) (w : World) (err : Error) : Prop :=
  let w1 := elapse (with_trace (GetAnnouncements nso) w) in
  let w2 := elapse (with_trace (GetFriendList nso) w1) in
  let w3 := elapse (with_trace (GetWebServices nso) w2) in
  getAnnouncements E nso (clock w) (trace w) = inl err
  ∨ (∃ a, getAnnouncements E nso (clock w) (trace w) = inr a)
    ∧ (getFriendList E nso (clock w1) (trace w1) = inl err
       ∨ (∃ fs, getFriendList E nso (clock w1) (trace w1) = inr fs)
         ∧ (getWebServices E nso (clock w2) (trace w2) = inl err
            ∨ (∃ ws, getWebServices E nso (clock w2) (trace w2) = inr ws)
              ∧ getActiveEvent E nso (clock w3) (trace w3) = inl err)).

(** The error with which a Discord client ends the collection of users:
    the one [destroy] throws, else the one [connect] throws. *)
Definition client_failure (c : Ipc.Client) : option Error :=
  match Ipc.destroy c with
  | Some e => Some e
  | None => match Ipc.connect c with inl e => Some e | inr _ => None end
  end.

(** ** Further sample data *)

Module Scenario.

(** Alice's credential as an exchange at 6002 ms stores it. *)
Definition credential : SavedToken := Example.saved 3606002.

(** A request to which [nsoAuth] has attached Alice's session. *)
Definition session_request : HttpServer.Request :=
  HttpServer.set_znc (ZncApi "access") credential (Example.http None).

Definition no_event : ActiveEvent := {| ae_id := 0; ae_name := "" |}.

(** A process that fetched Alice's application data at [updated]. *)
Definition fetched (updated : Z) (w : World) : World :=
  with_appdata (insert "a1" ([Example.bob; Example.carol], [], no_event, updated)) w.

(** A proxy that accepts the [user] query parameter. *)
Definition open_argv : HttpServer.Argv :=
  {| HttpServer.requireToken := false; HttpServer.updateIntervalSeconds := 30;
     HttpServer.zncProxyUrl := None |}.

(** A request that names a user in its query string. *)
Definition by_user (u : string) : HttpServer.Request :=
  {| HttpServer.authorization := None; HttpServer.query_user := Some u;
     HttpServer.query_token := None; HttpServer.params_nsaid := "b";
     HttpServer.params_id := "1"; HttpServer.body_policy := None;
     HttpServer.znc := None; HttpServer.zncAuth := None;
     HttpServer.zncAuthPolicy := None; HttpServer.zncAuthPolicyUser := None;
     HttpServer.zncAuthPolicyToken := None |}.

(** The [friends] command for Alice, without a token on the command
    line. *)
Definition friends_argv : Friends.Arguments :=
  {| Friends.user := Some "a1"; Friends.token := None; Friends.json := false;
     Friends.jsonPrettyPrint := false; Friends.zncProxyUrl := None |}.

(** Four Discord clients: two logged in as the same user, one without a
    user, and one that does not connect. *)
Definition dave : Ipc.DiscordUser := {| Ipc.du_id := "d1"; Ipc.du_username := "dave" |}.
Definition first_client : Ipc.Client :=
  {| Ipc.connect := inr (Some dave); Ipc.destroy := None |}.
Definition idle_client : Ipc.Client :=
  {| Ipc.connect := inr None; Ipc.destroy := None |}.
Definition broken_client : Ipc.Client :=
  {| Ipc.connect := inl (mkError "Could not connect"); Ipc.destroy := None |}.

(** Upstream announces the time of the request. *)
Definition bulletin (now : Z) : list Announcement :=
  [{| announcementId := now; title := "News" |}].

Definition env_bulletin : Env :=
  {| ZNCA_CLIENT_ID := Example.client_id;
     Jwt_decode := Example.decode;
     ZncApi_createWithSessionToken := fun token _ _ =>
       inr (ZncApi "access", Example.login token);
     ZncProxyApi_createWithSessionToken := fun url token _ _ =>
       inr (ZncProxyApi url token, Example.login token);
     getAnnouncements := fun _ now _ => inr (bulletin now);
     getFriendList := fun _ _ _ => inr [Example.bob; Example.carol];
     getWebServices := fun _ _ _ => inr [];
     getActiveEvent := fun _ _ _ => inr {| ae_id := 0; ae_name := "" |};
     getCurrentUser := fun _ _ _ =>
       inr {| cu_nsaId := "a"; cu_name := "Alice"; cu_presence := Example.online |};
     getWebServiceToken := fun _ _ _ _ => inr "wst";
     uuidgen := fun n => "uuid-" +:+ String (Ascii.ascii_of_nat (48 + n)) EmptyString |}.

End Scenario.

(** * Properties *)

(** ** Running the monad *)

Lemma run_bind {A B} (m : M A) (k : A → M B) (w : World) :
  (m ≫= k) w = match m w with
               | (Returned a, w') => k a w'
               | (Thrown e, w') => (Thrown e, w')
               end.
Proof. reflexivity. Qed.

Lemma run_getItem (key : string) (w : World) :
  getItem key w = (Returned (storage w !! key), elapse w).
Proof. reflexivity. Qed.

Lemma run_setItem (key : string) (v : Stored) (w : World) :
  setItem key v w = (Returned tt, elapse (with_storage (insert key v) w)).
Proof. reflexivity. Qed.

Lemma run_removeItem (key : string) (w : World) :
  removeItem key w = (Returned tt, elapse (with_storage (delete key) w)).
Proof. reflexivity. Qed.

Lemma run_request {A} (c : Call) (s : Service A) (w : World) :
  request c s w = match s (clock w) (trace w) with
                  | inr a => (Returned a, elapse (with_trace c w))
                  | inl e => (Thrown e, elapse (with_trace c w))
                  end.
Proof. unfold request, await, lift. by destruct (s _ _). Qed.

(** The clock is read in milliseconds, the expiry of a session token is
    in seconds: [exp <= Date.now() / 1000] compares rationals. *)
Lemma expired_iff (e now : Z) :
  Qle_bool (inject_Z e) (Qdiv (inject_Z now) (inject_Z 1000)) = true ↔ e * 1000 <= now.
Proof.
  rewrite Qle_bool_iff. unfold Qle, Qdiv, Qmult, Qinv, inject_Z. simpl. lia.
Qed.

Lemma not_expired_iff (e now : Z) :
  Qle_bool (inject_Z e) (Qdiv (inject_Z now) (inject_Z 1000)) = false ↔ now < e * 1000.
Proof.
  rewrite <- not_true_iff_false, expired_iff. lia.
Qed.

(** ** [getToken]: the checks on the session token *)

Ltac rejected :=
  eexists; split; [reflexivity | unfold InvalidToken; cbn [message]; rewrite !elem_of_cons; tauto].

Lemma getToken_empty (E : Env) (proxy_url : option string) (w : World) :
  Util.getToken E "" proxy_url w = (Thrown (mkError "Invalid token"), w).
Proof. reflexivity. Qed.

Lemma getToken_undecodable (E : Env) (token : string) (proxy_url : option string)
    (w : World) (e : Error) :
  truthy token = true →
  Jwt_decode E token = inl e →
  Util.getToken E token proxy_url w = (Thrown e, w).
Proof.
  intros Htok Hdec. unfold Util.getToken. rewrite Htok. cbn [negb].
  by rewrite run_bind, Hdec.
Qed.

(** C2. When the session token decodes but its issuer, its type or its
    audience is not the required one, or its expiry is not strictly
    after the clock, [getToken] throws an error of the [InvalidToken]
    class and leaves the world as it was: no upstream request is logged
    and the store is not written. *)
Theorem getToken_rejects_before_network
    (E : Env) (token : string) (proxy_url : option string) (w : World)
    (jwt : Jwt) (sig : string) :
  Jwt_decode E token = inr (jwt, sig) →
  iss (payload jwt) ≠ "https://accounts.nintendo.com"
  ∨ typ (payload jwt) ≠ "session_token"
  ∨ aud (payload jwt) ≠ ZNCA_CLIENT_ID E
  ∨ exp (payload jwt) * 1000 <= clock w →
  ∃ e, Util.getToken E token proxy_url w = (Thrown e, w) ∧ InvalidToken e.
Proof.
  intros Hdec Hbad. unfold Util.getToken.
  destruct (truthy token); cbn [negb];
    [| rejected].
  rewrite run_bind. rewrite Hdec. cbn [lift ret].
  destruct (String.eqb_spec (iss (payload jwt)) "https://accounts.nintendo.com");
    cbn [negb]; [| rejected].
  destruct (String.eqb_spec (typ (payload jwt)) "session_token");
    cbn [negb]; [| rejected].
  destruct (String.eqb_spec (aud (payload jwt)) (ZNCA_CLIENT_ID E));
    cbn [negb]; [| rejected].
  destruct Hbad as [?|[?|[?|Hexp]]]; try done.
  rewrite run_bind. cbn [Date_now].
  apply expired_iff in Hexp. rewrite Hexp.
  rejected.
Qed.

Lemma getToken_rejects_before_network_witness :
  let w := Example.world ∅ 6000 1 in
  Jwt_decode Example.env "other" = inr (Example.session "5c38e31cd085304b" 2000, "sig")
  ∧ ∃ e, Util.getToken Example.env "other" None w = (Thrown e, w) ∧ InvalidToken e.
Proof.
  cbv zeta. split; [reflexivity |].
  apply (getToken_rejects_before_network Example.env "other" None
           (Example.world ∅ 6000 1) (Example.session "5c38e31cd085304b" 2000) "sig").
  - reflexivity.
  - right. right. left. discriminate.
Defined.

(** ** [getToken]: the two ways it resolves *)

(** After the checks the store is read; [elapse w] is the world in which
    the read has returned and the clock is read for the comparison with
    [expires_at]. *)
Lemma getToken_hit (E : Env) (token : string) (proxy_url : option string)
    (w : World) (cred : SavedToken) :
  passes_checks E token (clock w) →
  storage w !! NsoToken token = Some (VSavedToken cred) →
  clock (elapse w) < expires_at cred →
  Util.getToken E token proxy_url w =
    (Returned (match configured proxy_url with
               | Some url => ZncProxyApi url token
               | None => ZncApi (accessToken (credential cred))
               end, cred),
     elapse (with_storage
               (insert (NintendoAccountToken (id (user cred))) (VString token))
               (elapse w))).
Proof.
  intros (Htok & jwt & sig & Hdec & Hiss & Htyp & Haud & Hexp) Hget Hfresh.
  unfold Util.getToken, NsoToken, NintendoAccountToken in *.
  rewrite Htok. cbn [negb]. rewrite run_bind, Hdec. cbn [lift ret].
  rewrite Hiss, Htyp, Haud, !String.eqb_refl. cbn [negb].
  rewrite run_bind. cbn [Date_now].
  apply not_expired_iff in Hexp. rewrite Hexp.
  rewrite run_bind. unfold mbind at 1, M_bind, bind. rewrite run_getItem, Hget.
  cbn [as_SavedToken ret].
  rewrite run_bind. cbn [Date_now].
  apply Z.leb_gt in Hfresh. rewrite Hfresh.
  rewrite run_bind, run_setItem. reflexivity.
Qed.

Lemma getToken_miss (E : Env) (token : string) (proxy_url : option string) (w : World) :
  passes_checks E token (clock w) →
  storage w !! NsoToken token = None
  ∨ (∃ cred, storage w !! NsoToken token = Some (VSavedToken cred)
             ∧ expires_at cred <= clock (elapse w)) →
  let w1 := exchange_done proxy_url token w in
  Util.getToken E token proxy_url w =
    match exchange E proxy_url token (clock (elapse w)) (trace w) with
    | inl e => (Thrown e, w1)
    | inr (nso, data) =>
      let saved := spread data (clock w1 + expiresIn (d_credential data) * 1000) in
      (Returned (nso, saved),
       elapse (with_storage
                 (insert (NintendoAccountToken (id (d_user data))) (VString token))
                 (elapse (with_storage (insert (NsoToken token) (VSavedToken saved)) w1))))
    end.
Proof.
  intros (Htok & jwt & sig & Hdec & Hiss & Htyp & Haud & Hexp) Hget.
  unfold Util.getToken, NsoToken, NintendoAccountToken, exchange, exchange_done,
    exchange_call in *.
  rewrite Htok. cbn [negb]. rewrite run_bind, Hdec. cbn [lift ret].
  rewrite Hiss, Htyp, Haud, !String.eqb_refl. cbn [negb].
  rewrite run_bind. cbn [Date_now].
  apply not_expired_iff in Hexp. rewrite Hexp.
  rewrite run_bind. unfold mbind at 1, M_bind, bind. rewrite run_getItem.
  assert (Hmiss : ∃ o, storage w !! ("NsoToken." +:+ token) = (VSavedToken <$> o)
                       ∧ match o with
                         | None => true
                         | Some t => expires_at t <=? clock (elapse w)
                         end = true).
  { destruct Hget as [Hnone | (cred & Hsome & Hstale)].
    - by exists None.
    - exists (Some cred). split; [done |]. by apply Z.leb_le. }
  destruct Hmiss as (o & -> & Hcond).
  replace (as_SavedToken (VSavedToken <$> o) (elapse w))
    with (@Returned (option SavedToken) o, elapse w) by by destruct o.
  rewrite run_bind. cbn [Date_now]. rewrite Hcond.
  rewrite run_bind.
  destruct (configured proxy_url) as [url |]; rewrite run_request;
    cbn [elapse clock trace with_trace];
    match goal with |- context [match ?s with inl _ => _ | inr _ => _ end] =>
      destruct s as [e | [nso data]] end; reflexivity.
Qed.

(** ** Keys of different prefixes never collide *)

Ltac distinct_keys :=
  unfold NsoToken, NintendoAccountToken, ZncProxyAuthPolicy, ZncProxyAuthPolicies;
  intros; cbn [String.append]; intros ?; simplify_eq.

Lemma NintendoAccountToken_NsoToken (u t : string) : NintendoAccountToken u ≠ NsoToken t.
Proof. distinct_keys. Qed.

Lemma NsoToken_inj (t t' : string) : NsoToken t = NsoToken t' → t = t'.
Proof. unfold NsoToken. cbn [String.append]. intros ?. by simplify_eq. Qed.

Lemma NintendoAccountToken_inj (u u' : string) :
  NintendoAccountToken u = NintendoAccountToken u' → u = u'.
Proof. unfold NintendoAccountToken. cbn [String.append]. intros ?. by simplify_eq. Qed.

Lemma ZncProxyAuthPolicy_inj (t t' : string) :
  ZncProxyAuthPolicy t = ZncProxyAuthPolicy t' → t = t'.
Proof. unfold ZncProxyAuthPolicy. cbn [String.append]. intros ?. by simplify_eq. Qed.

Lemma ZncProxyAuthPolicies_inj (u u' : string) :
  ZncProxyAuthPolicies u = ZncProxyAuthPolicies u' → u = u'.
Proof. unfold ZncProxyAuthPolicies. cbn [String.append]. intros ?. by simplify_eq. Qed.

Lemma ZncProxyAuthPolicy_ZncProxyAuthPolicies (t u : string) :
  ZncProxyAuthPolicy t ≠ ZncProxyAuthPolicies u.
Proof. distinct_keys. Qed.

Lemma ZncProxyAuthPolicy_NsoToken (t t' : string) : ZncProxyAuthPolicy t ≠ NsoToken t'.
Proof. distinct_keys. Qed.

Lemma ZncProxyAuthPolicy_NintendoAccountToken (t u : string) :
  ZncProxyAuthPolicy t ≠ NintendoAccountToken u.
Proof. distinct_keys. Qed.

Lemma ZncProxyAuthPolicy_NintendoAccountIds (t : string) :
  ZncProxyAuthPolicy t ≠ "NintendoAccountIds".
Proof. distinct_keys. Qed.

Lemma ZncProxyAuthPolicies_NsoToken (u t : string) : ZncProxyAuthPolicies u ≠ NsoToken t.
Proof. distinct_keys. Qed.

Lemma ZncProxyAuthPolicies_NintendoAccountToken (u u' : string) :
  ZncProxyAuthPolicies u ≠ NintendoAccountToken u'.
Proof. distinct_keys. Qed.

Lemma ZncProxyAuthPolicies_NintendoAccountIds (u : string) :
  ZncProxyAuthPolicies u ≠ "NintendoAccountIds".
Proof. distinct_keys. Qed.



(** A resolution that returns has passed the checks, and went one of
    the two ways above. *)
Lemma getToken_returned_inv (E : Env) (token : string) (proxy_url : option string)
    (w w' : World) (r : Nso * SavedToken) :
  Util.getToken E token proxy_url w = (Returned r, w') →
  passes_checks E token (clock w) ∧
  ((∃ cred, storage w !! NsoToken token = Some (VSavedToken cred)
            ∧ clock (elapse w) < expires_at cred)
   ∨ (storage w !! NsoToken token = None
      ∨ ∃ cred, storage w !! NsoToken token = Some (VSavedToken cred)
                ∧ expires_at cred <= clock (elapse w))).
Proof.
  unfold Util.getToken, passes_checks, NsoToken.
  destruct (truthy token) eqn:Htok; cbn [negb]; [| discriminate].
  rewrite run_bind.
  destruct (Jwt_decode E token) as [e | [jwt sig]] eqn:Hdec; cbn [lift ret throw];
    [discriminate |].
  destruct (String.eqb_spec (iss (payload jwt)) "https://accounts.nintendo.com");
    cbn [negb]; [| discriminate].
  destruct (String.eqb_spec (typ (payload jwt)) "session_token");
    cbn [negb]; [| discriminate].
  destruct (String.eqb_spec (aud (payload jwt)) (ZNCA_CLIENT_ID E));
    cbn [negb]; [| discriminate].
  rewrite run_bind. cbn [Date_now].
  destruct (Qle_bool _ _) eqn:Hexp; [discriminate |].
  apply not_expired_iff in Hexp.
  rewrite run_bind. unfold mbind at 1, M_bind, bind. rewrite run_getItem.
  intros Hrun. split; [by eauto 10 |].
  destruct (storage w !! ("NsoToken." +:+ token)) as [[cred | | |] |];
    cbn [as_SavedToken ret throw] in Hrun; try discriminate; [| by auto].
  destruct (Z.leb_spec (expires_at cred) (clock (elapse w))); eauto.
Qed.

(** ** C1: the token cache *)

(** C1 (as amended). For a session token that passes the checks of
    [getToken]: when the store holds a credential for it whose
    [expires_at] is strictly after the clock at lookup time, [getToken]
    returns that very credential, logs no upstream request and leaves
    the cached entry in place; when the entry is absent or the clock has
    reached [expires_at], [getToken] sends one exchange request, and
    stores and returns the new credential if the exchange succeeds,
    while a failed exchange leaves the store as it was, so that a stale
    value stays retrievable as stored. *)
Theorem getToken_cache
    (E : Env) (token : string) (proxy_url : option string) (w : World) :
  passes_checks E token (clock w) →
  let key := NsoToken token in
  let now := clock (elapse w) in
  (∀ cred, storage w !! key = Some (VSavedToken cred) → now < expires_at cred →
     ∃ nso w', Util.getToken E token proxy_url w = (Returned (nso, cred), w')
               ∧ trace w' = trace w
               ∧ storage w' !! key = Some (VSavedToken cred))
  ∧ (storage w !! key = None
     ∨ (∃ cred, storage w !! key = Some (VSavedToken cred) ∧ expires_at cred <= now) →
     ∃ r w', Util.getToken E token proxy_url w = (r, w')
             ∧ trace w' = (trace w ++ [exchange_call proxy_url token])%list
             ∧ match r with
               | Returned (nso, saved) =>
                   (∃ data, exchange E proxy_url token now (trace w) = inr (nso, data)
                            ∧ saved = spread data
                                        (clock (exchange_done proxy_url token w)
                                         + expiresIn (d_credential data) * 1000))
                   ∧ storage w' !! key = Some (VSavedToken saved)
               | Thrown e =>
                   exchange E proxy_url token now (trace w) = inl e
                   ∧ storage w' = storage w
               end).
Proof.
  intros Hok key now. split.
  - intros cred Hget Hfresh. eexists _, _.
    split; [by apply getToken_hit |]. split; [done |].
    cbn [storage elapse with_storage].
    rewrite lookup_insert_ne; [done | apply NintendoAccountToken_NsoToken].
  - intros Hmiss. rewrite (getToken_miss E token proxy_url w Hok Hmiss).
    fold now. destruct (exchange E proxy_url token now (trace w)) as [e | [nso data]].
    + eexists _, _. split; [reflexivity |]. done.
    + eexists _, _. split; [reflexivity |]. split; [done |].
      split; [by eexists |].
      cbn [storage elapse with_storage].
      rewrite lookup_insert_ne; [| apply NintendoAccountToken_NsoToken].
      apply lookup_insert_eq.
Qed.

(** The claim without the proviso fails: the session token ["old"]
    expired at 5 s, the store holds a credential for it that is good
    until 10 s, and at 6 s [getToken] throws instead of returning it. *)
Lemma getToken_cache_needs_valid_session :
  let cred := Example.saved 10000 in
  let w := Example.world {[ NsoToken "old" := VSavedToken cred ]} 6000 1 in
  storage w !! NsoToken "old" = Some (VSavedToken cred)
  ∧ clock (elapse w) < expires_at cred
  ∧ Util.getToken Example.env "old" None w
    = (Thrown (mkError "Nintendo Account session token expired"), w).
Proof.
  cbv zeta. split; [apply lookup_singleton_eq |]. split; [by vm_compute |].
  reflexivity.
Qed.

Lemma passes_checks_alice (now : Z) :
  now < 2000000 → passes_checks Example.env "alice" now.
Proof.
  intros Hnow. split; [reflexivity |].
  exists (Example.session Example.client_id 2000), "sig".
  repeat split; try reflexivity. exact Hnow.
Defined.

Lemma getToken_cache_witness :
  let cred := Example.saved 10000 in
  let w := Example.world {[ NsoToken "alice" := VSavedToken cred ]} 6000 1 in
  passes_checks Example.env "alice" (clock w)
  ∧ ∃ nso w', Util.getToken Example.env "alice" None w = (Returned (nso, cred), w')
              ∧ trace w' = trace w
              ∧ storage w' !! NsoToken "alice" = Some (VSavedToken cred).
Proof.
  cbv zeta.
  assert (Hok : passes_checks Example.env "alice" 6000)
    by (apply passes_checks_alice; reflexivity).
  split; [exact Hok |].
  destruct (getToken_cache Example.env "alice" None
              (Example.world {[ NsoToken "alice" := VSavedToken (Example.saved 10000) ]} 6000 1)
              Hok) as [Hhit _].
  apply Hhit; [apply lookup_singleton_eq | reflexivity].
Defined.

(** ** C3: the expiry of a fresh credential *)

(** C3. When the store has no live credential for a valid session token
    and the exchange succeeds with [data], the credential that
    [getToken] returns is the one it has stored under the token's key,
    and its [expires_at] is the clock reading [T] at the completion of
    the exchange plus [expiresIn] seconds, in milliseconds. *)
Theorem getToken_expires_at
    (E : Env) (token : string) (proxy_url : option string) (w : World)
    (nso : Nso) (data : TokenData) :
  passes_checks E token (clock w) →
  storage w !! NsoToken token = None
  ∨ (∃ cred, storage w !! NsoToken token = Some (VSavedToken cred)
             ∧ expires_at cred <= clock (elapse w)) →
  exchange E proxy_url token (clock (elapse w)) (trace w) = inr (nso, data) →
  let T := clock (exchange_done proxy_url token w) in
  ∃ saved w', Util.getToken E token proxy_url w = (Returned (nso, saved), w')
              ∧ storage w' !! NsoToken token = Some (VSavedToken saved)
              ∧ expires_at saved = T + expiresIn (d_credential data) * 1000.
Proof.
  intros Hok Hmiss Hex T.
  rewrite (getToken_miss E token proxy_url w Hok Hmiss), Hex.
  eexists _, _. split; [reflexivity |]. split; [| reflexivity].
  cbn [storage elapse with_storage].
  rewrite lookup_insert_ne; [| apply NintendoAccountToken_NsoToken].
  apply lookup_insert_eq.
Qed.

(** With [expiresIn = 3600], an empty store, the clock at 6000 ms and
    awaits of 1 ms each, the exchange completes at [T = 6002] and the
    stored credential expires at [T + 3 600 000]. *)
Lemma getToken_expires_at_witness :
  let w := Example.world ∅ 6000 1 in
  passes_checks Example.env "alice" (clock w)
  ∧ clock (exchange_done None "alice" w) = 6002
  ∧ ∃ saved w', Util.getToken Example.env "alice" None w
                = (Returned (ZncApi "access", saved), w')
                ∧ storage w' !! NsoToken "alice" = Some (VSavedToken saved)
                ∧ expires_at saved = 6002 + 3600 * 1000.
Proof.
  cbv zeta.
  assert (Hok : passes_checks Example.env "alice" 6000)
    by (apply passes_checks_alice; reflexivity).
  split; [exact Hok |]. split; [reflexivity |].
  apply (getToken_expires_at Example.env "alice" None (Example.world ∅ 6000 1)
           (ZncApi "access") (Example.login "alice") Hok).
  - left. apply lookup_empty.
  - reflexivity.
Defined.

(** ** C4: one credential per session token, overwritten on refresh *)

(** C4. The store is a map, so a key holds at most one credential; a
    refresh makes no use of the entry it replaces: starting from a store
    that holds a stale credential [old] for the token, a successful
    refresh returns the same credential and ends with the same store as
    starting from the store without that entry, and the token's key
    then holds exactly the credential built from the exchange. *)
Theorem getToken_overwrites
    (E : Env) (token : string) (proxy_url : option string) (w : World)
    (old : SavedToken) (nso : Nso) (data : TokenData) :
  passes_checks E token (clock w) →
  expires_at old <= clock (elapse w) →
  exchange E proxy_url token (clock (elapse w)) (trace w) = inr (nso, data) →
  let key := NsoToken token in
  let saved := spread data (clock (exchange_done proxy_url token w)
                            + expiresIn (d_credential data) * 1000) in
  ∃ w1 w2,
    Util.getToken E token proxy_url (with_storage (insert key (VSavedToken old)) w)
      = (Returned (nso, saved), w1)
    ∧ Util.getToken E token proxy_url (with_storage (delete key) w)
      = (Returned (nso, saved), w2)
    ∧ storage w1 = storage w2
    ∧ storage w1 !! key = Some (VSavedToken saved)
    ∧ ∀ token', token' ≠ token →
        storage w1 !! NsoToken token' = storage w !! NsoToken token'.
Proof.
  intros Hok Hstale Hex key saved.
  eexists _, _. split; [| split].
  - rewrite getToken_miss; [| exact Hok |].
    + cbn [clock trace schedule elapse with_storage] in Hex |- *. rewrite Hex. reflexivity.
    + right. exists old. split; [apply lookup_insert_eq | exact Hstale].
  - rewrite getToken_miss; [| exact Hok |].
    + cbn [clock trace schedule elapse with_storage] in Hex |- *. rewrite Hex. reflexivity.
    + left. apply lookup_delete_eq.
  - cbn [storage elapse with_storage with_trace exchange_done]. fold key.
    rewrite insert_insert_eq, insert_delete_eq. split; [done |]. split.
    + rewrite lookup_insert_ne; [| apply NintendoAccountToken_NsoToken].
      apply lookup_insert_eq.
    + intros token' Hne.
      rewrite lookup_insert_ne; [| apply NintendoAccountToken_NsoToken].
      rewrite lookup_insert_ne; [done |]. intros Heq. by apply NsoToken_inj in Heq.
Qed.

Lemma getToken_overwrites_witness :
  let w := Example.world ∅ 6000 1 in
  let key := NsoToken "alice" in
  let saved := Example.saved 3606002 in
  passes_checks Example.env "alice" (clock w)
  ∧ ∃ w1 w2,
      Util.getToken Example.env "alice" None
        (with_storage (insert key (VSavedToken (Example.saved 10))) w)
        = (Returned (ZncApi "access", saved), w1)
      ∧ Util.getToken Example.env "alice" None (with_storage (delete key) w)
        = (Returned (ZncApi "access", saved), w2)
      ∧ storage w1 = storage w2
      ∧ storage w1 !! key = Some (VSavedToken saved)
      ∧ ∀ token', token' ≠ "alice" →
          storage w1 !! NsoToken token' = storage w !! NsoToken token'.
Proof.
  cbv zeta.
  assert (Hok : passes_checks Example.env "alice" 6000)
    by (apply passes_checks_alice; reflexivity).
  split; [exact Hok |].
  apply (getToken_overwrites Example.env "alice" None (Example.world ∅ 6000 1)
           (Example.saved 10) (ZncApi "access") (Example.login "alice") Hok).
  - by vm_compute.
  - reflexivity.
Defined.

(** ** C5: the last token used by a user *)

(** C5. Whenever [getToken] returns, by a fresh exchange or from the
    cache, the store maps [NintendoAccountToken.<id>], for the [id] of
    the user of the returned credential, to the session token that was
    used. *)
Theorem getToken_records_last_token
    (E : Env) (token : string) (proxy_url : option string) (w w' : World)
    (nso : Nso) (saved : SavedToken) :
  Util.getToken E token proxy_url w = (Returned (nso, saved), w') →
  storage w' !! NintendoAccountToken (id (user saved)) = Some (VString token).
Proof.
  intros Hrun.
  destruct (getToken_returned_inv _ _ _ _ _ _ Hrun) as [Hok [(cred & Hget & Hfresh) | Hmiss]].
  - rewrite (getToken_hit E token proxy_url w cred Hok Hget Hfresh) in Hrun.
    simplify_eq. cbn [storage elapse with_storage]. apply lookup_insert_eq.
  - rewrite (getToken_miss E token proxy_url w Hok Hmiss) in Hrun.
    destruct (exchange E proxy_url token _ _) as [e | [nso' data]]; [discriminate |].
    cbv zeta in Hrun. simplify_eq.
    cbn [storage elapse with_storage user spread]. apply lookup_insert_eq.
Qed.

(** Both ways of resolving end with the reverse mapping in the store. *)
Lemma getToken_records_last_token_witness :
  let cred := Example.saved 10000 in
  let hit := Example.world {[ NsoToken "alice" := VSavedToken cred ]} 6000 1 in
  let miss := Example.world ∅ 6000 1 in
  (∃ w', Util.getToken Example.env "alice" None hit = (Returned (ZncApi "access", cred), w')
         ∧ trace w' = []
         ∧ storage w' !! NintendoAccountToken "a1" = Some (VString "alice"))
  ∧ (∃ w', Util.getToken Example.env "alice" None miss
           = (Returned (ZncApi "access", Example.saved 3606002), w')
           ∧ trace w' = [NsoLogin "alice"]
           ∧ storage w' !! NintendoAccountToken "a1" = Some (VString "alice")).
Proof.
  cbv zeta. split.
  - set (w := Example.world {[ NsoToken "alice" := VSavedToken (Example.saved 10000) ]} 6000 1).
    assert (Hrun : Util.getToken Example.env "alice" None w
                   = (Returned (ZncApi "access", Example.saved 10000),
                      (Util.getToken Example.env "alice" None w).2))
      by (vm_compute; reflexivity).
    exists (Util.getToken Example.env "alice" None w).2.
    split; [exact Hrun |]. split; [by vm_compute |].
    exact (getToken_records_last_token _ _ _ _ _ _ _ Hrun).
  - set (w := Example.world ∅ 6000 1).
    assert (Hrun : Util.getToken Example.env "alice" None w
                   = (Returned (ZncApi "access", Example.saved 3606002),
                      (Util.getToken Example.env "alice" None w).2))
      by (vm_compute; reflexivity).
    exists (Util.getToken Example.env "alice" None w).2.
    split; [exact Hrun |]. split; [by vm_compute |].
    exact (getToken_records_last_token _ _ _ _ _ _ _ Hrun).
Defined.

(** ** The HTTP proxy: how the handlers run *)

Import HttpServer.

Lemma run_cons_inv (m : Middleware) (rest : list Middleware) (req : Request)
    (w w' : World) (out : Outcome Response) :
  run (m :: rest) req w = (out, w') →
  (∃ req1 w1, m req w = (Returned (Next req1), w1) ∧ run rest req1 w1 = (out, w'))
  ∨ (∃ res, m req w = (Returned (End res), w') ∧ out = Returned res)
  ∨ (∃ e, m req w = (Thrown e, w') ∧ out = Thrown e).
Proof.
  cbn [run]. rewrite run_bind.
  destruct (m req w) as [[[req1 | res] | e] w1]; intros Hrun.
  - left. eexists _, _. split; [reflexivity | exact Hrun].
  - right. left. cbv [ret] in Hrun. simplify_eq. eauto.
  - right. right. simplify_eq. eauto.
Qed.

Lemma run_next (m : Middleware) (rest : list Middleware) (req req1 : Request) (w w1 : World) :
  m req w = (Returned (Next req1), w1) →
  run (m :: rest) req w = run rest req1 w1.
Proof. intros H. cbn [run]. rewrite run_bind, H. reflexivity. Qed.

Lemma run_end (m : Middleware) (rest : list Middleware) (req : Request) (res : Response)
    (w w1 : World) :
  m req w = (Returned (End res), w1) →
  run (m :: rest) req w = (Returned res, w1).
Proof. intros H. cbn [run]. rewrite run_bind, H. reflexivity. Qed.

Section Handlers.
Context (E : Env) (argv : Argv).

Lemma authToken_run (req : Request) (w : World) :
  authToken req w =
    match presented_token req with
    | None => (Returned (Next req), w)
    | Some tok =>
      match storage w !! ZncProxyAuthPolicy tok with
      | None => (Returned (Next req), elapse w)
      | Some (VAuthToken a) => (Returned (Next (set_policy a tok req)), elapse w)
      | Some _ => (Thrown TypeError, elapse w)
      end
    end.
Proof.
  unfold authToken, presented_token, ZncProxyAuthPolicy.
  destruct (authorization req) as [h |]; cbn [default].
  - destruct (startsWith h "Bearer ").
    + rewrite run_bind. unfold mbind at 1, M_bind, bind. rewrite run_getItem.
      by destruct (storage w !! _) as [[| | |] |].
    + destruct (query_token req) as [q |]; cbn [truthy_opt default]; [| done].
      destruct (truthy q); [| done].
      rewrite run_bind. unfold mbind at 1, M_bind, bind. rewrite run_getItem.
      by destruct (storage w !! _) as [[| | |] |].
  - destruct (query_token req) as [q |]; cbn [truthy_opt default]; [| done].
    destruct (truthy q); [| done].
    rewrite run_bind. unfold mbind at 1, M_bind, bind. rewrite run_getItem.
    by destruct (storage w !! _) as [[| | |] |].
Qed.

Lemma gate_run (allowed : AuthPolicy → Request → bool) (req : Request) (w : World) :
  gate allowed req w =
    (Returned match zncAuthPolicy req with
              | None => Next req
              | Some p => if allowed p req then Next req else End tokenUnauthorised
              end, w).
Proof. unfold gate. destruct (zncAuthPolicy req) as [p |]; [| done]. by destruct (allowed p req). Qed.

End Handlers.

(** ** Frame reasoning *)

Section Preserves.
Context (R : World → World → Prop) `{!PreOrder R}.

Lemma preserves_ret {A} (a : A) : preserves R (mret a).
Proof. intros w out w' H. cbv in H. by simplify_eq. Qed.

Lemma preserves_throw {A} (e : Error) : preserves R (@throw A e).
Proof. intros w out w' H. cbv in H. by simplify_eq. Qed.

Lemma preserves_bind {A B} (m : M A) (k : A → M B) :
  preserves R m → (∀ a, preserves R (k a)) → preserves R (m ≫= k).
Proof.
  intros Hm Hk w out w'. rewrite run_bind.
  destruct (m w) as [[a | e] w1] eqn:Hrun; intros H.
  - transitivity w1; [by eapply Hm | by eapply Hk].
  - simplify_eq. by eapply Hm.
Qed.

Lemma preserves_try_catch {A} (m : M A) (h : Error → M A) :
  preserves R m → (∀ e, preserves R (h e)) → preserves R (try_catch m h).
Proof.
  intros Hm Hh w out w'. unfold try_catch.
  destruct (m w) as [[a | e] w1] eqn:Hrun; intros H.
  - simplify_eq. by eapply Hm.
  - transitivity w1; [by eapply Hm | by eapply Hh].
Qed.

Lemma preserves_pure {A} (f : World → Outcome A) : preserves R (fun w => (f w, w)).
Proof. intros w out w' H. by simplify_eq. Qed.

Lemma preserves_Date_now : preserves R Date_now.
Proof. apply preserves_pure. Qed.

Lemma preserves_get_world : preserves R get_world.
Proof. apply preserves_pure. Qed.

Lemma preserves_lift {A} (r : Error + A) : preserves R (lift r).
Proof. destruct r; [apply preserves_throw | apply preserves_ret]. Qed.

Lemma preserves_nonnull {A} (o : option A) : preserves R (nonnull o).
Proof. destruct o; [apply preserves_ret | apply preserves_throw]. Qed.

Lemma preserves_as_SavedToken o : preserves R (as_SavedToken o).
Proof. destruct o as [[| | |] |]; first [apply preserves_ret | apply preserves_throw]. Qed.

Lemma preserves_as_string o : preserves R (as_string o).
Proof. destruct o as [[| | |] |]; first [apply preserves_ret | apply preserves_throw]. Qed.

Lemma preserves_as_strings o : preserves R (as_strings o).
Proof. destruct o as [[| | |] |]; first [apply preserves_ret | apply preserves_throw]. Qed.

Lemma preserves_as_AuthToken o : preserves R (as_AuthToken o).
Proof. destruct o as [[| | |] |]; first [apply preserves_ret | apply preserves_throw]. Qed.

Lemma preserves_modify (f : World → World) :
  (∀ w, R w (f w)) → preserves R (modify f).
Proof. intros Hf w out w' H. cbv [modify] in H. simplify_eq. apply Hf. Qed.

Lemma preserves_await {A} (m : M A) :
  (∀ w, R w (elapse w)) → preserves R m → preserves R (await m).
Proof.
  intros He Hm w out w'. unfold await.
  destruct (m w) as [r w1] eqn:Hrun. intros H. simplify_eq.
  transitivity w1; [by eapply Hm | apply He].
Qed.

Lemma preserves_getItem (key : string) :
  (∀ w, R w (elapse w)) → preserves R (getItem key).
Proof. intros He. apply preserves_await; [done | apply preserves_pure]. Qed.

Lemma preserves_setItem (key : string) (v : Stored) :
  (∀ w, R w (elapse w)) → (∀ w, R w (with_storage (insert key v) w)) →
  preserves R (setItem key v).
Proof. intros He Hs. apply preserves_await; [done | by apply preserves_modify]. Qed.

Lemma preserves_removeItem (key : string) :
  (∀ w, R w (elapse w)) → (∀ w, R w (with_storage (delete key) w)) →
  preserves R (removeItem key).
Proof. intros He Hs. apply preserves_await; [done | by apply preserves_modify]. Qed.

Lemma preserves_request {A} (c : Call) (s : Service A) :
  (∀ w, R w (elapse w)) → (∀ w, R w (with_trace c w)) →
  preserves R (request c s).
Proof.
  intros He Hc. apply preserves_await; [done |].
  intros w out w' H. destruct (s (clock w) (trace w)); cbv [lift throw ret] in H;
    simplify_eq; apply Hc.
Qed.

Lemma preserves_mapM {A B} (f : A → M B) (l : list A) :
  (∀ a, preserves R (f a)) → preserves R (mapM f l).
Proof.
  intros Hf. induction l as [| a l IH]; cbn [mapM]; [apply preserves_ret |].
  apply preserves_bind; [apply Hf |]. intros b.
  apply preserves_bind; [apply IH |]. intros bs. apply preserves_ret.
Qed.

End Preserves.

(** Decompose a computation along its binds and branches. *)
Ltac frame_step :=
  first
    [ apply preserves_ret | apply preserves_throw
    | apply preserves_Date_now | apply preserves_get_world
    | apply preserves_lift | apply preserves_nonnull
    | apply preserves_as_SavedToken | apply preserves_as_string
    | apply preserves_as_strings | apply preserves_as_AuthToken
    | apply preserves_getItem | apply preserves_setItem | apply preserves_removeItem
    | apply preserves_request | apply preserves_modify
    | apply preserves_mapM; [solve [auto with typeclass_instances] | intros ?]
    | apply preserves_try_catch; [solve [auto with typeclass_instances] | | intros ?]
    | apply preserves_bind; [solve [auto with typeclass_instances] | | intros ?]
    | match goal with
      | |- preserves _ (if ?b then _ else _) => destruct b
      | |- preserves _ (match ?x with _ => _ end) => destruct x
      | |- preserves _ (let _ := _ in _) => cbv zeta
      end ].

Ltac frame := repeat frame_step; try exact _.

(** ** What resolving a session can change *)

#[export] Instance session_effects_preorder : PreOrder session_effects.
Proof.
  split.
  - intros w. constructor.
  - intros w1 w2 w3 H12 H23. induction H23; [done | | |]; by constructor.
Qed.

Lemma session_effects_elapse (w : World) : session_effects w (elapse w).
Proof. by do 2 constructor. Qed.

Lemma session_effects_store (k : string) (v : Stored) (w : World) :
  session_key k → session_effects w (with_storage (insert k v) w).
Proof. intros Hk. constructor; [constructor | done]. Qed.

Lemma session_effects_login (c : Call) (w : World) :
  is_login c → session_effects w (with_trace c w).
Proof. intros Hc. constructor; [constructor | done]. Qed.

Lemma session_key_NsoToken (t : string) : session_key ("NsoToken." +:+ t).
Proof. left. by exists t. Qed.

Lemma session_key_NintendoAccountToken (u : string) :
  session_key ("NintendoAccountToken." +:+ u).
Proof. right. left. by exists u. Qed.

Lemma session_key_NintendoAccountIds : session_key "NintendoAccountIds".
Proof. right. by right. Qed.

Create HintDb session discriminated.
#[export] Hint Resolve session_effects_elapse session_effects_store session_effects_login
  session_key_NsoToken session_key_NintendoAccountToken session_key_NintendoAccountIds
  : session.
#[export] Hint Extern 1 (is_login _) => exact I : session.

Lemma getToken_session_effects (E : Env) (token : string) (proxy_url : option string) :
  preserves session_effects (Util.getToken E token proxy_url).
Proof.
  unfold Util.getToken. frame; auto with session.
Qed.

Lemma session_effects_caches (w w' : World) :
  session_effects w w' →
  cached_announcements w' = cached_announcements w
  ∧ cached_appdata w' = cached_appdata w
  ∧ cached_userdata w' = cached_userdata w
  ∧ entropy w' = entropy w.
Proof. induction 1; done. Qed.

Lemma session_effects_storage (w w' : World) (k : string) :
  session_effects w w' → ¬ session_key k → storage w' !! k = storage w !! k.
Proof.
  intros H Hk. induction H as [| | w' k' v _ IH Hk' |]; [done | done | | done].
  cbn [storage with_storage]. rewrite lookup_insert_ne; [done |]. by intros ->.
Qed.

Lemma session_effects_trace (w w' : World) :
  session_effects w w' →
  ∃ calls, trace w' = (trace w ++ calls)%list ∧ Forall is_login calls.
Proof.
  induction 1 as [| w' _ IH | w' k v _ IH _ | w' c _ IH Hc].
  - exists []. by rewrite app_nil_r.
  - done.
  - done.
  - destruct IH as (calls & Htr & Hall). exists (calls ++ [c])%list.
    cbn [trace with_trace]. rewrite Htr, app_assoc. split; [done |].
    apply Forall_app. split; [done | by constructor].
Qed.

Lemma policy_key_not_session (t : string) : ¬ session_key (ZncProxyAuthPolicy t).
Proof.
  intros [[t' H] | [[u H] | H]]; revert H.
  - apply ZncProxyAuthPolicy_NsoToken.
  - apply ZncProxyAuthPolicy_NintendoAccountToken.
  - apply ZncProxyAuthPolicy_NintendoAccountIds.
Qed.

Lemma policies_key_not_session (u : string) : ¬ session_key (ZncProxyAuthPolicies u).
Proof.
  intros [[t' H] | [[u' H] | H]]; revert H.
  - apply ZncProxyAuthPolicies_NsoToken.
  - apply ZncProxyAuthPolicies_NintendoAccountToken.
  - apply ZncProxyAuthPolicies_NintendoAccountIds.
Qed.

Section Middlewares.
Context (E : Env) (argv : Argv).

Lemma authToken_session_effects (req : Request) :
  preserves session_effects (authToken req).
Proof. unfold authToken. frame; auto with session. Qed.

Lemma localAuth_session_effects (req : Request) :
  preserves session_effects (localAuth argv req).
Proof. unfold localAuth. frame; auto with session. Qed.

Lemma nsoAuth_session_effects (req : Request) :
  preserves session_effects (nsoAuth E argv req).
Proof.
  unfold nsoAuth. frame; auto with session.
  apply getToken_session_effects.
Qed.

(** [localAuth] never ends the response, and only ever sets the
    [Authorization] header. *)
Lemma localAuth_inv (req : Request) (w w' : World) (out : Outcome Step) :
  localAuth argv req w = (out, w') →
  out = Thrown TypeError
  ∨ out = Returned (Next req)
  ∨ ∃ h, out = Returned (Next (set_authorization h req)).
Proof.
  unfold localAuth.
  destruct (requireToken argv || negb (truthy_opt (query_user req)));
    [intros H; cbv [mret M_ret ret] in H; simplify_eq; auto |].
  rewrite run_bind. unfold mbind at 1, M_bind, bind. rewrite run_getItem.
  destruct (storage w !! _) as [[| s | |] |]; cbn [as_string ret throw];
    try (intros H; simplify_eq; by auto).
  - destruct (truthy_opt (Some s)); cbn [negb]; intros H;
      cbv [mret M_ret ret] in H; simplify_eq; eauto.
  - cbn. intros H. cbv [ret] in H. simplify_eq. auto.
Qed.

(** [nsoAuth] catches whatever is thrown while the session is resolved:
    it either passes the request on with the session attached, or ends
    the response with status 500 and the error. *)
Lemma nsoAuth_inv (req : Request) (w w' : World) (out : Outcome Step) :
  nsoAuth E argv req w = (out, w') →
  (∃ nso data, out = Returned (Next (set_znc nso data req)))
  ∨ (∃ err, out = Returned (End (json_status 500 (ErrorThrown err)))).
Proof.
  unfold nsoAuth, try_catch.
  match goal with |- context [match ?m w with _ => _ end] =>
    destruct (m w) as [[s | err] w1] eqn:Hrun end.
  - intros H. simplify_eq. left.
    rewrite run_bind in Hrun.
    match type of Hrun with context [match ?m w with _ => _ end] =>
      destruct (m w) as [[tok | e] w2] end; [| discriminate].
    rewrite run_bind in Hrun.
    destruct (Util.getToken E tok (zncProxyUrl argv) w2) as [[[nso data] | e] w3];
      [| discriminate].
    rewrite run_bind in Hrun.
    match type of Hrun with context [match ?m w3 with _ => _ end] =>
      destruct (m w3) as [[ids | e] w4] end; [| discriminate].
    cbv zeta in Hrun. rewrite run_bind, run_setItem in Hrun.
    cbv [mret M_ret ret] in Hrun. simplify_eq. eauto.
  - intros H. cbv [mret M_ret ret] in H. simplify_eq. eauto.
Qed.

End Middlewares.

(** ** The handlers in front of the policy-checked routes *)

Section Prefix.
Context (E : Env) (argv : Argv).

Lemma authToken_inv (req : Request) (w w' : World) (out : Outcome Step) :
  authToken req w = (out, w') →
  out = Thrown TypeError
  ∨ ∃ req1, out = Returned (Next req1)
            ∧ zncAuthPolicy req1 = policy_after_authToken w req
            ∧ params_nsaid req1 = params_nsaid req
            ∧ (req1 = req ∧ resolved w req = None
               ∨ ∃ tok a, req1 = set_policy a tok req ∧ resolved w req = Some (tok, a)).
Proof.
  rewrite authToken_run. unfold policy_after_authToken, resolved.
  destruct (presented_token req) as [tok |].
  - destruct (storage w !! ZncProxyAuthPolicy tok) as [[| | | a] |]; intros H; simplify_eq;
      try (by left).
    + right. eexists. split; [done |]. repeat split. right. by exists tok, a.
    + right. eexists. split; [done |]. repeat split. by left.
  - intros H; simplify_eq. right. eexists. split; [done |]. repeat split. by left.
Qed.

Lemma gated_prefix_inv (allowed : AuthPolicy → Request → bool) (rest : list Middleware)
    (req : Request) (w w' : World) (out : Outcome Response) :
  run (authToken :: gate allowed :: localAuth argv :: nsoAuth E argv :: rest) req w
    = (out, w') →
  (session_effects w w'
   ∧ (out = Thrown TypeError
      ∨ (out = Returned tokenUnauthorised
         ∧ ∃ p req1, policy_after_authToken w req = Some p
                     ∧ params_nsaid req1 = params_nsaid req
                     ∧ allowed p req1 = false)
      ∨ ∃ err, out = Returned (json_status 500 (ErrorThrown err))))
  ∨ ∃ req3 w3 nso data,
      session_effects w w3
      ∧ run rest req3 w3 = (out, w')
      ∧ znc req3 = Some nso
      ∧ zncAuth req3 = Some data
      ∧ zncAuthPolicy req3 = policy_after_authToken w req
      ∧ params_nsaid req3 = params_nsaid req
      ∧ match policy_after_authToken w req with
        | Some p => ∃ req1, params_nsaid req1 = params_nsaid req ∧ allowed p req1 = true
        | None => True
        end.
Proof.
  intros Hrun. apply run_cons_inv in Hrun.
  destruct Hrun as [(req1 & w1 & Hauth & Hrun) | [(res & Hauth & ->) | (e & Hauth & ->)]].
  2: { apply authToken_inv in Hauth. destruct Hauth as [? | (? & ? & _)]; discriminate. }
  2: { left. split; [by eapply authToken_session_effects |].
       apply authToken_inv in Hauth. destruct Hauth as [? | (? & ? & _)]; simplify_eq. auto. }
  pose proof (authToken_session_effects _ _ _ _ Hauth) as Hs1.
  apply authToken_inv in Hauth.
  destruct Hauth as [? | (req1' & ? & Hpol1 & Hnsa1 & _)]; simplify_eq.
  apply run_cons_inv in Hrun. rewrite gate_run in Hrun.
  destruct Hrun as [(req2 & w2 & Hgate & Hrun) | [(res & Hgate & ->) | (e & ? & _)]];
    [| | discriminate].
  2: { left. simplify_eq. split; [done |]. right. left.
       destruct (zncAuthPolicy req1') as [p |] eqn:Hp; [| discriminate].
       destruct (allowed p req1') eqn:Hal; simplify_eq.
       split; [done |]. exists p, req1'. by rewrite <- Hpol1. }
  assert (req2 = req1' ∧ w2 = w1
          ∧ match policy_after_authToken w req with
            | Some p => allowed p req1' = true
            | None => True
            end) as (-> & -> & Hpass).
  { rewrite <- Hpol1. destruct (zncAuthPolicy req1') as [p |]; [| by simplify_eq].
    destruct (allowed p req1') eqn:Hal; by simplify_eq. }
  clear Hgate. apply run_cons_inv in Hrun.
  destruct Hrun as [(req2 & w2 & Hlocal & Hrun) | [(res & Hlocal & ->) | (e & Hlocal & ->)]].
  2: { apply localAuth_inv in Hlocal. destruct Hlocal as [? | [? | [h ?]]]; discriminate. }
  2: { left. split.
       - etransitivity; [exact Hs1 | by eapply localAuth_session_effects].
       - apply localAuth_inv in Hlocal.
         destruct Hlocal as [? | [? | [h ?]]]; simplify_eq. auto. }
  pose proof (localAuth_session_effects _ _ _ _ _ Hlocal) as Hs2.
  assert (zncAuthPolicy req2 = zncAuthPolicy req1'
          ∧ params_nsaid req2 = params_nsaid req1') as [Hpol2 Hnsa2].
  { apply localAuth_inv in Hlocal. destruct Hlocal as [? | [? | [h ?]]]; by simplify_eq. }
  clear Hlocal. apply run_cons_inv in Hrun.
  destruct Hrun as [(req3 & w3 & Hnso & Hrun) | [(res & Hnso & ->) | (e & Hnso & ->)]].
  3: { apply nsoAuth_inv in Hnso. destruct Hnso as [(? & ? & ?) | (? & ?)]; discriminate. }
  2: { left. split.
       - etransitivity; [exact Hs1 |].
         etransitivity; [exact Hs2 | by eapply nsoAuth_session_effects].
       - apply nsoAuth_inv in Hnso.
         destruct Hnso as [(? & ? & ?) | (err & ?)]; simplify_eq. eauto. }
  pose proof (nsoAuth_session_effects _ _ _ _ _ _ Hnso) as Hs3.
  apply nsoAuth_inv in Hnso. destruct Hnso as [(nso & data & ?) | (? & ?)]; simplify_eq.
  right. exists (set_znc nso data req2), w3, nso, data.
  split; [by etransitivity; [exact Hs1 | etransitivity] |].
  split; [done |]. cbn [znc zncAuth zncAuthPolicy params_nsaid set_znc].
  repeat split; try congruence.
  destruct (policy_after_authToken w req); [| done]. by exists req1'.
Qed.

End Prefix.

(** ** C7: the presence listing honours the allowlist *)

Lemma includes_elem_of (l : list string) (x : string) : includes l x = true ↔ x ∈ l.
Proof.
  unfold includes. rewrite existsb_exists. split.
  - intros (y & Hin & Heq). apply String.eqb_eq in Heq. subst y.
    by apply list_elem_of_In.
  - intros Hin. exists x. split; [by apply list_elem_of_In | apply String.eqb_refl].
Qed.

Lemma not_skipped_allowed (p : AuthPolicy) (allow : list string) (f : Friend) :
  presence_allowlist p = Some allow →
  skipped (Some p) f = false →
  nsaId f ∈ allow.
Proof.
  unfold presence_allowlist, skipped. intros Hallow Hskip.
  destruct (friends_presence p) as [fp |].
  - simplify_eq. apply includes_elem_of.
    destruct (includes allow (nsaId f)); [done |]. discriminate.
  - destruct (friends p) as [fs |]; [| discriminate]. simplify_eq.
    apply includes_elem_of. cbn in Hskip.
    destruct (includes allow (nsaId f)); [done |]. discriminate.
Qed.

Lemma presences_fold (policy : option AuthPolicy) (Q : string → Presence → Prop)
    (l : list Friend) (acc : gmap string Presence) :
  (∀ k v, acc !! k = Some v → Q k v) →
  (∀ f, f ∈ l → skipped policy f = false → Q (nsaId f) (presence f)) →
  ∀ k v,
    foldl (fun (acc : gmap string Presence) f =>
             if skipped policy f then acc else set_property (nsaId f) (presence f) acc) acc l
      !! k = Some v →
    Q k v.
Proof.
  revert acc. induction l as [| f l IH]; intros acc Hacc Hl k v; cbn [foldl]; [by apply Hacc |].
  apply IH.
  - intros k' v'. destruct (skipped policy f) eqn:Hskip; [by apply Hacc |].
    unfold set_property. destruct (String.eqb (nsaId f) "__proto__"); [by apply Hacc |].
    destruct (decide (nsaId f = k')) as [<- | Hne].
    + rewrite lookup_insert_eq. intros ?. simplify_eq.
      apply Hl; [by left | done].
    + rewrite lookup_insert_ne by done. apply Hacc.
  - intros f' Hin. apply Hl. by right.
Qed.

Section FriendsPresence.
Context (E : Env) (argv : Argv).

Lemma getAppData_inv (req : Request) (w w' : World) (out : Outcome Step) :
  getAppData E argv req w = (out, w') →
  out = Thrown TypeError
  ∨ out = Returned (Next req)
  ∨ ∃ err, out = Returned (End (json_status 500 (ErrorThrown err))).
Proof.
  unfold getAppData. rewrite run_bind.
  destruct (zncAuth req) as [auth |]; cbn [nonnull];
    [| intros H; cbv [throw] in H; simplify_eq; auto].
  cbv [mret M_ret ret]. rewrite run_bind. cbv [get_world]. rewrite run_bind. cbv [Date_now].
  match goal with |- context [if ?b then _ else _] => destruct b end.
  - intros H. simplify_eq. auto.
  - unfold try_catch.
    match goal with |- context [match ?m w with _ => _ end] =>
      destruct (m w) as [[s | err] w1] eqn:Hrun end.
    + intros H. simplify_eq. right. left.
      rewrite run_bind in Hrun. destruct (znc req) as [nso |]; [| discriminate].
      cbn [nonnull] in Hrun. cbv [mret M_ret ret] in Hrun.
      rewrite run_bind, run_request in Hrun.
      destruct (getFriendList E nso _ _); [discriminate |].
      rewrite run_bind, run_request in Hrun.
      destruct (getWebServices E nso _ _); [discriminate |].
      rewrite run_bind, run_request in Hrun.
      destruct (getActiveEvent E nso _ _); [discriminate |].
      rewrite run_bind in Hrun. cbv [Date_now] in Hrun.
      rewrite run_bind in Hrun. cbv [modify] in Hrun. by simplify_eq.
    + intros H. simplify_eq. eauto.
Qed.

Lemma get_friends_presence_run (req : Request) (w : World) :
  get_friends_presence req w =
    match zncAuth req with
    | None => (Thrown TypeError, w)
    | Some auth =>
      match cached_appdata w !! id (user auth) with
      | None => (Thrown TypeError, w)
      | Some (friends', _, _, _) =>
        (Returned (End (json (PresencesBody
           (foldl (fun (acc : gmap string Presence) f =>
                     if skipped (zncAuthPolicy req) f then acc
                     else set_property (nsaId f) (presence f) acc) ∅ friends')))), w)
      end
    end.
Proof.
  unfold get_friends_presence, appdata. rewrite !run_bind.
  destruct (zncAuth req) as [auth |]; [| done]. cbn [nonnull].
  cbv [mret M_ret ret get_world]. rewrite run_bind.
  destruct (cached_appdata w !! id (user auth)) as [[[[fs ws] ae] upd] |]; done.
Qed.

(** C7. When the proxy token of a request to the friends-presence
    endpoint resolves to a policy with a friend-id allowlist
    ([friends_presence] when present, otherwise [friends]), every key of
    the presence object sent in response is the [nsaId] of a friend in
    the allowlist, and its value is the presence of a cached friend of
    that id; no other response of the endpoint carries presence data. *)
Theorem friends_presence_honours_allowlist
    (req : Request) (w w' : World) (res : Response)
    (tok : string) (a : AuthToken) (p : AuthPolicy) (allow : list string) :
  resolved w req = Some (tok, a) →
  policy a = Some p →
  presence_allowlist p = Some allow →
  serve E argv GET_friends_presence req w = (Returned res, w') →
  (∃ m, body res = PresencesBody m
        ∧ ∀ k v, m !! k = Some v →
            k ∈ allow
            ∧ ∃ f friends' ws ae upd user_id,
                cached_appdata w' !! user_id = Some (friends', ws, ae, upd)
                ∧ f ∈ friends' ∧ nsaId f = k ∧ presence f = v)
  ∨ res = tokenUnauthorised
  ∨ ∃ err, res = json_status 500 (ErrorThrown err).
Proof.
  intros Hres Hpol Hallow. unfold serve, handlers, resolved in *.
  destruct (presented_token req) as [tok' |] eqn:Htok; [| discriminate].
  destruct (storage w !! ZncProxyAuthPolicy tok') as [[| | | a'] |] eqn:Hget;
    try discriminate. simplify_eq.
  rewrite (run_next authToken _ req (set_policy a tok req) w (elapse w))
    by by rewrite authToken_run, Htok, Hget.
  intros Hrun. apply run_cons_inv in Hrun.
  rewrite gate_run in Hrun. cbn [zncAuthPolicy set_policy] in Hrun. rewrite Hpol in Hrun.
  destruct Hrun as [(req1 & w1 & Hgate & Hrun) | [(res' & Hgate & ?) | (e & ? & ?)]];
    [| | discriminate].
  2: { destruct (allow_list_friends_presence _ _); simplify_eq. auto. }
  assert (req1 = set_policy a tok req ∧ w1 = elapse w) as [-> ->]
    by (destruct (allow_list_friends_presence _ _); by simplify_eq).
  clear Hgate.
  apply run_cons_inv in Hrun.
  destruct Hrun as [(req2 & w2 & Hlocal & Hrun) | [(res' & Hlocal & ?) | (e & ? & ?)]];
    [| | discriminate].
  2: { apply localAuth_inv in Hlocal. destruct Hlocal as [? | [? | [h ?]]]; discriminate. }
  assert (Hpol2 : zncAuthPolicy req2 = Some p).
  { apply localAuth_inv in Hlocal.
    destruct Hlocal as [? | [? | [h ?]]]; simplify_eq; by cbn. }
  clear Hlocal. apply run_cons_inv in Hrun.
  destruct Hrun as [(req3 & w3 & Hnso & Hrun) | [(res' & Hnso & ?) | (e & Hnso & ?)]].
  3: { apply nsoAuth_inv in Hnso. destruct Hnso as [(? & ? & ?) | (? & ?)]; discriminate. }
  2: { apply nsoAuth_inv in Hnso. destruct Hnso as [(? & ? & ?) | (err & ?)]; simplify_eq.
       eauto. }
  assert (Hpol3 : zncAuthPolicy req3 = Some p).
  { apply nsoAuth_inv in Hnso. destruct Hnso as [(? & ? & ?) | (? & ?)]; by simplify_eq. }
  clear Hnso. apply run_cons_inv in Hrun.
  destruct Hrun as [(req4 & w4 & Happ & Hrun) | [(res' & Happ & ?) | (e & ? & ?)]];
    [| | discriminate].
  2: { apply getAppData_inv in Happ. destruct Happ as [? | [? | (err & ?)]]; simplify_eq.
       eauto. }
  assert (req4 = req3) as ->.
  { apply getAppData_inv in Happ. destruct Happ as [? | [? | (err & ?)]]; by simplify_eq. }
  clear Happ. apply run_cons_inv in Hrun.
  rewrite get_friends_presence_run in Hrun.
  destruct (zncAuth req3) as [auth |].
  2: { destruct Hrun as [(? & ? & ? & _) | [(? & ? & _) | (? & ? & ?)]]; discriminate. }
  destruct (cached_appdata w4 !! id (user auth)) as [[[[fs ws] ae] upd] |] eqn:Hcache.
  2: { destruct Hrun as [(? & ? & ? & _) | [(? & ? & _) | (? & ? & ?)]]; discriminate. }
  destruct Hrun as [(? & ? & ? & _) | [(res' & Hend & ?) | (? & ? & ?)]]; try discriminate.
  simplify_eq. left. eexists. split; [reflexivity |].
  rewrite Hpol3. intros k v.
  apply (presences_fold (Some p)
           (fun k v => k ∈ allow
                       ∧ ∃ f friends' ws ae upd user_id,
                           cached_appdata w' !! user_id = Some (friends', ws, ae, upd)
                           ∧ f ∈ friends' ∧ nsaId f = k ∧ presence f = v)).
  - intros k' v'. by rewrite lookup_empty.
  - intros f Hin Hskip. split; [by eapply not_skipped_allowed |].
    by exists f, fs, ws, ae, upd, (id (user auth)).
Qed.

End FriendsPresence.

Lemma friends_presence_honours_allowlist_witness :
  let w := Example.world Example.proxy_store 6000 1 in
  let req := Example.http (Some "Bearer pt") in
  resolved w req = Some ("pt", Example.proxy_token)
  ∧ presence_allowlist Example.only_b = Some ["b"]
  ∧ ∃ w', serve Example.env Example.argv GET_friends_presence req w
          = (Returned (json (PresencesBody {[ "b" := Example.online ]})), w')
          ∧ ∀ k v, ({[ "b" := Example.online ]} : gmap string Presence) !! k = Some v →
              k ∈ ["b"].
Proof.
  cbv zeta.
  set (w := Example.world Example.proxy_store 6000 1).
  set (req := Example.http (Some "Bearer pt")).
  assert (Hres : resolved w req = Some ("pt", Example.proxy_token)) by (vm_compute; reflexivity).
  assert (Hrun : serve Example.env Example.argv GET_friends_presence req w
                 = (Returned (json (PresencesBody {[ "b" := Example.online ]})),
                    (serve Example.env Example.argv GET_friends_presence req w).2))
    by (vm_compute; reflexivity).
  split; [exact Hres |]. split; [reflexivity |].
  eexists. split; [exact Hrun |].
  destruct (friends_presence_honours_allowlist Example.env Example.argv req w _ _
              "pt" Example.proxy_token Example.only_b ["b"] Hres eq_refl eq_refl Hrun)
    as [(m & Hbody & Hall) | [Hno | (err & Hno)]]; [| discriminate | discriminate].
  cbn [body json json_status] in Hbody. injection Hbody as <-.
  intros k v Hk. by destruct (Hall k v Hk).
Defined.

(** ** C8: the frames of the event stream *)

Import EventStream.

Lemma lines_cons_line (a rest : string) :
  single_line a = true →
  lines ((a +:+ String (Ascii.ascii_of_nat 10) EmptyString) +:+ rest) = a :: lines rest.
Proof.
  induction a as [| c a IH]; intros Ha.
  - reflexivity.
  - cbn [single_line] in Ha. apply andb_true_iff in Ha. destruct Ha as [Hc Ha].
    change (lines (String c ((a +:+ String (Ascii.ascii_of_nat 10) EmptyString) +:+ rest))
            = String c a :: lines rest).
    cbn [lines]. apply negb_true_iff in Hc. rewrite Hc. by rewrite (IH Ha).
Qed.

(** C8. Each of the four handlers writes three chunks: the text
    [event: ], its own code (["0"] friend online, ["1"] friend offline,
    ["2"] title change, ["3"] title state change) and a line feed; the
    text [data: ], the JSON of the subject's [nsaId], the subject's
    presence and the previous subject's presence (when there is one),
    and a line feed; and a line feed.  Read as lines, the frame is
    therefore an [event:] line with the code, a [data:] line with the
    JSON, and the empty line that ends the frame, whenever the JSON text
    itself holds no line feed. *)
Theorem event_stream_frames
    (JSON_stringify : EventData → string) (friend : Subject) (prev : option Subject) :
  let presence_of (s : Subject) :=
    match s with inl u => cu_presence u | inr f => presence f end in
  let data := {| ed_id := match friend with inl u => cu_nsaId u | inr f => nsaId f end;
                 ed_presence := presence_of friend;
                 ed_prev := match prev with
                            | Some s => Some (presence_of s)
                            | None => None
                            end |} in
  let line_feed := String (Ascii.ascii_of_nat 10) EmptyString in
  let frame (code : string) :=
    ["event: " +:+ code +:+ line_feed;
     "data: " +:+ JSON_stringify data +:+ line_feed;
     line_feed] in
  let read (chunks : list string) := lines (String.concat "" chunks) in
  (onFriendOnline JSON_stringify friend prev = frame "0"
   ∧ onFriendOffline JSON_stringify friend prev = frame "1"
   ∧ onFriendPlayingChangeTitle JSON_stringify friend prev = frame "2"
   ∧ onFriendTitleStateChange JSON_stringify friend prev = frame "3")
  ∧ (single_line (JSON_stringify data) = true →
     read (onFriendOnline JSON_stringify friend prev)
     = ["event: 0"; "data: " +:+ JSON_stringify data; ""]
     ∧ read (onFriendOffline JSON_stringify friend prev)
       = ["event: 1"; "data: " +:+ JSON_stringify data; ""]
     ∧ read (onFriendPlayingChangeTitle JSON_stringify friend prev)
       = ["event: 2"; "data: " +:+ JSON_stringify data; ""]
     ∧ read (onFriendTitleStateChange JSON_stringify friend prev)
       = ["event: 3"; "data: " +:+ JSON_stringify data; ""]).
Proof.
  cbv zeta.
  set (data := {| ed_id := match friend with inl u => cu_nsaId u | inr f => nsaId f end;
                  ed_presence := match friend with
                                 | inl u => cu_presence u
                                 | inr f => presence f
                                 end;
                  ed_prev := match prev with
                             | Some s => Some match s with
                                              | inl u => cu_presence u
                                              | inr f => presence f
                                              end
                             | None => None
                             end |}).
  assert (Hdata : event_data friend prev = data).
  { unfold event_data, data. destruct friend, prev as [[|] |]; reflexivity. }
  split.
  - unfold onFriendOnline, onFriendOffline, onFriendPlayingChangeTitle,
      onFriendTitleStateChange. rewrite Hdata. repeat split.
  - intros Hline.
    assert (Hframe : ∀ code : string,
              single_line ("event: " +:+ code) = true →
              lines (String.concat ""
                       ["event: " +:+ code +:+ String (Ascii.ascii_of_nat 10) EmptyString;
                        "data: " +:+ JSON_stringify data
                          +:+ String (Ascii.ascii_of_nat 10) EmptyString;
                        String (Ascii.ascii_of_nat 10) EmptyString])
              = ["event: " +:+ code; "data: " +:+ JSON_stringify data; ""]).
    { intros code Hcode.
      change (lines ((("event: " +:+ code) +:+ String (Ascii.ascii_of_nat 10) EmptyString)
                     +:+ ((("data: " +:+ JSON_stringify data)
                           +:+ String (Ascii.ascii_of_nat 10) EmptyString)
                          +:+ String (Ascii.ascii_of_nat 10) EmptyString))
              = ["event: " +:+ code; "data: " +:+ JSON_stringify data; ""]).
      rewrite (lines_cons_line _ _ Hcode).
      rewrite (lines_cons_line ("data: " +:+ JSON_stringify data)); [reflexivity |].
      exact Hline. }
    unfold onFriendOnline, onFriendOffline, onFriendPlayingChangeTitle,
      onFriendTitleStateChange. rewrite Hdata.
    repeat split; (apply Hframe; reflexivity).
Qed.

(** Bob comes online; the JSON of the data is abbreviated to the id. *)
Lemma event_stream_frames_witness :
  lines (String.concat "" (onFriendOnline ed_id (inr Example.bob) None))
  = ["event: 0"; "data: b"; ""].
Proof.
  exact (proj1 (proj2 (event_stream_frames ed_id (inr Example.bob) None) eq_refl)).
Defined.

(** Without an event name only the data lines and the closing empty
    line are written. *)
Lemma sendEvent_anonymous (JSON_stringify : EventData → string) (d : EventData) :
  sendEvent JSON_stringify None [d] = ["data: " +:+ JSON_stringify d +:+ LF; LF].
Proof. reflexivity. Qed.

(** ** Requests that overlap *)

Import Overlap.

Section OverlapHandlers.
Context (E : Env).

(** Run with nothing between its awaits, each task is the handler. *)
Lemma atomic_post_tokens (req : Request) (w : World) :
  atomic (post_tokens_task E req) w = post_tokens E req w.
Proof.
  unfold post_tokens_task, post_tokens.
  destruct (zncAuth req) as [zauth |];
    cbv [atomic mbind M_bind bind mret M_ret ret get_world modify nonnull Date_now
         setItem getItem await throw]; [| reflexivity].
  match goal with |- context [as_strings ?o ?w0] => destruct (as_strings o w0) as [[ids | e] w1] end;
    reflexivity.
Qed.

Lemma atomic_delete_token (req : Request) (w : World) :
  atomic (delete_token_task req) w = delete_token req w.
Proof.
  unfold delete_token_task, delete_token.
  destruct (negb (truthy_opt (zncAuthPolicyToken req))); [reflexivity |].
  cbv [atomic mbind M_bind bind mret M_ret ret get_world modify nonnull Date_now
       setItem getItem removeItem await throw].
  match goal with |- context [as_strings ?o ?w0] => destruct (as_strings o w0) as [[ids | e] w1] end;
    reflexivity.
Qed.

Lemma atomic_get_announcements (req : Request) (w : World) :
  atomic (get_announcements_task E req) w = get_announcements E req w.
Proof.
  unfold get_announcements_task, get_announcements. cbn [atomic]. rewrite !run_bind.
  cbv [get_world]. destruct (cached_announcements w) as [cached |]; [reflexivity |].
  cbn [atomic]. rewrite run_bind. unfold try_catch at 1 2. rewrite !run_bind.
  destruct (znc req) as [nso |]; [| reflexivity]. cbn [nonnull]. cbv [ret].
  rewrite !run_bind, run_request.
  by destruct (getAnnouncements E nso (clock w) (trace w)).
Qed.

End OverlapHandlers.

Section OverlapAnnouncements.
Context (E : Env).

Lemma resume_get_announcements_cached (req : Request) (w : World) (l : list Announcement) :
  cached_announcements w = Some l →
  resume (get_announcements_task E req) w
  = (Settled (Returned (End (json (AnnouncementsBody l)))), w).
Proof. intros Hc. cbn. cbv [get_world]. by rewrite Hc. Qed.

Lemma interleaved_cached (l : list Announcement) (order : list nat)
    (jobs jobs' : list (Job Step)) (w w' : World) :
  cached_announcements w = Some l →
  Forall (fresh_or_answered E l) jobs →
  interleaved order jobs w = (jobs', w') →
  w' = w ∧ Forall (fresh_or_answered E l) jobs'.
Proof.
  intros Hc. revert jobs. induction order as [| i order IH]; intros jobs Hjobs; cbn [interleaved].
  - intros H. by simplify_eq.
  - destruct (jobs !! i) as [j |] eqn:Hj; [| by apply IH].
    assert (Hadv : advance j w = (Settled (Returned (End (json (AnnouncementsBody l)))), w)).
    { destruct (proj1 (Forall_lookup _ _) Hjobs i j Hj) as [[req ->] | ->].
      - by apply resume_get_announcements_cached.
      - reflexivity. }
    rewrite Hadv. apply IH. apply Forall_insert; [done |]. by right.
Qed.

Lemma resume_get_announcements_first (req : Request) (w : World) (nso : Nso)
    (l : list Announcement) :
  cached_announcements w = None →
  znc req = Some nso →
  getAnnouncements E nso (clock w) (trace w) = inr l →
  ∃ t, resume (get_announcements_task E req) w
       = (Running t, elapse (with_trace (GetAnnouncements nso) w))
       ∧ ∀ w2, resume t w2 = (Settled (Returned (End (json (AnnouncementsBody l)))),
                              with_announcements (Some l) w2).
Proof.
  intros Hc Hznc Hfetch. cbn [get_announcements_task resume]. cbv [get_world]. rewrite Hc.
  cbn [resume]. unfold try_catch. rewrite run_bind, Hznc. cbn [nonnull]. cbv [ret].
  rewrite run_bind, run_request, Hfetch. eexists. split; [reflexivity |].
  intros w2. reflexivity.
Qed.

End OverlapAnnouncements.

(** ** C10: the announcements cache *)

#[export] Instance keeps_announcements_preorder (l : list Announcement) :
  PreOrder (keeps_announcements l).
Proof.
  split.
  - intros w H. exact H.
  - intros w1 w2 w3 H12 H23 H. by apply H23, H12.
Qed.

Create HintDb announcements discriminated.
#[export] Hint Extern 1 (keeps_announcements _ _ _) =>
  (unfold keeps_announcements; cbn; tauto) : announcements.

Lemma preserves_run (R : World → World → Prop) `{!PreOrder R} (chain : list Middleware) :
  Forall (fun m => ∀ req, preserves R (m req)) chain →
  ∀ req, preserves R (run chain req).
Proof.
  induction 1 as [| m chain Hm _ IH]; intros req; cbn [run]; [by apply preserves_ret |].
  apply preserves_bind; [done | apply Hm |].
  intros [req' | res]; [apply IH | by apply preserves_ret].
Qed.

Section Announcements.
Context (E : Env) (argv : Argv).

Lemma get_announcements_cached (req : Request) (w : World) (l : list Announcement) :
  cached_announcements w = Some l →
  get_announcements E req w = (Returned (End (json (AnnouncementsBody l))), w).
Proof. intros H. unfold get_announcements. rewrite run_bind. cbv [get_world]. by rewrite H. Qed.

Lemma get_announcements_first (req : Request) (w : World) (nso : Nso) :
  cached_announcements w = None →
  znc req = Some nso →
  get_announcements E req w =
    match getAnnouncements E nso (clock w) (trace w) with
    | inr l => (Returned (End (json (AnnouncementsBody l))),
                with_announcements (Some l) (elapse (with_trace (GetAnnouncements nso) w)))
    | inl err => (Returned (End (json_status 500 (ErrorThrown err))),
                  elapse (with_trace (GetAnnouncements nso) w))
    end.
Proof.
  intros Hnone Hznc. unfold get_announcements. rewrite run_bind. cbv [get_world].
  rewrite Hnone. unfold try_catch. rewrite run_bind, Hznc. cbn [nonnull].
  cbv [mret M_ret ret]. rewrite run_bind, run_request.
  by destruct (getAnnouncements E nso _ _).
Qed.

Lemma get_announcements_keeps (l : list Announcement) (req : Request) :
  preserves (keeps_announcements l) (get_announcements E req).
Proof.
  intros w out w' Hrun Hsome.
  rewrite (get_announcements_cached req w l Hsome) in Hrun. by simplify_eq.
Qed.

Lemma handlers_keep_announcements (l : list Announcement) (r : Route) :
  Forall (fun m => ∀ req, preserves (keeps_announcements l) (m req)) (handlers E argv r).
Proof.
  assert (Hauth : ∀ req, preserves (keeps_announcements l) (authToken req))
    by (intros; unfold authToken; frame; auto with announcements).
  assert (Hlocal : ∀ req, preserves (keeps_announcements l) (localAuth argv req))
    by (intros; unfold localAuth; frame; auto with announcements).
  assert (Hnso : ∀ req, preserves (keeps_announcements l) (nsoAuth E argv req))
    by (intros; unfold nsoAuth, Util.getToken; frame; auto with announcements).
  assert (Hgate : ∀ allowed req, preserves (keeps_announcements l) (gate allowed req))
    by (intros; unfold gate; frame).
  assert (Happ : ∀ req, preserves (keeps_announcements l) (getAppData E argv req))
    by (intros; unfold getAppData; frame; auto with announcements).
  assert (Husr : ∀ req, preserves (keeps_announcements l) (getUserData E argv req))
    by (intros; unfold getUserData; frame; auto with announcements).
  destruct r; cbn [handlers];
    repeat first [apply List.Forall_nil | apply List.Forall_cons]; intros req.
  all: first
    [ apply Hauth | apply Hlocal | apply Hnso | apply Hgate | apply Happ | apply Husr
    | apply get_announcements_keeps
    | unfold get_auth, get_token, delete_token, get_tokens, post_tokens, get_friends,
        get_friends_presence, get_friend, get_friend_presence, get_webservices,
        get_webservice_token, get_activeevent, get_user, get_user_presence,
        appdata, userdata;
      frame; auto with announcements ].
Qed.

End Announcements.

Section AnnouncementsCache.
Context (E : Env) (argv : Argv).

(** C10 (as amended). The announcements are cached in one variable of
    the process, for all users and without expiry.  A request that
    finds the variable empty fetches the list and stores it.  With the
    list stored and requests served one after the other, the variable
    keeps that list whatever request is served; and a request for the
    announcements is answered with that same list whenever it passes
    the handlers in front (policy check and session), the only other
    answers being 403 from the policy check and 500 from the session
    handler.  Serving it sends no announcements request upstream: the
    only upstream requests are the logins that resolving the session may
    need.  The same holds when the handlers of such requests overlap,
    as long as each starts with the list stored: in whatever order they
    run, each is answered with the list and the world is left as it
    was.  A request that found the variable empty, though, stores its
    own list when its fetch has completed, whatever the variable holds
    by then: the handler takes no lock between its check and its
    assignment. *)
Theorem announcements_cached_for_all (l : list Announcement) :
  (∀ req w nso,
     cached_announcements w = None → znc req = Some nso →
     getAnnouncements E nso (clock w) (trace w) = inr l →
     ∃ w', get_announcements E req w = (Returned (End (json (AnnouncementsBody l))), w')
           ∧ cached_announcements w' = Some l)
  ∧ (∀ r req w out w',
       cached_announcements w = Some l →
       serve E argv r req w = (out, w') →
       cached_announcements w' = Some l)
  ∧ (∀ req w res w',
       cached_announcements w = Some l →
       serve E argv GET_announcements req w = (Returned res, w') →
       (res = json (AnnouncementsBody l)
        ∨ res = tokenUnauthorised
        ∨ ∃ err, res = json_status 500 (ErrorThrown err))
       ∧ ∃ calls, trace w' = (trace w ++ calls)%list ∧ Forall is_login calls)
  ∧ (∀ order jobs w jobs' w',
       cached_announcements w = Some l →
       Forall (fresh_or_answered E l) jobs →
       interleaved order jobs w = (jobs', w') →
       w' = w ∧ Forall (fresh_or_answered E l) jobs')
  ∧ (∀ req w nso,
       cached_announcements w = None → znc req = Some nso →
       getAnnouncements E nso (clock w) (trace w) = inr l →
       ∃ t, resume (get_announcements_task E req) w
            = (Running t, elapse (with_trace (GetAnnouncements nso) w))
            ∧ ∀ w2, resume t w2
                    = (Settled (Returned (End (json (AnnouncementsBody l)))),
                       with_announcements (Some l) w2)).
Proof.
  split; [| split; [| split; [| split]]];
    [| | | intros order jobs w jobs' w'; apply interleaved_cached
         | intros req w nso; apply resume_get_announcements_first].
  - intros req w nso Hnone Hznc Hfetch.
    rewrite (get_announcements_first E req w nso Hnone Hznc), Hfetch. by eexists.
  - intros r req w out w' Hsome Hrun.
    by eapply (preserves_run (keeps_announcements l) _
                 (handlers_keep_announcements E argv l r)).
  - intros req w res w' Hsome Hrun. unfold serve, handlers in Hrun.
    apply gated_prefix_inv in Hrun.
    destruct Hrun as [[Hs [? | [[? _] | [err ?]]]]
                     | (req3 & w3 & nso & data & Hs & Hrun & _)]; simplify_eq.
    + split; [auto | by apply session_effects_trace].
    + split; [eauto | by apply session_effects_trace].
    + apply run_cons_inv in Hrun.
      assert (Hsome3 : cached_announcements w3 = Some l).
      { apply session_effects_caches in Hs. destruct Hs as [-> _]. done. }
      rewrite (get_announcements_cached E req3 w3 l Hsome3) in Hrun.
      destruct Hrun as [(? & ? & ? & _) | [(res' & ? & ?) | (? & ? & _)]]; simplify_eq.
      split; [auto | by apply session_effects_trace].
Qed.

End AnnouncementsCache.

(** The claim as stated fails in two ways once the list is cached: a
    request without credentials is answered with status 500, not with
    the list; and a request whose session has to be opened sends a login
    request upstream before it is answered with the list. *)
Lemma announcements_cache_behind_session :
  let w := Example.with_news (Example.world ∅ 6000 1) in
  cached_announcements w = Some Example.news
  ∧ (∃ w', serve Example.env Example.argv GET_announcements (Example.http None) w
           = (Returned (json_status 500
                          (ErrorThrown (mkError "Requires Nintendo Account authentication"))),
              w'))
  ∧ (∃ w', serve Example.env Example.argv GET_announcements
             (Example.http (Some "na alice")) w
           = (Returned (json (AnnouncementsBody Example.news)), w')
           ∧ trace w = [] ∧ trace w' = [NsoLogin "alice"]).
Proof.
  cbv zeta. split; [reflexivity |]. split.
  - eexists. vm_compute. reflexivity.
  - eexists. split; [vm_compute; reflexivity |]. split; reflexivity.
Qed.

Lemma announcements_cached_for_all_witness :
  let w := Example.with_news (Example.world ∅ 6000 1) in
  let req := Example.http (Some "na alice") in
  cached_announcements w = Some Example.news
  ∧ ∃ w', serve Example.env Example.argv GET_announcements req w
          = (Returned (json (AnnouncementsBody Example.news)), w')
          ∧ cached_announcements w' = Some Example.news
          ∧ ∃ calls, trace w' = (trace w ++ calls)%list ∧ Forall is_login calls.
Proof.
  cbv zeta.
  set (w := Example.with_news (Example.world ∅ 6000 1)).
  set (req := Example.http (Some "na alice")).
  assert (Hrun : serve Example.env Example.argv GET_announcements req w
                 = (Returned (json (AnnouncementsBody Example.news)),
                    (serve Example.env Example.argv GET_announcements req w).2))
    by (vm_compute; reflexivity).
  destruct (announcements_cached_for_all Example.env Example.argv Example.news)
    as (_ & Hkeep & Honce & _).
  split; [reflexivity |]. eexists. split; [exact Hrun |]. split.
  - exact (Hkeep GET_announcements req w _ _ eq_refl Hrun).
  - exact (proj2 (Honce req w _ _ eq_refl Hrun)).
Defined.

(** The claim as stated fails in three ways.  With the list cached, a
    request without credentials is answered with status 500, not with
    the list; and a request whose session has to be opened sends a login
    request upstream before it is answered with the list.  And the list
    that stays is not always the first one fetched: when two requests
    find the variable empty before either fetch has completed, each
    stores its own list, the second replacing the first, and a request
    served afterwards receives the second. *)
Lemma announcements_cache_not_for_all :
  let cached := Example.with_news (Example.world ∅ 6000 1) in
  let w := Example.world ∅ 6000 1 in
  let fetch := Running (get_announcements_task Scenario.env_bulletin Scenario.session_request) in
  let served := interleaved [0; 1; 0; 1; 2]%nat [fetch; fetch; fetch] w in
  (cached_announcements cached = Some Example.news
   ∧ (∃ w', serve Example.env Example.argv GET_announcements (Example.http None) cached
            = (Returned (json_status 500
                           (ErrorThrown (mkError "Requires Nintendo Account authentication"))),
               w'))
   ∧ (∃ w', serve Example.env Example.argv GET_announcements
              (Example.http (Some "na alice")) cached
            = (Returned (json (AnnouncementsBody Example.news)), w')
            ∧ trace cached = [] ∧ trace w' = [NsoLogin "alice"]))
  ∧ (cached_announcements w = None
     ∧ cached_announcements (interleaved [0; 1; 0]%nat [fetch; fetch; fetch] w).2
       = Some (Scenario.bulletin 6000)
     ∧ served.1
       = [Settled (Returned (End (json (AnnouncementsBody (Scenario.bulletin 6000)))));
          Settled (Returned (End (json (AnnouncementsBody (Scenario.bulletin 6001)))));
          Settled (Returned (End (json (AnnouncementsBody (Scenario.bulletin 6001)))))]
     ∧ cached_announcements served.2 = Some (Scenario.bulletin 6001)
     ∧ trace served.2 = [GetAnnouncements (ZncApi "access");
                         GetAnnouncements (ZncApi "access")]).
Proof.
  cbv zeta. split; [exact announcements_cache_behind_session |].
  repeat split; vm_compute; reflexivity.
Qed.

(** ** C9: proxy tokens and the per-user token sets *)

Lemma elem_of_Set_add (x y : string) (s : list string) :
  y ∈ Set_add x s ↔ y = x ∨ y ∈ s.
Proof.
  unfold Set_add. destruct (includes s x) eqn:Hin.
  - apply includes_elem_of in Hin. split; [auto |]. by intros [-> | ?].
  - rewrite elem_of_app, list_elem_of_singleton. tauto.
Qed.

Lemma elem_of_Set_new_acc (y : string) (l acc : list string) :
  y ∈ foldl (fun s x => Set_add x s) acc l ↔ y ∈ acc ∨ y ∈ l.
Proof.
  revert acc. induction l as [| x l IH]; intros acc; cbn [foldl].
  - rewrite elem_of_nil. tauto.
  - rewrite IH, elem_of_Set_add, elem_of_cons. tauto.
Qed.

Lemma elem_of_Set_new (y : string) (l : list string) : y ∈ Set_new l ↔ y ∈ l.
Proof. unfold Set_new. rewrite elem_of_Set_new_acc, elem_of_nil. tauto. Qed.

Lemma elem_of_Set_delete (x y : string) (s : list string) :
  y ∈ Set_delete x s ↔ y ≠ x ∧ y ∈ s.
Proof. unfold Set_delete. by rewrite list_elem_of_filter. Qed.

(** The two storage structures after a token was issued or revoked. *)
Lemma consistent_issue (w w' : World) (token : string) (auth : AuthToken) :
  storage w' = <[ZncProxyAuthPolicies (at_user auth) :=
                   VStrings (Set_add token (Set_new (tokens_of w (at_user auth))))]>
                 (<[ZncProxyAuthPolicy token := VAuthToken auth]> (storage w)) →
  policy_entry w' token = Some (VAuthToken auth)
  ∧ token ∈ tokens_of w' (at_user auth)
  ∧ (consistent w → policy_entry w token = None → consistent w').
Proof.
  intros Hst.
  assert (Hentry : ∀ t, policy_entry w' t
                        = if decide (t = token) then Some (VAuthToken auth)
                          else policy_entry w t).
  { intros t. unfold policy_entry. rewrite Hst.
    rewrite lookup_insert_ne by (intros H; symmetry in H; revert H;
                                 apply ZncProxyAuthPolicy_ZncProxyAuthPolicies).
    destruct (decide (t = token)) as [-> | Hne]; [apply lookup_insert_eq |].
    rewrite lookup_insert_ne; [done |]. intros H. by apply ZncProxyAuthPolicy_inj in H. }
  assert (Htokens : ∀ u, tokens_of w' u
                         = if decide (u = at_user auth)
                           then Set_add token (Set_new (tokens_of w u))
                           else tokens_of w u).
  { intros u. unfold tokens_of at 1. rewrite Hst.
    destruct (decide (u = at_user auth)) as [-> | Hne]; [by rewrite lookup_insert_eq |].
    rewrite lookup_insert_ne by (intros H; by apply ZncProxyAuthPolicies_inj in H).
    rewrite lookup_insert_ne by apply ZncProxyAuthPolicy_ZncProxyAuthPolicies. done. }
  split; [| split].
  - rewrite Hentry. by rewrite decide_True.
  - rewrite Htokens, decide_True by done. apply elem_of_Set_add. by left.
  - intros Hcons Hfresh t u. unfold consistent in Hcons. rewrite Hentry.
    assert (Hnowhere : ∀ u', token ∉ tokens_of w u').
    { intros u' Hin. apply Hcons in Hin. destruct Hin as (a & Ha & _). congruence. }
    rewrite Htokens.
    destruct (decide (t = token)) as [-> | Hne].
    + destruct (decide (u = at_user auth)) as [-> | Hu].
      * split; [by eauto |]. intros _. apply elem_of_Set_add. by left.
      * split; [intros Hin; by apply Hnowhere in Hin |].
        intros (a & ? & ?). simplify_eq.
    + rewrite <- Hcons.
      destruct (decide (u = at_user auth)) as [-> | Hu]; [| done].
      rewrite elem_of_Set_add, elem_of_Set_new. split; [by intros [? | ?] | auto].
Qed.

Lemma consistent_revoke (w w' : World) (token : string) (a : AuthToken) :
  policy_entry w token = Some (VAuthToken a) →
  storage w' = <[ZncProxyAuthPolicies (at_user a) :=
                   VStrings (Set_delete token (Set_new (tokens_of w (at_user a))))]>
                 (delete (ZncProxyAuthPolicy token) (storage w)) →
  policy_entry w' token = None
  ∧ (token ∉ tokens_of w' (at_user a))
  ∧ (consistent w → consistent w').
Proof.
  intros Hold Hst.
  assert (Hentry : ∀ t, policy_entry w' t
                        = if decide (t = token) then None else policy_entry w t).
  { intros t. unfold policy_entry. rewrite Hst.
    rewrite lookup_insert_ne by (intros H; symmetry in H; revert H;
                                 apply ZncProxyAuthPolicy_ZncProxyAuthPolicies).
    destruct (decide (t = token)) as [-> | Hne]; [apply lookup_delete_eq |].
    rewrite lookup_delete_ne; [done |]. intros H. by apply ZncProxyAuthPolicy_inj in H. }
  assert (Htokens : ∀ u, tokens_of w' u
                         = if decide (u = at_user a)
                           then Set_delete token (Set_new (tokens_of w u))
                           else tokens_of w u).
  { intros u. unfold tokens_of at 1. rewrite Hst.
    destruct (decide (u = at_user a)) as [-> | Hne]; [by rewrite lookup_insert_eq |].
    rewrite lookup_insert_ne by (intros H; by apply ZncProxyAuthPolicies_inj in H).
    rewrite lookup_delete_ne by apply ZncProxyAuthPolicy_ZncProxyAuthPolicies. done. }
  split; [| split].
  - rewrite Hentry. by rewrite decide_True.
  - rewrite Htokens, decide_True by done. rewrite elem_of_Set_delete. by intros [? _].
  - intros Hcons t u. unfold consistent in Hcons. rewrite Hentry, Htokens.
    destruct (decide (t = token)) as [-> | Hne].
    + split; [| by intros (? & ? & _)].
      destruct (decide (u = at_user a)) as [-> | Hu].
      * rewrite elem_of_Set_delete. by intros [? _].
      * intros Hin. apply Hcons in Hin. destruct Hin as (a' & Ha' & Hu').
        unfold policy_entry in *. congruence.
    + rewrite <- Hcons.
      destruct (decide (u = at_user a)) as [-> | Hu]; [| done].
      rewrite elem_of_Set_delete, elem_of_Set_new. tauto.
Qed.

Lemma session_effects_policies (w w' : World) :
  session_effects w w' →
  (∀ t, policy_entry w' t = policy_entry w t) ∧ (∀ u, tokens_of w' u = tokens_of w u).
Proof.
  intros Hs. split.
  - intros t. unfold policy_entry.
    apply session_effects_storage; [done | apply policy_key_not_session].
  - intros u. unfold tokens_of.
    by rewrite (session_effects_storage w w' _ Hs (policies_key_not_session u)).
Qed.

Lemma session_effects_consistent (w w' : World) :
  session_effects w w' → consistent w → consistent w'.
Proof.
  intros Hs Hcons t u. destruct (session_effects_policies w w' Hs) as [He Ht].
  rewrite He, Ht. apply Hcons.
Qed.

Section ProxyTokens.
Context (E : Env) (argv : Argv).

Lemma post_tokens_inv (req : Request) (w w' : World) (s : Step) (zauth : SavedToken) :
  zncAuth req = Some zauth →
  post_tokens E req w = (Returned s, w') →
  ∃ auth,
    s = End (json (CreatedBody (uuidgen E (entropy w)) auth))
    ∧ at_user auth = id (user zauth)
    ∧ policy auth = body_policy req
    ∧ storage w' = <[ZncProxyAuthPolicies (at_user auth) :=
                       VStrings (Set_add (uuidgen E (entropy w))
                                   (Set_new (tokens_of w (at_user auth))))]>
                     (<[ZncProxyAuthPolicy (uuidgen E (entropy w)) := VAuthToken auth]>
                        (storage w)).
Proof.
  intros Hauth. unfold post_tokens. rewrite run_bind. cbv [get_world].
  cbv zeta. rewrite run_bind. cbv [modify]. rewrite run_bind, Hauth. cbn [nonnull].
  cbv [mret M_ret ret]. rewrite run_bind. cbv [Date_now].
  rewrite run_bind, run_setItem. rewrite run_bind.
  unfold mbind at 1, M_bind, bind. rewrite run_getItem.
  cbn [storage with_storage with_entropy elapse clock].
  rewrite lookup_insert_ne
    by apply (ZncProxyAuthPolicy_ZncProxyAuthPolicies (uuidgen E (entropy w)) (id (user zauth))).
  intros Hrun. eexists {| at_user := id (user zauth) |}. cbn [at_user policy].
  unfold tokens_of, ZncProxyAuthPolicies, ZncProxyAuthPolicy.
  destruct (storage w !! ("ZncProxyAuthPolicies." +:+ id (user zauth))) as [[| | l |] |];
    cbn [as_strings ret throw] in Hrun; try discriminate;
    rewrite run_bind, run_setItem in Hrun; simplify_eq; done.
Qed.

Lemma delete_token_inv (req : Request) (w w' : World) (s : Step) (tok : string) (a : AuthToken) :
  zncAuthPolicyToken req = Some tok →
  zncAuthPolicyUser req = Some (at_user a) →
  delete_token req w = (Returned s, w') →
  s = End (json_status 403 (ErrorCode "no_policy")) ∧ truthy tok = false ∧ w' = w
  ∨ s = End {| statusCode := 204; content_type := None; body := NoBody |}
    ∧ storage w' = <[ZncProxyAuthPolicies (at_user a) :=
                       VStrings (Set_delete tok (Set_new (tokens_of w (at_user a))))]>
                     (delete (ZncProxyAuthPolicy tok) (storage w)).
Proof.
  intros Htok Huser. unfold delete_token. rewrite Htok, Huser.
  cbn [truthy_opt default from_option Datatypes.id].
  destruct (truthy tok); cbn [negb].
  2: { intros H. cbv [mret M_ret ret] in H. simplify_eq. by left. }
  cbv zeta. rewrite run_bind, run_removeItem. rewrite run_bind.
  unfold mbind at 1, M_bind, bind. rewrite run_getItem.
  cbn [storage with_storage elapse].
  rewrite lookup_delete_ne
    by apply (ZncProxyAuthPolicy_ZncProxyAuthPolicies tok (at_user a)).
  intros Hrun. right. unfold tokens_of, ZncProxyAuthPolicies, ZncProxyAuthPolicy.
  destruct (storage w !! ("ZncProxyAuthPolicies." +:+ at_user a)) as [[| | l |] |];
    cbn [as_strings ret throw] in Hrun; try discriminate;
    rewrite run_bind, run_setItem in Hrun; cbv [mret M_ret ret] in Hrun; simplify_eq; done.
Qed.

(** C9 (as amended). For a request served with no code of another
    request between its awaits: issuing a proxy token writes its entry
    under [ZncProxyAuthPolicy.<token>] and adds it to the owner's set
    under [ZncProxyAuthPolicies.<user>]; revoking removes the entry and
    takes the token out of that set.  So after either operation the
    token is in its user's set exactly when its entry exists; and when
    every token was recorded consistently before (and the generated uuid
    is new), every token is recorded consistently afterwards. *)
Theorem proxy_tokens_stay_consistent :
  (∀ req w res w',
     serve E argv POST_tokens req w = (Returned res, w') →
     statusCode res = 200 →
     ∃ auth,
       let token := uuidgen E (entropy w) in
       body res = CreatedBody token auth
       ∧ policy_entry w' token = Some (VAuthToken auth)
       ∧ token ∈ tokens_of w' (at_user auth)
       ∧ (token ∈ tokens_of w' (at_user auth) ↔ is_Some (policy_entry w' token))
       ∧ (consistent w → policy_entry w token = None → consistent w'))
  ∧ (∀ req w res w',
       incoming req →
       serve E argv DELETE_token req w = (Returned res, w') →
       statusCode res = 204 →
       ∃ token a,
         resolved w req = Some (token, a)
         ∧ policy_entry w' token = None
         ∧ (token ∉ tokens_of w' (at_user a))
         ∧ (token ∈ tokens_of w' (at_user a) ↔ is_Some (policy_entry w' token))
         ∧ (consistent w → consistent w')).
Proof.
  split.
  - intros req w res w' Hrun Hstatus. unfold serve, handlers in Hrun.
    apply run_cons_inv in Hrun.
    destruct Hrun as [(req1 & w1 & Hnso & Hrun) | [(res' & Hnso & ?) | (e & ? & ?)]];
      [| | discriminate].
    2: { apply nsoAuth_inv in Hnso. by destruct Hnso as [(? & ? & ?) | (? & ?)]; simplify_eq. }
    pose proof (nsoAuth_session_effects _ _ _ _ _ _ Hnso) as Hs.
    apply nsoAuth_inv in Hnso. destruct Hnso as [(nso & data & ?) | (? & ?)]; simplify_eq.
    apply run_cons_inv in Hrun.
    destruct Hrun as [(? & ? & Hpost & _) | [(res' & Hpost & ?) | (e & ? & ?)]];
      [| | discriminate].
    { eapply post_tokens_inv in Hpost; [| done]. destruct Hpost as (? & ? & _). discriminate. }
    eapply post_tokens_inv in Hpost; [| done].
    destruct Hpost as (auth & ? & Huser & _ & Hst). simplify_eq.
    destruct (session_effects_caches _ _ Hs) as (_ & _ & _ & Hentropy).
    rewrite Hentropy in *.
    destruct (consistent_issue w1 w' (uuidgen E (entropy w)) auth Hst)
      as (Hentry & Hin & Hcons).
    exists auth. cbv zeta. split; [done |]. split; [done |]. split; [done |].
    split; [by rewrite Hentry |].
    intros Hc Hfresh. apply Hcons; [by eapply session_effects_consistent |].
    by rewrite (proj1 (session_effects_policies _ _ Hs)).
  - intros req w res w' (_ & _ & _ & _ & Hfresh) Hrun Hstatus.
    unfold serve, handlers in Hrun. apply run_cons_inv in Hrun.
    destruct Hrun as [(req1 & w1 & Hauth & Hrun) | [(res' & Hauth & ?) | (e & ? & ?)]];
      [| | discriminate].
    2: { apply authToken_inv in Hauth. destruct Hauth as [? | (? & ? & _)]; discriminate. }
    assert (Hno : ∀ w0 s w0', delete_token req w0 = (Returned s, w0') →
                              s = End (json_status 403 (ErrorCode "no_policy"))).
    { intros w0 s w0'. unfold delete_token. rewrite Hfresh. cbn [truthy_opt negb].
      intros H. cbv [mret M_ret ret] in H. by simplify_eq. }
    apply run_cons_inv in Hrun.
    destruct Hrun as [(req2 & w2 & Hdel & _) | [(res' & Hdel & ?) | (e & ? & ?)]];
      [| | discriminate]; simplify_eq.
    { rewrite authToken_run in Hauth.
      destruct (presented_token req) as [tok |];
        [destruct (storage w !! ZncProxyAuthPolicy tok) as [[| | | a] |] |];
        simplify_eq; try (by apply Hno in Hdel).
      eapply delete_token_inv in Hdel; [| done | done].
      by destruct Hdel as [(? & _) | (? & _)]. }
    rewrite authToken_run in Hauth. unfold resolved.
    destruct (presented_token req) as [tok |];
      [destruct (storage w !! ZncProxyAuthPolicy tok) as [[| | | a] |] eqn:Hentry |];
      simplify_eq; try (apply Hno in Hdel; by simplify_eq).
    eapply delete_token_inv in Hdel; [| done | done].
    destruct Hdel as [(? & _) | (? & Hst)]; [by simplify_eq |].
    destruct (consistent_revoke w w' tok a Hentry Hst) as (Hgone & Hout & Hcons).
    exists tok, a. split; [done |]. split; [done |]. split; [done |].
    split; [| done]. rewrite Hgone. split; [done |]. by intros [? ?].
Qed.

End ProxyTokens.

Lemma consistent_empty (w : World) : storage w = ∅ → consistent w.
Proof.
  intros Hst t u. unfold tokens_of, policy_entry. rewrite Hst, !lookup_empty.
  rewrite elem_of_nil. split; [done | by intros (? & ? & _)].
Qed.

Lemma incoming_http (h : option string) : incoming (Example.http h).
Proof. by repeat split. Defined.

(** A token is issued to Alice in an empty store and then revoked. *)
Lemma proxy_tokens_stay_consistent_witness :
  let w0 := Example.world ∅ 6000 1 in
  let issue := serve Example.env Example.argv POST_tokens (Example.http (Some "na alice")) w0 in
  let revoke := serve Example.env Example.argv DELETE_token
                  (Example.http (Some "Bearer uuid-0")) issue.2 in
  issue.1 = Returned (json (CreatedBody "uuid-0" Example.issued))
  ∧ "uuid-0" ∈ tokens_of issue.2 "a1"
  ∧ policy_entry issue.2 "uuid-0" = Some (VAuthToken Example.issued)
  ∧ consistent issue.2
  ∧ revoke.1 = Returned {| statusCode := 204; content_type := None; body := NoBody |}
  ∧ ("uuid-0" ∉ tokens_of revoke.2 "a1")
  ∧ policy_entry revoke.2 "uuid-0" = None
  ∧ consistent revoke.2.
Proof.
  cbv zeta.
  set (w0 := Example.world ∅ 6000 1).
  set (issue := serve Example.env Example.argv POST_tokens (Example.http (Some "na alice")) w0).
  set (revoke := serve Example.env Example.argv DELETE_token
                   (Example.http (Some "Bearer uuid-0")) issue.2).
  destruct (proxy_tokens_stay_consistent Example.env Example.argv) as [Hissue Hrevoke].
  assert (Hrun1 : issue = (Returned (json (CreatedBody "uuid-0" Example.issued)), issue.2))
    by (vm_compute; reflexivity).
  assert (Hfresh : policy_entry w0 "uuid-0" = None) by (vm_compute; reflexivity).
  destruct (Hissue _ _ _ _ Hrun1 eq_refl) as (auth & Hbody & Hentry & Hin & _ & Hcons).
  change (uuidgen Example.env (entropy w0)) with "uuid-0" in Hbody, Hentry, Hin, Hcons.
  cbn [body json] in Hbody. injection Hbody as <-.
  specialize (Hcons (consistent_empty w0 eq_refl) Hfresh).
  assert (Hrun2 : revoke = (Returned {| statusCode := 204; content_type := None;
                                        body := NoBody |}, revoke.2))
    by (vm_compute; reflexivity).
  assert (Hres' : resolved issue.2 (Example.http (Some "Bearer uuid-0"))
                  = Some ("uuid-0", Example.issued))
    by (vm_compute; reflexivity).
  destruct (Hrevoke _ _ _ _ (incoming_http _) Hrun2 eq_refl)
    as (tok & a & Hres & Hgone & Hout & _ & Hcons2).
  rewrite Hres' in Hres. injection Hres as <- <-.
  split; [by rewrite Hrun1 |]. split; [exact Hin |]. split; [exact Hentry |].
  split; [exact Hcons |]. split; [by rewrite Hrun2 |].
  split; [exact Hout |]. split; [exact Hgone |]. exact (Hcons2 Hcons).
Defined.

(** The claim as stated fails when requests overlap.  Two requests to
    which [nsoAuth] has attached Alice's session issue a token each, and
    their handlers run turn by turn at their awaits: both answer 200 and
    both entries are written, but each handler read the set before the
    other wrote it, and the set written last holds one token only.  The
    first token has an entry and is not in the set of its user.  Served
    one after the other, the same two requests leave both tokens in the
    set. *)
Lemma overlapping_issues_lose_a_token :
  let w := Example.world ∅ 6000 1 in
  let issue := Running (post_tokens_task Example.env Scenario.session_request) in
  let served := interleaved [0; 1; 0; 1; 0; 1; 0; 1]%nat [issue; issue] w in
  consistent w
  ∧ served.1 = [Settled (Returned (End (json (CreatedBody "uuid-0" Example.issued))));
                Settled (Returned (End (json (CreatedBody "uuid-1" Example.issued))))]
  ∧ policy_entry served.2 "uuid-0" = Some (VAuthToken Example.issued)
  ∧ tokens_of served.2 "a1" = ["uuid-1"]
  ∧ ¬ ("uuid-0" ∈ tokens_of served.2 "a1" ↔ is_Some (policy_entry served.2 "uuid-0"))
  ∧ ¬ consistent served.2
  ∧ tokens_of (interleaved [0; 0; 0; 0; 1; 1; 1; 1]%nat [issue; issue] w).2 "a1"
    = ["uuid-0"; "uuid-1"].
Proof.
  cbv zeta.
  set (served := interleaved _ _ _).
  assert (Hentry : policy_entry served.2 "uuid-0" = Some (VAuthToken Example.issued))
    by (vm_compute; reflexivity).
  assert (Hset : tokens_of served.2 "a1" = ["uuid-1"]) by (vm_compute; reflexivity).
  assert (Hout : "uuid-0" ∉ tokens_of served.2 "a1").
  { rewrite Hset. intros Hin. apply list_elem_of_singleton in Hin. discriminate. }
  split; [by apply consistent_empty |].
  split; [vm_compute; reflexivity |].
  split; [exact Hentry |]. split; [exact Hset |].
  split; [| split].
  - intros [_ Hiff]. apply Hout, Hiff. by rewrite Hentry.
  - intros Hcons. apply Hout. apply Hcons. by exists Example.issued.
  - vm_compute. reflexivity.
Qed.

(** ** C6: statuses of the error responses *)

Lemma returns_ret {A} (Q : A → Prop) (a : A) : Q a → returns Q (mret a).
Proof. intros HQ w a' w' H. cbv in H. by simplify_eq. Qed.

Lemma returns_throw {A} (Q : A → Prop) (e : Error) : returns Q (throw e).
Proof. intros w a' w' H. cbv in H. by simplify_eq. Qed.

Lemma returns_bind {A B} (Q : B → Prop) (m : M A) (k : A → M B) :
  (∀ a, returns Q (k a)) → returns Q (m ≫= k).
Proof.
  intros Hk w b w'. rewrite run_bind. destruct (m w) as [[a | e] w1]; [| done].
  apply Hk.
Qed.

Lemma returns_bind_post {A B} (P : A → Prop) (Q : B → Prop) (m : M A) (k : A → M B) :
  returns P m → (∀ a, P a → returns Q (k a)) → returns Q (m ≫= k).
Proof.
  intros Hm Hk w b w'. rewrite run_bind. destruct (m w) as [[a | e] w1] eqn:Hrun; [| done].
  apply Hk. by eapply Hm.
Qed.

Lemma returns_try_catch {A} (Q : A → Prop) (m : M A) (h : Error → M A) :
  returns Q m → (∀ e, returns Q (h e)) → returns Q (try_catch m h).
Proof.
  intros Hm Hh w a w'. unfold try_catch. destruct (m w) as [[a' | e] w1] eqn:Hrun.
  - intros H. simplify_eq. by eapply Hm.
  - apply Hh.
Qed.

Ltac post_step :=
  first
    [ apply returns_throw
    | apply returns_try_catch; [| intros ?]
    | apply returns_bind; intros ?
    | match goal with
      | |- returns _ (if ?b then _ else _) => destruct b
      | |- returns _ (match ?x with _ => _ end) => destruct x
      | |- returns _ (let _ := _ in _) => cbv zeta
      end ].

Ltac post := repeat post_step; try apply returns_ret.

Lemma shape_ok (b : Body) : ¬ is_error_body b → response_shape (json b).
Proof. intros Hb. left. by split. Qed.

Lemma shape_500 (err : Error) : response_shape (json_status 500 (ErrorThrown err)).
Proof. do 5 right. by exists err. Qed.

Lemma shape_denied : response_shape tokenUnauthorised.
Proof. right. right. by left. Qed.

Lemma shape_no_policy : response_shape (json_status 403 (ErrorCode "no_policy")).
Proof. do 3 right. by left. Qed.

Lemma shape_not_found : response_shape not_found.
Proof. do 4 right. by left. Qed.

Lemma shape_no_content :
  response_shape {| statusCode := 204; content_type := None; body := NoBody |}.
Proof. right. by left. Qed.

Create HintDb shapes discriminated.
#[export] Hint Resolve shape_500 shape_denied shape_no_policy shape_not_found
  shape_no_content : shapes.
#[export] Hint Extern 2 (response_shape (json _)) => (apply shape_ok; cbn; tauto) : shapes.
#[export] Hint Extern 1 (step_shape _) => (cbn [step_shape]; auto with shapes) : shapes.
#[export] Hint Extern 1 (final_shape _) => (cbn [final_shape]; auto with shapes) : shapes.

Section Shapes.
Context (E : Env) (argv : Argv).

Lemma run_shape_last (last : Middleware) :
  (∀ req, returns final_shape (last req)) →
  ∀ req, returns response_shape (run [last] req).
Proof.
  intros Hlast req. cbn [run]. apply (returns_bind_post final_shape); [apply Hlast |].
  intros [req' | res] Hs; [destruct Hs | by apply returns_ret].
Qed.

Lemma run_shape_cons (m : Middleware) (chain : list Middleware) :
  (∀ req, returns step_shape (m req)) →
  (∀ req, returns response_shape (run chain req)) →
  ∀ req, returns response_shape (run (m :: chain) req).
Proof.
  intros Hm Hchain req. cbn [run]. apply (returns_bind_post step_shape); [apply Hm |].
  intros [req' | res] Hs; [apply Hchain | by apply returns_ret].
Qed.

Lemma authToken_shape (req : Request) : returns step_shape (authToken req).
Proof. unfold authToken. post; auto with shapes. Qed.

Lemma gate_shape (allowed : AuthPolicy → Request → bool) (req : Request) :
  returns step_shape (gate allowed req).
Proof. unfold gate. post; auto with shapes. Qed.

Lemma localAuth_shape (req : Request) : returns step_shape (localAuth argv req).
Proof. unfold localAuth. post; auto with shapes. Qed.

Lemma nsoAuth_shape (req : Request) : returns step_shape (nsoAuth E argv req).
Proof. unfold nsoAuth. post; auto with shapes. Qed.

Lemma getAppData_shape (req : Request) : returns step_shape (getAppData E argv req).
Proof. unfold getAppData. post; auto with shapes. Qed.

Lemma getUserData_shape (req : Request) : returns step_shape (getUserData E argv req).
Proof. unfold getUserData. post; auto with shapes. Qed.

(** Every response the proxy sends is a success, a 204, or one of the
    four error responses. *)
Lemma serve_shape (r : Route) (req : Request) :
  returns response_shape (serve E argv r req).
Proof.
  revert req. unfold serve.
  destruct r; cbn [handlers];
    repeat first
      [ apply run_shape_last
      | apply run_shape_cons;
        [ intros req';
          first [apply authToken_shape | apply gate_shape | apply localAuth_shape
                | apply nsoAuth_shape | apply getAppData_shape | apply getUserData_shape] |] ].
  all: intros req';
    unfold get_auth, get_token, delete_token, get_tokens, post_tokens, get_announcements,
      get_friends, get_friends_presence, get_friend, get_friend_presence, get_webservices,
      get_webservice_token, get_activeevent, get_user, get_user_presence, appdata, userdata;
    post; auto with shapes.
Qed.

(** *** 403: the policy of the proxy token *)

Lemma policy_check_handlers (r : Route) (allowed : AuthPolicy → Request → bool) :
  policy_check r = Some allowed →
  ∃ rest, handlers E argv r = authToken :: gate allowed :: rest.
Proof. destruct r; intros H; cbn in H; simplify_eq; cbn [handlers]; by eexists. Qed.

Lemma policy_check_params (r : Route) (allowed : AuthPolicy → Request → bool)
    (p : AuthPolicy) (req req' : Request) :
  policy_check r = Some allowed →
  params_nsaid req = params_nsaid req' →
  allowed p req = allowed p req'.
Proof.
  destruct r; intros H Hn; cbn in H; simplify_eq;
    unfold allow_announcements, allow_list_friends, allow_list_friends_presence,
      allow_friend, allow_friend_presence, allow_webservices, allow_activeevent,
      allow_current_user, allow_current_user_presence;
    by rewrite ?Hn.
Qed.

Lemma serve_denied (r : Route) (allowed : AuthPolicy → Request → bool)
    (req : Request) (w : World) (tok : string) (a : AuthToken) (p : AuthPolicy) :
  policy_check r = Some allowed →
  resolved w req = Some (tok, a) →
  policy a = Some p →
  allowed p req = false →
  serve E argv r req w = (Returned tokenUnauthorised, elapse w).
Proof.
  intros Hr Hres Hpol Hdeny. unfold serve.
  destruct (policy_check_handlers r allowed Hr) as [rest ->].
  unfold resolved in Hres.
  destruct (presented_token req) as [tok' |] eqn:Htok; [| discriminate].
  destruct (storage w !! ZncProxyAuthPolicy tok') as [[| | | a'] |] eqn:Hget;
    try discriminate. simplify_eq.
  rewrite (run_next authToken _ req (set_policy a tok req) w (elapse w))
    by by rewrite authToken_run, Htok, Hget.
  apply run_end. rewrite gate_run. cbn [zncAuthPolicy set_policy]. rewrite Hpol.
  by rewrite <- (policy_check_params r allowed p req (set_policy a tok req) Hr eq_refl), Hdeny.
Qed.

Lemma serve_no_policy (r : Route) (req : Request) (w w' : World) (res : Response) :
  r = GET_token ∨ r = DELETE_token →
  incoming req →
  resolved w req = None →
  serve E argv r req w = (Returned res, w') →
  res = json_status 403 (ErrorCode "no_policy").
Proof.
  intros Hr (_ & _ & _ & _ & Hfresh) Hres Hrun.
  assert (Hauth : ∀ out w1, authToken req w = (out, w1) →
                            out = Thrown TypeError ∨ out = Returned (Next req)).
  { intros out w1 H. apply authToken_inv in H.
    destruct H as [? | (req1 & ? & _ & _ & [[? _] | (? & ? & _ & ?)])]; simplify_eq; auto. }
  unfold serve in Hrun. destruct Hr as [-> | ->]; cbn [handlers] in Hrun;
    apply run_cons_inv in Hrun;
    destruct Hrun as [(req1 & w1 & H1 & Hrun) | [(res' & H1 & ?) | (e & ? & ?)]];
    try discriminate;
    try (apply Hauth in H1; destruct H1; discriminate);
    apply Hauth in H1; destruct H1 as [? | ?]; simplify_eq;
    apply run_cons_inv in Hrun;
    destruct Hrun as [(req2 & w2 & H2 & _) | [(res' & H2 & ?) | (e & ? & ?)]];
    try discriminate.
  all: unfold get_token, delete_token in H2; rewrite Hfresh in H2;
    cbn [truthy_opt negb] in H2; cbv [mret M_ret ret] in H2; by simplify_eq.
Qed.

(** *** 500: the session and the upstream services *)

Lemma nsoAuth_unauthenticated (req : Request) (w : World) :
  truthy_opt (zncAuthPolicyUser req) = false →
  match authorization req with
  | Some h => truthy h && startsWith h "na " = false
  | None => True
  end →
  nsoAuth E argv req w =
    (Returned (End (json_status 500
                      (ErrorThrown (mkError "Requires Nintendo Account authentication")))), w).
Proof.
  intros Huser Hauth. unfold nsoAuth, try_catch. rewrite run_bind, Huser.
  destruct (authorization req) as [h |]; [| done].
  destruct (truthy h), (startsWith h "na "); try discriminate; done.
Qed.

Lemma nsoAuth_token_rejected (req : Request) (w w1 : World) (h : string) (e : Error) :
  truthy_opt (zncAuthPolicyUser req) = false →
  authorization req = Some h →
  truthy h = true → startsWith h "na " = true →
  Util.getToken E (substr 3 h) (zncProxyUrl argv) w = (Thrown e, w1) →
  nsoAuth E argv req w = (Returned (End (json_status 500 (ErrorThrown e))), w1).
Proof.
  intros Huser Hauth Ht Hs Hget. unfold nsoAuth, try_catch.
  rewrite run_bind, Huser, Hauth, Ht, Hs. cbn [negb orb]. cbv [mret M_ret ret].
  rewrite run_bind, Hget. done.
Qed.

Lemma getAppData_fetch (req : Request) (w : World) (auth : SavedToken) (nso : Nso) :
  zncAuth req = Some auth →
  znc req = Some nso →
  appdata_stale argv w auth →
  let w1 := elapse (with_trace (GetFriendList nso) w) in
  let w2 := elapse (with_trace (GetWebServices nso) w1) in
  let w3 := elapse (with_trace (GetActiveEvent nso) w2) in
  getAppData E argv req w =
    match getFriendList E nso (clock w) (trace w) with
    | inl err => (Returned (End (json_status 500 (ErrorThrown err))), w1)
    | inr friends' =>
      match getWebServices E nso (clock w1) (trace w1) with
      | inl err => (Returned (End (json_status 500 (ErrorThrown err))), w2)
      | inr webservices' =>
        match getActiveEvent E nso (clock w2) (trace w2) with
        | inl err => (Returned (End (json_status 500 (ErrorThrown err))), w3)
        | inr activeevent' =>
          (Returned (Next req),
           with_appdata (insert (id (user auth))
                           (friends', webservices', activeevent', clock w3)) w3)
        end
      end
    end.
Proof.
  intros Hauth Hznc Hstale. unfold appdata_stale in Hstale. cbv zeta. unfold getAppData.
  rewrite run_bind, Hauth. cbn [nonnull]. cbv [mret M_ret ret].
  rewrite run_bind. cbv [get_world]. rewrite run_bind. cbv [Date_now].
  replace (match cached_appdata w !! id (user auth) with
           | Some (_, _, _, updated) => clock w <? updated + updateInterval argv
           | None => false
           end) with false.
  2: { destruct (cached_appdata w !! id (user auth)) as [[[[? ?] ?] upd] |]; [| done].
       symmetry. apply Z.ltb_ge. exact Hstale. }
  unfold try_catch. rewrite run_bind, Hznc. cbn [nonnull]. cbv [ret].
  rewrite run_bind, run_request.
  destruct (getFriendList E nso _ _) as [err | fs]; [done |].
  rewrite run_bind, run_request.
  destruct (getWebServices E nso _ _) as [err | ws]; [done |].
  rewrite run_bind, run_request.
  destruct (getActiveEvent E nso _ _) as [err | ae]; [done |].
  reflexivity.
Qed.

Lemma getUserData_fetch (req : Request) (w : World) (auth : SavedToken) (nso : Nso) :
  zncAuth req = Some auth →
  znc req = Some nso →
  userdata_stale argv w auth →
  let w1 := elapse (with_trace (GetCurrentUser nso) w) in
  getUserData E argv req w =
    match getCurrentUser E nso (clock w) (trace w) with
    | inl err => (Returned (End (json_status 500 (ErrorThrown err))), w1)
    | inr user' =>
      (Returned (Next req), with_userdata (insert (id (user auth)) (user', clock w1)) w1)
    end.
Proof.
  intros Hauth Hznc Hstale. unfold userdata_stale in Hstale. cbv zeta. unfold getUserData.
  rewrite run_bind, Hauth. cbn [nonnull]. cbv [mret M_ret ret].
  rewrite run_bind. cbv [get_world]. rewrite run_bind. cbv [Date_now].
  replace (match cached_userdata w !! id (user auth) with
           | Some (_, updated) => clock w <? updated + updateInterval argv
           | None => false
           end) with false.
  2: { destruct (cached_userdata w !! id (user auth)) as [[? upd] |]; [| done].
       symmetry. apply Z.ltb_ge. exact Hstale. }
  unfold try_catch. rewrite run_bind, Hznc. cbn [nonnull]. cbv [ret].
  rewrite run_bind, run_request.
  destruct (getCurrentUser E nso _ _) as [err | u]; [done |].
  reflexivity.
Qed.

Lemma get_webservice_token_fetch (req : Request) (w : World) (nso : Nso) :
  znc req = Some nso →
  let c := GetWebServiceToken nso (params_id req) in
  get_webservice_token E req w =
    match getWebServiceToken E nso (params_id req) (clock w) (trace w) with
    | inl err => (Returned (End (json_status 500 (ErrorThrown err))), elapse (with_trace c w))
    | inr token => (Returned (End (json (WebServiceTokenBody token))), elapse (with_trace c w))
    end.
Proof.
  intros Hznc. cbv zeta. unfold get_webservice_token, try_catch.
  rewrite run_bind, Hznc. cbn [nonnull]. cbv [mret M_ret ret].
  rewrite run_bind, run_request.
  by destruct (getWebServiceToken E nso _ _ _).
Qed.

(** *** 404: a friend that is not in the cached list *)

Lemma find_friend_none (fs : list Friend) (nsaid : string) :
  (∀ f, f ∈ fs → nsaId f ≠ nsaid) →
  List.find (fun f => String.eqb (nsaId f) nsaid) fs = None.
Proof.
  induction fs as [| f fs IH]; intros Hall; cbn [List.find]; [done |].
  destruct (String.eqb_spec (nsaId f) nsaid) as [Heq | _].
  - exfalso. by apply (Hall f); [left |].
  - apply IH. intros f' Hin. apply Hall. by right.
Qed.

Lemma appdata_run (req : Request) (w : World) (auth : SavedToken) (d : AppData) :
  zncAuth req = Some auth →
  cached_appdata w !! id (user auth) = Some d →
  appdata req w = (Returned d, w).
Proof.
  intros Hauth Hcache. unfold appdata. rewrite run_bind, Hauth. cbn [nonnull].
  cbv [mret M_ret ret]. rewrite run_bind. cbv [get_world]. by rewrite Hcache.
Qed.

Lemma friend_missing (req : Request) (w : World) (auth : SavedToken)
    (fs : list Friend) (ws : list WebService) (ae : ActiveEvent) (upd : Z) :
  zncAuth req = Some auth →
  cached_appdata w !! id (user auth) = Some (fs, ws, ae, upd) →
  (∀ f, f ∈ fs → nsaId f ≠ params_nsaid req) →
  get_friend req w = (Returned (End not_found), w)
  ∧ get_friend_presence req w = (Returned (End not_found), w).
Proof.
  intros Hauth Hcache Hmissing.
  unfold get_friend, get_friend_presence.
  rewrite !run_bind, (appdata_run req w auth _ Hauth Hcache).
  by rewrite (find_friend_none fs _ Hmissing).
Qed.

End Shapes.

(** C6 (as amended). The error responses of the proxy and their causes.
    Every response is a success, a 204, or one of four JSON errors
    (403 [token_unauthorised], 403 [no_policy], 404 [not_found], 500
    with the thrown error).  A request denied by the policy of its
    resolved proxy token is answered 403 [token_unauthorised]; a request
    to the token endpoint without a resolved proxy token is answered 403
    [no_policy].  Whatever is thrown while [nsoAuth] resolves the
    session, a rejected session token included, is answered 500 with
    that error, and so is every failed upstream fetch (announcements,
    friend list, web services, active event, current user, web service
    token).  A friend that is not in the cached list is answered 404
    [not_found]. *)
Theorem proxy_error_statuses (E : Env) (argv : Argv) :
  (∀ r req w res w',
     serve E argv r req w = (Returned res, w') → response_shape res)
  ∧ (∀ r allowed req w tok a p,
       policy_check r = Some allowed →
       resolved w req = Some (tok, a) → policy a = Some p →
       allowed p req = false →
       serve E argv r req w = (Returned tokenUnauthorised, elapse w))
  ∧ (∀ r req w res w',
       r = GET_token ∨ r = DELETE_token →
       incoming req → resolved w req = None →
       serve E argv r req w = (Returned res, w') →
       res = no_policy)
  ∧ (∀ req w out w',
       nsoAuth E argv req w = (out, w') →
       (∃ nso data, out = Returned (Next (set_znc nso data req)))
       ∨ ∃ err, out = Returned (End (json_status 500 (ErrorThrown err))))
  ∧ (∀ req w h e w1,
       truthy_opt (zncAuthPolicyUser req) = false →
       authorization req = Some h → truthy h = true → startsWith h "na " = true →
       Util.getToken E (substr 3 h) (zncProxyUrl argv) w = (Thrown e, w1) →
       nsoAuth E argv req w = (Returned (End (json_status 500 (ErrorThrown e))), w1))
  ∧ (∀ req w nso err,
       cached_announcements w = None → znc req = Some nso →
       getAnnouncements E nso (clock w) (trace w) = inl err →
       ∃ w', get_announcements E req w
             = (Returned (End (json_status 500 (ErrorThrown err))), w'))
  ∧ (∀ req w auth nso err,
       zncAuth req = Some auth → znc req = Some nso → appdata_stale argv w auth →
       appdata_fetch_fails E nso w err →
       ∃ w', getAppData E argv req w
             = (Returned (End (json_status 500 (ErrorThrown err))), w'))
  ∧ (∀ req w auth nso err,
       zncAuth req = Some auth → znc req = Some nso → userdata_stale argv w auth →
       getCurrentUser E nso (clock w) (trace w) = inl err →
       ∃ w', getUserData E argv req w
             = (Returned (End (json_status 500 (ErrorThrown err))), w'))
  ∧ (∀ req w nso err,
       znc req = Some nso →
       getWebServiceToken E nso (params_id req) (clock w) (trace w) = inl err →
       ∃ w', get_webservice_token E req w
             = (Returned (End (json_status 500 (ErrorThrown err))), w'))
  ∧ (∀ req w auth fs ws ae upd,
       zncAuth req = Some auth →
       cached_appdata w !! id (user auth) = Some (fs, ws, ae, upd) →
       (∀ f, f ∈ fs → nsaId f ≠ params_nsaid req) →
       get_friend req w = (Returned (End not_found), w)
       ∧ get_friend_presence req w = (Returned (End not_found), w)).
Proof.
  repeat apply conj.
  - intros r req w res w'. apply serve_shape.
  - apply serve_denied.
  - intros r req w res w'. apply serve_no_policy.
  - intros req w out w'. apply nsoAuth_inv.
  - intros req w h e w1. apply nsoAuth_token_rejected.
  - intros req w nso err Hnone Hznc Hfail.
    rewrite (get_announcements_first E req w nso Hnone Hznc), Hfail. by eexists.
  - intros req w auth nso err Hauth Hznc Hstale Hfail.
    rewrite (getAppData_fetch E argv req w auth nso Hauth Hznc Hstale).
    unfold appdata_fetch_fails in Hfail. cbv zeta in Hfail.
    destruct Hfail as [-> | [[fs ->] [-> | [[ws ->] ->]]]]; by eexists.
  - intros req w auth nso err Hauth Hznc Hstale Hfail.
    rewrite (getUserData_fetch E argv req w auth nso Hauth Hznc Hstale), Hfail. by eexists.
  - intros req w nso err Hznc Hfail.
    rewrite (get_webservice_token_fetch E req w nso Hznc), Hfail. by eexists.
  - apply friend_missing.
Qed.

(** The claim as stated fails for the token failures that [nsoAuth]
    catches: a session token issued to another client (an [InvalidToken]
    error) and a proxy token that the store does not know are both
    answered with status 500, not 403. *)
Lemma token_failures_answered_500 :
  let w := Example.world ∅ 6000 1 in
  let invalid := mkError "Invalid Nintendo Account session token audience" in
  let unauthenticated := mkError "Requires Nintendo Account authentication" in
  InvalidToken invalid
  ∧ serve Example.env Example.argv GET_friends (Example.http (Some "na other")) w
    = (Returned (json_status 500 (ErrorThrown invalid)), w)
  ∧ resolved w (Example.http (Some "Bearer revoked")) = None
  ∧ serve Example.env Example.argv GET_friends (Example.http (Some "Bearer revoked")) w
    = (Returned (json_status 500 (ErrorThrown unauthenticated)), elapse w)
  ∧ statusCode (json_status 500 (ErrorThrown invalid)) ≠ 403.
Proof.
  cbv zeta. split; [| split; [| split; [| split]]].
  - unfold InvalidToken. cbn [message]. rewrite !elem_of_cons. tauto.
  - vm_compute. reflexivity.
  - vm_compute. reflexivity.
  - vm_compute. reflexivity.
  - discriminate.
Qed.

(** A denied request, a failed fetch and a missing friend. *)
Lemma proxy_error_statuses_witness :
  let w := Example.world Example.proxy_store 6000 1 in
  let bearer := Example.http (Some "Bearer pt") in
  let session := set_znc (ZncApi "access") (Example.saved 3606002) (Example.http None) in
  resolved w bearer = Some ("pt", Example.proxy_token)
  ∧ serve Example.env Example.argv GET_announcements bearer w
    = (Returned tokenUnauthorised, elapse w)
  ∧ statusCode tokenUnauthorised = 403
  ∧ (∃ w', getAppData Example.env_down Example.argv session w
           = (Returned (End (json_status 500 (ErrorThrown Example.down))), w'))
  ∧ response_shape (json_status 500 (ErrorThrown Example.down)).
Proof.
  cbv zeta.
  destruct (proxy_error_statuses Example.env Example.argv)
    as (_ & Hdenied & _).
  destruct (proxy_error_statuses Example.env_down Example.argv)
    as (Hshape & _ & _ & _ & _ & _ & Happ & _).
  assert (Hres : resolved (Example.world Example.proxy_store 6000 1)
                   (Example.http (Some "Bearer pt")) = Some ("pt", Example.proxy_token))
    by (vm_compute; reflexivity).
  split; [exact Hres |]. split.
  { apply (Hdenied GET_announcements allow_announcements _ _ "pt" Example.proxy_token
             Example.only_b eq_refl Hres eq_refl eq_refl). }
  split; [reflexivity |]. split.
  { apply (Happ (set_znc (ZncApi "access") (Example.saved 3606002) (Example.http None))
             (Example.world Example.proxy_store 6000 1)
             (Example.saved 3606002) (ZncApi "access") Example.down eq_refl eq_refl).
    - unfold appdata_stale. by vm_compute.
    - left. reflexivity. }
  do 5 right. by eexists.
Defined.

(** * Further properties *)

(** ** The per-user caches of the proxy *)

Section AppDataCache.
Context (E : Env) (argv : Argv).

(** Cached application data is reused while the clock is strictly
    before [updated + updateInterval]: nothing is fetched and nothing
    changes. *)
Lemma getAppData_reuses_cache (req : Request) (w : World) (auth : SavedToken)
    (fs : list Friend) (ws : list WebService) (ae : ActiveEvent) (upd : Z) :
  zncAuth req = Some auth →
  cached_appdata w !! id (user auth) = Some (fs, ws, ae, upd) →
  clock w < upd + updateInterval argv →
  getAppData E argv req w = (Returned (Next req), w).
Proof.
  intros Hauth Hcache Hlive. unfold getAppData.
  rewrite run_bind, Hauth. cbn [nonnull]. cbv [mret M_ret ret].
  rewrite run_bind. cbv [get_world]. rewrite run_bind. cbv [Date_now].
  rewrite Hcache. apply Z.ltb_lt in Hlive. by rewrite Hlive.
Qed.

(** X1. The window of the application-data cache.  With data cached at
    [upd] for the user of the session, a request strictly before
    [upd + updateInterval] passes on with the world untouched; from
    [upd + updateInterval] on, the friend list is requested again. *)
Theorem getAppData_cache_window (req : Request) (w : World) (auth : SavedToken) (nso : Nso)
    (fs : list Friend) (ws : list WebService) (ae : ActiveEvent) (upd : Z) :
  zncAuth req = Some auth →
  znc req = Some nso →
  cached_appdata w !! id (user auth) = Some (fs, ws, ae, upd) →
  (clock w < upd + updateInterval argv →
     getAppData E argv req w = (Returned (Next req), w))
  ∧ (upd + updateInterval argv <= clock w →
       ∃ out w' rest, getAppData E argv req w = (out, w')
                      ∧ trace w' = (trace w ++ GetFriendList nso :: rest)%list).
Proof.
  intros Hauth Hznc Hcache. split.
  - intros Hlive. by eapply getAppData_reuses_cache.
  - intros Hstale.
    assert (Hs : appdata_stale argv w auth) by (unfold appdata_stale; by rewrite Hcache).
    rewrite (getAppData_fetch E argv req w auth nso Hauth Hznc Hs).
    destruct (getFriendList E nso _ _) as [err | fs'].
    { eexists _, _, []. split; [reflexivity |]. reflexivity. }
    destruct (getWebServices E nso _ _) as [err | ws'].
    { eexists _, _, [_]. split; [reflexivity |]. cbn. by rewrite <- app_assoc. }
    destruct (getActiveEvent E nso _ _) as [err | ae'].
    { eexists _, _, [_; _]. split; [reflexivity |]. cbn. by rewrite <- !app_assoc. }
    eexists _, _, [_; _]. split; [reflexivity |]. cbn. by rewrite <- !app_assoc.
Qed.

(** X2. A successful refresh sends the three requests in order and
    stores, for the user of the session, the friend list, the web
    services and the active event it was answered, each answer being
    the service's at the clock and request log of its own request,
    stamped with the clock at completion; it leaves the entries of all
    other users, the announcements cache and the store as they were. *)
Theorem getAppData_refresh (req : Request) (w : World) (auth : SavedToken) (nso : Nso)
    (out : Outcome Step) (w' : World) :
  zncAuth req = Some auth →
  znc req = Some nso →
  appdata_stale argv w auth →
  getAppData E argv req w = (out, w') →
  out = Returned (Next req) →
  let w1 := elapse (with_trace (GetFriendList nso) w) in
  let w2 := elapse (with_trace (GetWebServices nso) w1) in
  let w3 := elapse (with_trace (GetActiveEvent nso) w2) in
  trace w' = (trace w ++ [GetFriendList nso; GetWebServices nso; GetActiveEvent nso])%list
  ∧ clock w' = clock w3
  ∧ (∃ fs ws ae, cached_appdata w' !! id (user auth) = Some (fs, ws, ae, clock w')
                 ∧ getFriendList E nso (clock w) (trace w) = inr fs
                 ∧ getWebServices E nso (clock w1) (trace w1) = inr ws
                 ∧ getActiveEvent E nso (clock w2) (trace w2) = inr ae)
  ∧ (∀ other, other ≠ id (user auth) →
       cached_appdata w' !! other = cached_appdata w !! other)
  ∧ storage w' = storage w
  ∧ cached_announcements w' = cached_announcements w.
Proof.
  intros Hauth Hznc Hs Hrun ->. cbv zeta.
  rewrite (getAppData_fetch E argv req w auth nso Hauth Hznc Hs) in Hrun.
  destruct (getFriendList E nso _ _) as [err | fs'] eqn:Hfs; [discriminate |].
  destruct (getWebServices E nso _ _) as [err | ws'] eqn:Hws; [discriminate |].
  destruct (getActiveEvent E nso _ _) as [err | ae'] eqn:Hae; [discriminate |].
  injection Hrun as <-.
  split; [cbn; by rewrite <- !app_assoc |].
  split; [reflexivity |].
  split; [exists fs', ws', ae'; split; [apply lookup_insert_eq | done] |].
  split; [| done].
  intros other Hne. cbn [cached_appdata with_appdata elapse with_trace].
  by rewrite lookup_insert_ne.
Qed.

(** X3. A refresh that fails ends the response with status 500 and
    leaves the caches and the store as they were: the data of the
    earlier fetch stays cached but is not served. *)
Theorem getAppData_failure_keeps_cache (req : Request) (w : World) (auth : SavedToken)
    (nso : Nso) (err : Error) :
  zncAuth req = Some auth →
  znc req = Some nso →
  appdata_stale argv w auth →
  appdata_fetch_fails E nso w err →
  ∃ w', getAppData E argv req w = (Returned (End (json_status 500 (ErrorThrown err))), w')
        ∧ cached_appdata w' = cached_appdata w
        ∧ storage w' = storage w.
Proof.
  intros Hauth Hznc Hs Hfail.
  rewrite (getAppData_fetch E argv req w auth nso Hauth Hznc Hs).
  unfold appdata_fetch_fails in Hfail. cbv zeta in Hfail.
  destruct Hfail as [-> | [[fs ->] [-> | [[ws ->] ->]]]]; by eexists.
Qed.

(** X4. The cache of the current user works the same way: reused
    strictly before [updated + updateInterval]; otherwise one request,
    whose result is stored for that user alone on success and whose
    failure is answered 500 with the cache unchanged. *)
Theorem getUserData_cache (req : Request) (w : World) (auth : SavedToken) (nso : Nso) :
  zncAuth req = Some auth →
  znc req = Some nso →
  (∀ u upd, cached_userdata w !! id (user auth) = Some (u, upd) →
            clock w < upd + updateInterval argv →
            getUserData E argv req w = (Returned (Next req), w))
  ∧ (userdata_stale argv w auth →
     ∃ out w', getUserData E argv req w = (out, w')
       ∧ trace w' = (trace w ++ [GetCurrentUser nso])%list
       ∧ match getCurrentUser E nso (clock w) (trace w) with
         | inr u => out = Returned (Next req)
                    ∧ cached_userdata w' !! id (user auth) = Some (u, clock w')
                    ∧ ∀ other, other ≠ id (user auth) →
                        cached_userdata w' !! other = cached_userdata w !! other
         | inl err => out = Returned (End (json_status 500 (ErrorThrown err)))
                      ∧ cached_userdata w' = cached_userdata w
         end).
Proof.
  intros Hauth Hznc. split.
  - intros u upd Hcache Hlive. unfold getUserData.
    rewrite run_bind, Hauth. cbn [nonnull]. cbv [mret M_ret ret].
    rewrite run_bind. cbv [get_world]. rewrite run_bind. cbv [Date_now].
    rewrite Hcache. apply Z.ltb_lt in Hlive. by rewrite Hlive.
  - intros Hs. rewrite (getUserData_fetch E argv req w auth nso Hauth Hznc Hs).
    destruct (getCurrentUser E nso _ _) as [err | u].
    + eexists _, _. split; [reflexivity |]. done.
    + eexists _, _. split; [reflexivity |]. split; [done |].
      split; [done |]. split; [apply lookup_insert_eq |].
      intros other Hne. cbn [cached_userdata with_userdata]. by rewrite lookup_insert_ne.
Qed.

End AppDataCache.

(** ** The listings of friends *)

Lemma presences_lookup (policy : option AuthPolicy) (l : list Friend)
    (acc : gmap string Presence) (k : string) :
  foldl (fun (acc : gmap string Presence) f =>
           if skipped policy f then acc
           else set_property (nsaId f) (presence f) acc) acc l !! k
  = if String.eqb k "__proto__" then acc !! k
    else match last (List.filter
                       (fun f => String.eqb (nsaId f) k && negb (skipped policy f)) l) with
         | Some f => Some (presence f)
         | None => acc !! k
         end.
Proof.
  revert acc. induction l as [| f l IH]; intros acc; cbn [foldl List.filter].
  { by destruct (String.eqb k "__proto__"). }
  rewrite IH. destruct (String.eqb_spec k "__proto__") as [Heqk | Hk].
  - destruct (skipped policy f); [done |]. unfold set_property.
    destruct (String.eqb_spec (nsaId f) "__proto__") as [Heq | Hne]; [done |].
    rewrite lookup_insert_ne; [done | by rewrite Heqk].
  - destruct (skipped policy f) eqn:Hskip.
    + by rewrite andb_false_r.
    + rewrite andb_true_r. unfold set_property.
      destruct (String.eqb_spec (nsaId f) k) as [-> | Hne].
      * rewrite last_cons. destruct (last _); [done |].
        destruct (String.eqb_spec k "__proto__"); [done |]. by rewrite lookup_insert_eq.
      * destruct (last _); [done |].
        destruct (String.eqb (nsaId f) "__proto__"); [done |]. by rewrite lookup_insert_ne.
Qed.

Lemma List_filter_sublist {A} (p : A → bool) (l : list A) : List.filter p l `sublist_of` l.
Proof.
  induction l as [| x l IH]; cbn [List.filter]; [constructor |].
  destruct (p x); by constructor.
Qed.

Lemma elem_of_List_filter {A} (p : A → bool) (l : list A) (x : A) :
  x ∈ List.filter p l ↔ x ∈ l ∧ p x = true.
Proof. rewrite !list_elem_of_In. apply filter_In. Qed.

Section Listings.
Context (E : Env) (argv : Argv).

(** X5. The presence object of the listing is built by assignments to
    a plain object.  Under each key other than ["__proto__"] it has the
    presence of the last cached friend of that [nsaId] that the policy
    does not skip, and it has no other keys: every such friend the
    policy lets through is listed, and without a policy every such
    cached friend is.  A friend whose [nsaId] is ["__proto__"] is never
    listed: the assignment sets the prototype of the object and leaves
    no key in the body. *)
Theorem friends_presence_listing (req : Request) (w : World) (auth : SavedToken)
    (fs : list Friend) (ws : list WebService) (ae : ActiveEvent) (upd : Z) :
  zncAuth req = Some auth →
  cached_appdata w !! id (user auth) = Some (fs, ws, ae, upd) →
  ∃ m, get_friends_presence req w = (Returned (End (json (PresencesBody m))), w)
       ∧ m !! "__proto__" = None
       ∧ (∀ k, k ≠ "__proto__" →
               m !! k
               = presence <$> last (List.filter
                   (fun f => String.eqb (nsaId f) k
                             && negb (skipped (zncAuthPolicy req) f)) fs))
       ∧ (∀ f, f ∈ fs → skipped (zncAuthPolicy req) f = false →
               nsaId f ≠ "__proto__" → is_Some (m !! nsaId f))
       ∧ (zncAuthPolicy req = None →
          ∀ f, f ∈ fs → nsaId f ≠ "__proto__" → is_Some (m !! nsaId f)).
Proof.
  intros Hauth Hcache. rewrite get_friends_presence_run, Hauth, Hcache.
  eexists. split; [reflexivity |].
  assert (Hproto : foldl (fun (acc : gmap string Presence) f =>
                            if skipped (zncAuthPolicy req) f then acc
                            else set_property (nsaId f) (presence f) acc) ∅ fs
                     !! "__proto__" = None).
  { rewrite presences_lookup. cbn. apply lookup_empty. }
  assert (Hk : ∀ k, k ≠ "__proto__" →
                    foldl (fun (acc : gmap string Presence) f =>
                             if skipped (zncAuthPolicy req) f then acc
                             else set_property (nsaId f) (presence f) acc) ∅ fs !! k
                    = presence <$> last (List.filter
                        (fun f => String.eqb (nsaId f) k
                                  && negb (skipped (zncAuthPolicy req) f)) fs)).
  { intros k Hne. rewrite presences_lookup.
    destruct (String.eqb_spec k "__proto__"); [done |].
    destruct (last _); [done |]. apply lookup_empty. }
  assert (Hin : ∀ f, f ∈ fs → skipped (zncAuthPolicy req) f = false →
                     nsaId f ≠ "__proto__" →
                     is_Some (foldl (fun (acc : gmap string Presence) f =>
                                       if skipped (zncAuthPolicy req) f then acc
                                       else set_property (nsaId f) (presence f) acc) ∅ fs
                              !! nsaId f)).
  { intros f Hf Hskip Hne. rewrite (Hk _ Hne).
    apply fmap_is_Some, last_is_Some. intros Hnil.
    assert (Hmem : f ∈ List.filter
                     (fun f' => String.eqb (nsaId f') (nsaId f)
                                && negb (skipped (zncAuthPolicy req) f')) fs).
    { apply elem_of_List_filter. split; [done |]. by rewrite String.eqb_refl, Hskip. }
    rewrite Hnil in Hmem. by apply elem_of_nil in Hmem. }
  split; [exact Hproto |]. split; [exact Hk |]. split; [exact Hin |].
  intros Hnone f Hf Hne. apply Hin; [done | by rewrite Hnone | done].
Qed.

(** X6. The friend list is the cached list filtered by the [friends]
    allowlist of the policy, in the cached order; without a policy, or
    with a policy without [friends], it is the whole cached list.  The
    [friends_presence] allowlist plays no part here. *)
Theorem friends_listing (req : Request) (w : World) (auth : SavedToken)
    (fs : list Friend) (ws : list WebService) (ae : ActiveEvent) (upd : Z) :
  zncAuth req = Some auth →
  cached_appdata w !! id (user auth) = Some (fs, ws, ae, upd) →
  ∃ l, get_friends req w = (Returned (End (json (FriendsBody l upd))), w)
       ∧ l `sublist_of` fs
       ∧ (∀ f, f ∈ l ↔ f ∈ fs ∧ match zncAuthPolicy req ≫= friends with
                                 | Some allow => nsaId f ∈ allow
                                 | None => True
                                 end)
       ∧ (zncAuthPolicy req ≫= friends = None → l = fs).
Proof.
  intros Hauth Hcache. unfold get_friends.
  rewrite run_bind, (appdata_run req w auth _ Hauth Hcache).
  eexists. split; [reflexivity |]. unfold friends_of.
  destruct (zncAuthPolicy req ≫= friends) as [allow |].
  - split; [apply List_filter_sublist |]. split; [| done].
    intros f. rewrite elem_of_List_filter, includes_elem_of. done.
  - split; [done |]. split; [| done]. intros f. tauto.
Qed.

(** X8. A request for one friend is answered with the first cached
    friend of the requested [nsaId], and the presence endpoint with the
    presence of that same friend; both answer 404 exactly when no cached
    friend has that [nsaId]. *)
Theorem friend_lookup (req : Request) (w : World) (auth : SavedToken)
    (fs : list Friend) (ws : list WebService) (ae : ActiveEvent) (upd : Z) :
  zncAuth req = Some auth →
  cached_appdata w !! id (user auth) = Some (fs, ws, ae, upd) →
  match List.find (fun f => String.eqb (nsaId f) (params_nsaid req)) fs with
  | Some f =>
      f ∈ fs ∧ nsaId f = params_nsaid req
      ∧ get_friend req w = (Returned (End (json (FriendBody f upd))), w)
      ∧ get_friend_presence req w = (Returned (End (json (PresenceBody (presence f)))), w)
  | None =>
      (∀ f, f ∈ fs → nsaId f ≠ params_nsaid req)
      ∧ get_friend req w = (Returned (End not_found), w)
      ∧ get_friend_presence req w = (Returned (End not_found), w)
  end.
Proof.
  intros Hauth Hcache. unfold get_friend, get_friend_presence.
  rewrite !run_bind, (appdata_run req w auth _ Hauth Hcache).
  destruct (List.find _ fs) as [f |] eqn:Hfind.
  - apply find_some in Hfind. destruct Hfind as [Hin Heq].
    apply String.eqb_eq in Heq. by rewrite <- list_elem_of_In in Hin.
  - split; [| done]. intros f Hin Heq.
    apply list_elem_of_In in Hin.
    pose proof (find_none _ _ Hfind f Hin) as Hno. cbn in Hno.
    rewrite Heq, String.eqb_refl in Hno. discriminate.
Qed.

End Listings.

(** X7. The policy check of the single-friend presence endpoint accepts
    exactly the friends that the presence listing does not skip: with
    the [friend_presence] flag set, a friend is accepted if and only if
    the listing under the same policy would include it. *)
Theorem friend_presence_gate_matches_listing (p : AuthPolicy) (req : Request) (f : Friend) :
  nsaId f = params_nsaid req →
  allow_friend_presence p req
  = flag (friend_presence p) && negb (skipped (Some p) f).
Proof.
  intros Hf. unfold allow_friend_presence, skipped. rewrite Hf.
  destruct (flag (friend_presence p)); cbn [negb andb]; [| done].
  destruct (friends_presence p) as [fp |]; cbn [defined negb andb].
  - destruct (includes fp (params_nsaid req)); cbn [negb]; [| done].
    by destruct (friends p).
  - destruct (friends p) as [fl |]; [| done].
    by destruct (includes fl (params_nsaid req)).
Qed.

(** ** What [getToken] leaves in the store, and what it leaves alone *)

Lemma getToken_returned_store (E : Env) (token : string) (proxy_url : option string)
    (w w' : World) (nso : Nso) (saved : SavedToken) :
  Util.getToken E token proxy_url w = (Returned (nso, saved), w') →
  truthy token = true
  ∧ storage w' !! NintendoAccountToken (id (user saved)) = Some (VString token)
  ∧ storage w' !! NsoToken token = Some (VSavedToken saved).
Proof.
  intros Hrun.
  destruct (getToken_returned_inv _ _ _ _ _ _ Hrun)
    as [Hok [(cred & Hget & Hfresh) | Hmiss]].
  - rewrite (getToken_hit E token proxy_url w cred Hok Hget Hfresh) in Hrun.
    injection Hrun as _ <- <-. split; [apply Hok |].
    cbn [storage elapse with_storage]. split; [apply lookup_insert_eq |].
    rewrite lookup_insert_ne; [done | apply NintendoAccountToken_NsoToken].
  - rewrite (getToken_miss E token proxy_url w Hok Hmiss) in Hrun.
    destruct (exchange E proxy_url token _ _) as [e | [nso' data]]; [discriminate |].
    cbv zeta in Hrun. injection Hrun as _ <- <-. split; [apply Hok |].
    cbn [storage elapse with_storage user spread]. split; [apply lookup_insert_eq |].
    rewrite lookup_insert_ne; [| apply NintendoAccountToken_NsoToken].
    apply lookup_insert_eq.
Qed.

#[export] Instance only_token_keys_preorder : PreOrder only_token_keys.
Proof.
  split.
  - by intros w k _ _.
  - intros w1 w2 w3 H12 H23 k Ht Hu. by rewrite H23, H12.
Qed.

Lemma only_token_keys_elapse (w : World) : only_token_keys w (elapse w).
Proof. by intros k _ _. Qed.

Lemma only_token_keys_trace (c : Call) (w : World) : only_token_keys w (with_trace c w).
Proof. by intros k _ _. Qed.

Lemma only_token_keys_NsoToken (t : string) (v : Stored) (w : World) :
  only_token_keys w (with_storage (insert ("NsoToken." +:+ t) v) w).
Proof.
  intros k Ht _. cbn [storage with_storage].
  rewrite lookup_insert_ne; [done |]. intros Heq. by apply (Ht t).
Qed.

Lemma only_token_keys_NintendoAccountToken (u : string) (v : Stored) (w : World) :
  only_token_keys w (with_storage (insert ("NintendoAccountToken." +:+ u) v) w).
Proof.
  intros k _ Hu. cbn [storage with_storage].
  rewrite lookup_insert_ne; [done |]. intros Heq. by apply (Hu u).
Qed.

Lemma getToken_only_token_keys (E : Env) (token : string) (proxy_url : option string) :
  preserves only_token_keys (Util.getToken E token proxy_url).
Proof.
  unfold Util.getToken. frame;
    auto using only_token_keys_elapse, only_token_keys_trace, only_token_keys_NsoToken,
      only_token_keys_NintendoAccountToken.
Qed.

Lemma session_effects_keeps_keys (w w' : World) (k : string) :
  session_effects w w' → is_Some (storage w !! k) → is_Some (storage w' !! k).
Proof.
  intros H Hk. induction H as [| | w' k' v _ IH _ |]; [done | done | | done].
  cbn [storage with_storage]. destruct (decide (k' = k)) as [-> | Hne].
  - rewrite lookup_insert_eq. by eexists.
  - by rewrite lookup_insert_ne.
Qed.

Lemma getToken_trace (E : Env) (token : string) (proxy_url : option string)
    (w w' : World) (out : Outcome (Nso * SavedToken)) :
  Util.getToken E token proxy_url w = (out, w') →
  trace w' = trace w
  ∨ trace w' = (trace w ++ [exchange_call proxy_url token])%list.
Proof.
  unfold Util.getToken, exchange_call.
  destruct (truthy token); cbn [negb]; [| intros H; cbv [throw] in H; left; by simplify_eq].
  rewrite run_bind.
  destruct (Jwt_decode E token) as [e | [jwt sig]]; cbn [lift ret throw];
    [intros H; left; by simplify_eq |].
  destruct (negb (String.eqb (iss (payload jwt)) _));
    [intros H; cbv [throw] in H; left; by simplify_eq |].
  destruct (negb (String.eqb (typ (payload jwt)) _));
    [intros H; cbv [throw] in H; left; by simplify_eq |].
  destruct (negb (String.eqb (aud (payload jwt)) _));
    [intros H; cbv [throw] in H; left; by simplify_eq |].
  rewrite run_bind. cbn [Date_now].
  destruct (Qle_bool _ _); [intros H; cbv [throw] in H; left; by simplify_eq |].
  rewrite run_bind. unfold mbind at 1, M_bind, bind. rewrite run_getItem.
  assert (Hfresh : ∀ w0 out0 w0',
    (('(nso, data) ← match configured proxy_url with
                     | Some url => request (ProxyLogin url token)
                                     (ZncProxyApi_createWithSessionToken E url token)
                     | None => request (NsoLogin token)
                                 (ZncApi_createWithSessionToken E token)
                     end;
      now ← Date_now;
      let existingToken := spread data (now + expiresIn (d_credential data) * 1000) in
      setItem ("NsoToken." +:+ token) (VSavedToken existingToken) ;;
      setItem ("NintendoAccountToken." +:+ id (d_user data)) (VString token);;
      ret (nso, existingToken)) : M (Nso * SavedToken)) w0 = (out0, w0') →
    trace w0' = (trace w0 ++ [match configured proxy_url with
                               | Some url => ProxyLogin url token
                               | None => NsoLogin token
                               end])%list).
  { intros w0 out0 w0'. rewrite run_bind.
    destruct (configured proxy_url) as [url |]; rewrite run_request;
      match goal with |- context [match ?s with inl _ => _ | inr _ => _ end] =>
        destruct s as [e | [nso data]] end;
      intros H; try (by simplify_eq).
    all: rewrite run_bind in H; cbn [Date_now] in H; cbv zeta in H;
      rewrite run_bind, run_setItem, run_bind, run_setItem in H;
      cbv [ret] in H; by simplify_eq. }
  destruct (storage w !! ("NsoToken." +:+ token)) as [[cred | | |] |];
    cbn [as_SavedToken ret throw]; try (intros H; left; by simplify_eq).
  - rewrite run_bind. cbn [Date_now].
    destruct (expires_at cred <=? clock (elapse w)).
    + intros H. right. by apply Hfresh in H.
    + rewrite run_bind, run_setItem. intros H. cbv [ret] in H. left. by simplify_eq.
  - rewrite run_bind. cbn [Date_now]. intros H. right. by apply Hfresh in H.
Qed.

Lemma getToken_store (E : Env) (token : string) (proxy_url : option string)
    (w w' : World) (out : Outcome (Nso * SavedToken)) :
  Util.getToken E token proxy_url w = (out, w') →
  match out with
  | Returned (nso, saved) =>
      storage w' = <[NintendoAccountToken (id (user saved)) := VString token]>
                     (<[NsoToken token := VSavedToken saved]> (storage w))
  | Thrown _ => storage w' = storage w
  end.
Proof.
  unfold Util.getToken, NintendoAccountToken, NsoToken.
  destruct (truthy token); cbn [negb]; [| intros H; cbv [throw] in H; by simplify_eq].
  rewrite run_bind.
  destruct (Jwt_decode E token) as [e | [jwt sig]]; cbn [lift ret throw];
    [intros H; by simplify_eq |].
  destruct (negb (String.eqb (iss (payload jwt)) _));
    [intros H; cbv [throw] in H; by simplify_eq |].
  destruct (negb (String.eqb (typ (payload jwt)) _));
    [intros H; cbv [throw] in H; by simplify_eq |].
  destruct (negb (String.eqb (aud (payload jwt)) _));
    [intros H; cbv [throw] in H; by simplify_eq |].
  rewrite run_bind. cbn [Date_now].
  destruct (Qle_bool _ _); [intros H; cbv [throw] in H; by simplify_eq |].
  rewrite run_bind. unfold mbind at 1, M_bind, bind. rewrite run_getItem.
  assert (Hfresh : ∀ w0 out0 w0',
    (('(nso, data) ← match configured proxy_url with
                     | Some url => request (ProxyLogin url token)
                                     (ZncProxyApi_createWithSessionToken E url token)
                     | None => request (NsoLogin token)
                                 (ZncApi_createWithSessionToken E token)
                     end;
      now ← Date_now;
      let existingToken := spread data (now + expiresIn (d_credential data) * 1000) in
      setItem ("NsoToken." +:+ token) (VSavedToken existingToken) ;;
      setItem ("NintendoAccountToken." +:+ id (d_user data)) (VString token);;
      ret (nso, existingToken)) : M (Nso * SavedToken)) w0 = (out0, w0') →
    match out0 with
    | Returned (nso, saved) =>
        storage w0' = <["NintendoAccountToken." +:+ id (user saved) := VString token]>
                        (<["NsoToken." +:+ token := VSavedToken saved]> (storage w0))
    | Thrown _ => storage w0' = storage w0
    end).
  { intros w0 out0 w0'. rewrite run_bind.
    destruct (configured proxy_url) as [url |]; rewrite run_request;
      match goal with |- context [match ?s with inl _ => _ | inr _ => _ end] =>
        destruct s as [e | [nso data]] end;
      intros H; try (by simplify_eq).
    all: rewrite run_bind in H; cbn [Date_now] in H; cbv zeta in H;
      rewrite run_bind, run_setItem, run_bind, run_setItem in H;
      cbv [ret] in H; by simplify_eq. }
  destruct (storage w !! ("NsoToken." +:+ token)) as [[cred | | |] |] eqn:Hget;
    cbn [as_SavedToken ret throw]; try (intros H; by simplify_eq).
  - rewrite run_bind. cbn [Date_now].
    destruct (expires_at cred <=? clock (elapse w)).
    + intros H. by apply Hfresh in H.
    + rewrite run_bind, run_setItem. intros H. cbv [ret] in H. simplify_eq.
      cbn [storage elapse with_storage]. by rewrite (insert_id _ _ _ Hget).
  - rewrite run_bind. cbn [Date_now]. intros H. by apply Hfresh in H.
Qed.

(** X17. The footprint of [getToken].  When it throws, the store is as
    it was.  When it returns, the store differs from the one it started
    with at two keys only, [NsoToken.<token>] for the token it was given
    and [NintendoAccountToken.<id>] for the user of the credential it
    returns, which hold that credential and that token; every other
    key, of any other token or user, reads as before.  In both cases no
    key is removed, the caches of the process are left alone, and at
    most one request is sent upstream, the exchange of the session token
    it was given. *)
Theorem getToken_footprint (E : Env) (token : string) (proxy_url : option string)
    (w w' : World) (out : Outcome (Nso * SavedToken)) :
  Util.getToken E token proxy_url w = (out, w') →
  match out with
  | Returned (nso, saved) =>
      storage w' = <[NintendoAccountToken (id (user saved)) := VString token]>
                     (<[NsoToken token := VSavedToken saved]> (storage w))
      ∧ ∀ k, k ≠ NsoToken token → k ≠ NintendoAccountToken (id (user saved)) →
             storage w' !! k = storage w !! k
  | Thrown _ => storage w' = storage w
  end
  ∧ (∀ k, is_Some (storage w !! k) → is_Some (storage w' !! k))
  ∧ (trace w' = trace w ∨ trace w' = (trace w ++ [exchange_call proxy_url token])%list)
  ∧ cached_announcements w' = cached_announcements w
  ∧ cached_appdata w' = cached_appdata w
  ∧ cached_userdata w' = cached_userdata w.
Proof.
  intros Hrun.
  pose proof (getToken_session_effects E token proxy_url w out w' Hrun) as Hs.
  split.
  { pose proof (getToken_store E token proxy_url w w' out Hrun) as Hstore.
    destruct out as [[nso saved] | e]; [| done]. split; [done |].
    intros k Hk1 Hk2. rewrite Hstore. by rewrite !lookup_insert_ne. }
  split; [intros k; by apply session_effects_keeps_keys |].
  split; [by eapply getToken_trace |].
  destruct (session_effects_caches w w' Hs) as (? & ? & ? & _). done.
Qed.

(** ** The session handler of the proxy *)



Section Session.
Context (E : Env) (argv : Argv).



(** X11. For a request with a resolved proxy token the session token is
    the one stored for the user of the token; the [Authorization] header
    is not looked at.  When the store has none for that user the answer
    is 500 "must reauthenticate" without any upstream request; when it
    has one, an error of [getToken] for that token is answered 500 with
    that error. *)
Theorem nsoAuth_uses_token_of_policy_user (req : Request) (w : World) (u : string) :
  zncAuthPolicyUser req = Some u →
  truthy u = true →
  (storage w !! NintendoAccountToken u = None →
     nsoAuth E argv req w
     = (Returned (End (json_status 500 (ErrorThrown
          (mkError "Nintendo Account for this token must reauthenticate")))), elapse w))
  ∧ (∀ tok e w1,
       storage w !! NintendoAccountToken u = Some (VString tok) →
       truthy tok = true →
       Util.getToken E tok (zncProxyUrl argv) (elapse w) = (Thrown e, w1) →
       nsoAuth E argv req w = (Returned (End (json_status 500 (ErrorThrown e))), w1)).
Proof.
  intros Huser Htruthy. unfold NintendoAccountToken.
  assert (Hhead : ∀ o, storage w !! ("NintendoAccountToken." +:+ u) = o →
    (if truthy_opt (zncAuthPolicyUser req) then
       na_token ← getItem ("NintendoAccountToken." +:+ default "" (zncAuthPolicyUser req))
                    ≫= as_string;
       if negb (truthy_opt na_token) then
         throw (mkError "Nintendo Account for this token must reauthenticate")
       else ret (default "" na_token)
     else
       match authorization req with
       | Some auth =>
         if negb (truthy auth) || negb (startsWith auth "na ") then
           throw (mkError "Requires Nintendo Account authentication")
         else ret (substr 3 auth)
       | None => throw (mkError "Requires Nintendo Account authentication")
       end) w
    = match o with
      | None => (Thrown (mkError "Nintendo Account for this token must reauthenticate"),
                 elapse w)
      | Some (VString s) =>
          if truthy s then (Returned s, elapse w)
          else (Thrown (mkError "Nintendo Account for this token must reauthenticate"),
                elapse w)
      | Some _ => (Thrown TypeError, elapse w)
      end).
  { intros o Ho. rewrite Huser. cbn [truthy_opt]. rewrite Htruthy.
    cbn [default from_option Datatypes.id].
    rewrite run_bind. unfold mbind at 1, M_bind, bind. rewrite run_getItem, Ho.
    destruct o as [[| s | |] |]; cbn [as_string ret throw]; try done.
    cbn [truthy_opt]. by destruct (truthy s). }
  split.
  - intros Hnone. unfold nsoAuth, try_catch. by rewrite run_bind, (Hhead _ Hnone).
  - intros tok e w1 Hsome Htok Hget. unfold nsoAuth, try_catch.
    rewrite run_bind, (Hhead _ Hsome), Htok, run_bind, Hget. done.
Qed.

End Session.

(** ** How the token stores are read back *)

Section RoundTrips.
Context (E : Env) (argv : Argv).

Lemma pctl_key_not_token (x : string) :
  (∀ t, "NintendoAccountToken-pctl." +:+ x ≠ NsoToken t)
  ∧ (∀ u, "NintendoAccountToken-pctl." +:+ x ≠ NintendoAccountToken u).
Proof.
  split; intros y; unfold NsoToken, NintendoAccountToken; cbn [String.append];
    intros ?; simplify_eq.
Qed.

Lemma moon_key_not_token (x : string) :
  (∀ t, "MoonToken." +:+ x ≠ NsoToken t)
  ∧ (∀ u, "MoonToken." +:+ x ≠ NintendoAccountToken u).
Proof.
  split; intros y; unfold NsoToken, NintendoAccountToken; cbn [String.append];
    intros ?; simplify_eq.
Qed.

(** X22. What [getToken] stored is what the desktop application reads
    back: after a resolution that returned, the token handler gives the
    session token for the user's id and the cached-token handler gives
    the returned credential for that session token; the entries of the
    Parental Controls application are as they were. *)
Theorem ipc_reads_back_getToken (token : string) (proxy_url : option string)
    (w w' : World) (nso : Nso) (saved : SavedToken) :
  Util.getToken E token proxy_url w = (Returned (nso, saved), w') →
  Ipc.coral_gettoken (id (user saved)) w' = (Returned (Some (VString token)), elapse w')
  ∧ Ipc.coral_getcachedtoken token w' = (Returned (Some (VSavedToken saved)), elapse w')
  ∧ (∀ x, (Ipc.moon_gettoken x w').1 = (Ipc.moon_gettoken x w).1)
  ∧ (∀ x, (Ipc.moon_getcachedtoken x w').1 = (Ipc.moon_getcachedtoken x w).1).
Proof.
  intros Hrun.
  destruct (getToken_returned_store E token proxy_url w w' nso saved Hrun)
    as (_ & Hlast & Hcached).
  pose proof (getToken_only_token_keys E token proxy_url w _ w' Hrun) as Hkeys.
  unfold Ipc.coral_gettoken, Ipc.coral_getcachedtoken, Ipc.moon_gettoken,
    Ipc.moon_getcachedtoken.
  rewrite !run_getItem. unfold NintendoAccountToken, NsoToken in Hlast, Hcached.
  rewrite Hlast, Hcached. split; [done |]. split; [done |].
  split; intros x; rewrite !run_getItem; cbn [fst]; f_equal.
  - apply Hkeys; apply pctl_key_not_token.
  - apply Hkeys; apply moon_key_not_token.
Qed.

(** X10. The last token of a user comes back through [localAuth]: after
    a resolution that returned, a request naming the user in its [user]
    query parameter gets, when tokens are not required, the header
    ["na " + token]; and [nsoAuth] takes from such a header exactly that
    token. *)
Theorem localAuth_restores_last_token (token : string) (proxy_url : option string)
    (w w' : World) (nso : Nso) (saved : SavedToken) (req : Request) :
  Util.getToken E token proxy_url w = (Returned (nso, saved), w') →
  requireToken argv = false →
  query_user req = Some (id (user saved)) →
  truthy (id (user saved)) = true →
  localAuth argv req w'
  = (Returned (Next (set_authorization ("na " +:+ token) req)), elapse w')
  ∧ truthy ("na " +:+ token) = true
  ∧ startsWith ("na " +:+ token) "na " = true
  ∧ substr 3 ("na " +:+ token) = token.
Proof.
  intros Hrun Hreq Hq Hid.
  destruct (getToken_returned_store E token proxy_url w w' nso saved Hrun)
    as (Htok & Hlast & _).
  split; [| split; [done | split; [| done]]].
  - unfold localAuth. rewrite Hreq, Hq. cbn [truthy_opt orb]. rewrite Hid. cbn [negb].
    rewrite run_bind. unfold mbind at 1, M_bind, bind. rewrite run_getItem.
    cbn [default from_option Datatypes.id].
    unfold NintendoAccountToken in Hlast. rewrite Hlast. cbn [as_string ret].
    cbn [truthy_opt]. rewrite Htok. reflexivity.
  - unfold startsWith. cbn. by destruct token.
Qed.

Lemma presented_bearer (req : Request) (t : string) :
  authorization req = Some ("Bearer " +:+ t) → presented_token req = Some t.
Proof.
  intros Hh. unfold presented_token. rewrite Hh.
  replace (startsWith ("Bearer " +:+ t) "Bearer ") with true; [done |].
  unfold startsWith. cbn. by destruct t.
Qed.

(** X9. A bearer header decides the proxy token on its own: the token
    is what follows ["Bearer "], its entry is attached when the store
    has one, and when the store has none the request goes on without a
    policy, whatever its [token] query parameter says. *)
Theorem bearer_header_decides (req : Request) (w : World) (t : string) :
  authorization req = Some ("Bearer " +:+ t) →
  (∀ a, storage w !! ZncProxyAuthPolicy t = Some (VAuthToken a) →
        authToken req w = (Returned (Next (set_policy a t req)), elapse w))
  ∧ (storage w !! ZncProxyAuthPolicy t = None →
       authToken req w = (Returned (Next req), elapse w)
       ∧ (incoming req →
          serve E argv GET_token req w
          = (Returned (json_status 403 (ErrorCode "no_policy")), elapse w))).
Proof.
  intros Hh.
  pose proof (presented_bearer req t Hh) as Hp.
  split.
  - intros a Ha. by rewrite authToken_run, Hp, Ha.
  - intros Hnone.
    assert (Hrun : authToken req w = (Returned (Next req), elapse w))
      by by rewrite authToken_run, Hp, Hnone.
    split; [done |]. intros (_ & _ & _ & _ & Hfresh).
    unfold serve. cbn [handlers]. rewrite (run_next _ _ _ _ _ _ Hrun).
    apply run_end. unfold get_token. by rewrite Hfresh.
Qed.

End RoundTrips.

(** ** Proxy tokens: issue, look up, list, revoke *)

Section TokenLifecycle.
Context (E : Env) (argv : Argv).

Lemma issue_inv (req : Request) (w w' : World) (res : Response) :
  serve E argv POST_tokens req w = (Returned res, w') →
  statusCode res = 200 →
  ∃ auth,
    res = json (CreatedBody (uuidgen E (entropy w)) auth)
    ∧ policy auth = body_policy req
    ∧ policy_entry w' (uuidgen E (entropy w)) = Some (VAuthToken auth)
    ∧ (∀ t, t ≠ uuidgen E (entropy w) → policy_entry w' t = policy_entry w t).
Proof.
  intros Hrun Hstatus. unfold serve, handlers in Hrun.
  apply run_cons_inv in Hrun.
  destruct Hrun as [(req1 & w1 & Hnso & Hrun) | [(res' & Hnso & ?) | (e & ? & ?)]];
    [| | discriminate].
  2: { apply nsoAuth_inv in Hnso. by destruct Hnso as [(? & ? & ?) | (? & ?)]; simplify_eq. }
  pose proof (nsoAuth_session_effects _ _ _ _ _ _ Hnso) as Hs.
  apply nsoAuth_inv in Hnso. destruct Hnso as [(nso & data & ?) | (? & ?)]; simplify_eq.
  apply run_cons_inv in Hrun.
  destruct Hrun as [(? & ? & Hpost & _) | [(res' & Hpost & ?) | (e & ? & ?)]];
    [| | discriminate].
  { eapply post_tokens_inv in Hpost; [| done]. destruct Hpost as (? & ? & _). discriminate. }
  eapply post_tokens_inv in Hpost; [| done].
  destruct Hpost as (auth & ? & Huser & Hpol & Hst). simplify_eq.
  destruct (session_effects_caches _ _ Hs) as (_ & _ & _ & Hentropy).
  destruct (session_effects_policies _ _ Hs) as [Hentries _].
  rewrite Hentropy in *.
  exists auth. split; [done |]. split; [done |].
  unfold policy_entry in *. rewrite Hst.
  split.
  - rewrite lookup_insert_ne
      by (intros H; symmetry in H; revert H; apply ZncProxyAuthPolicy_ZncProxyAuthPolicies).
    apply lookup_insert_eq.
  - intros t Hne.
    rewrite lookup_insert_ne
      by (intros H; symmetry in H; revert H; apply ZncProxyAuthPolicy_ZncProxyAuthPolicies).
    rewrite lookup_insert_ne by (intros H; by apply ZncProxyAuthPolicy_inj in H).
    apply Hentries.
Qed.

(** X13. A proxy token that was issued can be presented at once: the
    token endpoint answers a request bearing it with the policy that
    was given in the body of the request that issued it. *)
Theorem issued_token_resolves (req req' : Request) (w w1 : World) (res : Response) :
  serve E argv POST_tokens req w = (Returned res, w1) →
  statusCode res = 200 →
  truthy (uuidgen E (entropy w)) = true →
  authorization req' = Some ("Bearer " +:+ uuidgen E (entropy w)) →
  serve E argv GET_token req' w1
  = (Returned (json (PolicyBody (body_policy req))), elapse w1).
Proof.
  intros Hissue Hstatus Htruthy Hh.
  destruct (issue_inv req w w1 res Hissue Hstatus) as (auth & _ & Hpol & Hentry & _).
  assert (Hfound : authToken req' w1
                   = (Returned (Next (set_policy auth (uuidgen E (entropy w)) req')),
                      elapse w1)).
  { rewrite authToken_run, (presented_bearer req' _ Hh). unfold policy_entry in Hentry.
    by rewrite Hentry. }
  unfold serve. cbn [handlers]. rewrite (run_next _ _ _ _ _ _ Hfound).
  apply run_end. unfold get_token. cbn [zncAuthPolicyToken zncAuthPolicy set_policy truthy_opt].
  by rewrite Htruthy, Hpol.
Qed.

Lemma revoke_inv (req : Request) (w w' : World) (res : Response) :
  incoming req →
  serve E argv DELETE_token req w = (Returned res, w') →
  statusCode res = 204 →
  ∃ tok a,
    presented_token req = Some tok
    ∧ policy_entry w tok = Some (VAuthToken a)
    ∧ policy_entry w' tok = None
    ∧ (∀ t, t ≠ tok → policy_entry w' t = policy_entry w t).
Proof.
  intros (_ & _ & _ & _ & Hfresh) Hrun Hstatus.
  unfold serve, handlers in Hrun. apply run_cons_inv in Hrun.
  destruct Hrun as [(req1 & w1 & Hauth & Hrun) | [(res' & Hauth & ?) | (e & ? & ?)]];
    [| | discriminate].
  2: { apply authToken_inv in Hauth. destruct Hauth as [? | (? & ? & _)]; discriminate. }
  assert (Hno : ∀ w0 s w0', delete_token req w0 = (Returned s, w0') →
                            s = End (json_status 403 (ErrorCode "no_policy"))).
  { intros w0 s w0'. unfold delete_token. rewrite Hfresh. cbn [truthy_opt negb].
    intros H. cbv [mret M_ret ret] in H. by simplify_eq. }
  apply run_cons_inv in Hrun.
  destruct Hrun as [(req2 & w2 & Hdel & _) | [(res' & Hdel & ?) | (e & ? & ?)]];
    [| | discriminate]; simplify_eq.
  { rewrite authToken_run in Hauth.
    destruct (presented_token req) as [tok |];
      [destruct (storage w !! ZncProxyAuthPolicy tok) as [[| | | a] |] |];
      simplify_eq; try (by apply Hno in Hdel).
    eapply delete_token_inv in Hdel; [| done | done].
    by destruct Hdel as [(? & _) | (? & _)]. }
  rewrite authToken_run in Hauth.
  destruct (presented_token req) as [tok |];
    [destruct (storage w !! ZncProxyAuthPolicy tok) as [[| | | a] |] eqn:Hentry |];
    simplify_eq; try (apply Hno in Hdel; by simplify_eq).
  eapply delete_token_inv in Hdel; [| done | done].
  destruct Hdel as [(? & _) | (? & Hst)]; [by simplify_eq |].
  exists tok, a. split; [done |]. split; [done |].
  unfold policy_entry. rewrite Hst. cbn [storage elapse]. split.
  - rewrite lookup_insert_ne
      by (intros Hk; symmetry in Hk; revert Hk; apply ZncProxyAuthPolicy_ZncProxyAuthPolicies).
    apply lookup_delete_eq.
  - intros t Hne.
    rewrite lookup_insert_ne
      by (intros Hk; symmetry in Hk; revert Hk; apply ZncProxyAuthPolicy_ZncProxyAuthPolicies).
    apply lookup_delete_ne. intros Hk. by apply ZncProxyAuthPolicy_inj in Hk.
Qed.

(** X14. A revoked proxy token no longer resolves: a later request that
    presents the same token is answered 403 [no_policy] by the token
    endpoint, while the entries of all other tokens are as before. *)
Theorem revoked_token_is_unknown (req req' : Request) (w w1 : World) (res : Response) :
  incoming req → incoming req' →
  serve E argv DELETE_token req w = (Returned res, w1) →
  statusCode res = 204 →
  presented_token req' = presented_token req →
  serve E argv GET_token req' w1
  = (Returned (json_status 403 (ErrorCode "no_policy")), elapse w1)
  ∧ ∀ t, presented_token req ≠ Some t → policy_entry w1 t = policy_entry w t.
Proof.
  intros Hin Hin' Hrevoke Hstatus Hsame.
  destruct (revoke_inv req w w1 res Hin Hrevoke Hstatus) as (tok & a & Htok & _ & Hgone & Hothers).
  split.
  - destruct Hin' as (_ & _ & _ & _ & Hfresh).
    assert (Hrun : authToken req' w1 = (Returned (Next req'), elapse w1)).
    { rewrite authToken_run, Hsame, Htok. unfold policy_entry in Hgone. by rewrite Hgone. }
    unfold serve. cbn [handlers]. rewrite (run_next _ _ _ _ _ _ Hrun).
    apply run_end. unfold get_token. by rewrite Hfresh.
  - intros t Hne. apply Hothers. intros ->. by rewrite Htok in Hne.
Qed.

Lemma mapM_entries (l : list string) (w w' : World) (found : list (option TokenInfo)) :
  mapM (fun tid =>
          a ← getItem ("ZncProxyAuthPolicy." +:+ tid) ≫= as_AuthToken;
          ret (match a with
               | None => None
               | Some a => Some {| ti_token := tid; ti_user := at_user a;
                                   ti_policy := policy a;
                                   ti_created_at := created_at a |}
               end)) l w = (Returned found, w') →
  storage w' = storage w ∧ found = token_info w <$> l.
Proof.
  revert w w' found. induction l as [| tid l IH]; intros w w' found; cbn [mapM].
  - intros H. cbv in H. by simplify_eq.
  - rewrite run_bind. rewrite run_bind. unfold mbind at 1, M_bind, bind.
    rewrite run_getItem.
    assert (Hinfo : ∀ o (w0 : World), storage w !! ZncProxyAuthPolicy tid = o →
      match as_AuthToken o w0 with
      | (Returned a, w1) =>
          match a with
          | None => Returned None
          | Some a => Returned (Some {| ti_token := tid; ti_user := at_user a;
                                       ti_policy := policy a;
                                       ti_created_at := created_at a |})
          end = Returned (token_info w tid) ∧ w1 = w0
      | (Thrown _, _) => True
      end).
    { intros o w0 Ho. unfold token_info, policy_entry. rewrite Ho.
      by destruct o as [[| | |] |]. }
    specialize (Hinfo _ (elapse w) eq_refl). unfold ZncProxyAuthPolicy in Hinfo.
    destruct (as_AuthToken _ (elapse w)) as [[a | e] w1]; [| discriminate].
    destruct Hinfo as [Hinfo ->]. cbv [mret M_ret ret].
    rewrite run_bind.
    destruct (mapM _ l (elapse w)) as [[found' | e] w2] eqn:Hrest; [| discriminate].
    apply IH in Hrest. destruct Hrest as [Hst ->].
    intros H. cbv [ret] in H. injection H as <- <-.
    split; [done |]. cbn [fmap list_fmap]. f_equal.
    destruct a; by simplify_eq.
Qed.

(** X15. The token listing reads the user's recorded token ids and
    answers with the entries that exist, in the recorded order: a
    recorded id without an entry is left out, nothing is written, and
    each listed token carries the user, policy and creation time of its
    entry. *)
Theorem tokens_listing (req : Request) (w w' : World) (s : Step) (auth : SavedToken) :
  zncAuth req = Some auth →
  get_tokens req w = (Returned s, w') →
  storage w' = storage w
  ∧ s = End (json (TokensBody (omap (token_info w) (tokens_of w (id (user auth))))))
  ∧ ∀ tid, tid ∈ tokens_of w (id (user auth)) →
      policy_entry w tid = None →
      ∀ info, info ∈ omap (token_info w) (tokens_of w (id (user auth))) →
              ti_token info ≠ tid.
Proof.
  intros Hauth. unfold get_tokens. rewrite run_bind, Hauth. cbn [nonnull].
  cbv [mret M_ret ret]. rewrite run_bind. unfold mbind at 1, M_bind, bind.
  rewrite run_getItem.
  assert (Hids : ∀ o (w0 : World), storage w !! ZncProxyAuthPolicies (id (user auth)) = o →
    match as_strings o w0 with
    | (Returned ids, w1) => default [] ids = tokens_of w (id (user auth)) ∧ w1 = w0
    | (Thrown _, _) => True
    end).
  { intros o w0 Ho. unfold tokens_of. rewrite Ho. by destruct o as [[| | |] |]. }
  specialize (Hids _ (elapse w) eq_refl). unfold ZncProxyAuthPolicies in Hids.
  destruct (as_strings _ (elapse w)) as [[ids | e] w1]; [| discriminate].
  destruct Hids as [-> ->]. rewrite run_bind.
  destruct (mapM _ _ (elapse w)) as [[found | e] w2] eqn:Hmap; [| discriminate].
  apply mapM_entries in Hmap. destruct Hmap as [Hst ->].
  intros H. cbv [ret] in H. injection H as <- <-.
  split; [done |]. split.
  - do 3 f_equal. induction (tokens_of w (id (user auth))) as [| t l IH]; [done |].
    change (token_info (elapse w)) with (token_info w) in *.
    cbn [fmap list_fmap omap list_omap]. rewrite IH. by destruct (token_info w t).
  - intros tid _ Hnone info Hin Heq.
    apply list_elem_of_omap in Hin. destruct Hin as (t & _ & Hinfo).
    unfold token_info in Hinfo.
    destruct (policy_entry w t) as [[| | | a] |] eqn:Ht; try discriminate.
    injection Hinfo as <-. cbn in Heq. subst t. congruence.
Qed.

End TokenLifecycle.

(** ** Where a denial comes from *)

Lemma run_not_denied (chain : list Middleware) :
  List.Forall (fun m : Middleware => ∀ req, returns not_denied (m req)) chain →
  ∀ req, returns (fun res => res ≠ tokenUnauthorised) (run chain req).
Proof.
  induction 1 as [| m chain Hm _ IH]; intros req; cbn [run].
  - by apply returns_ret.
  - apply (returns_bind_post not_denied); [apply Hm |].
    intros [req' | res] Hs; [apply IH | by apply returns_ret].
Qed.

Section Denial.
Context (E : Env) (argv : Argv).

Ltac not_denied_step :=
  post; cbn [not_denied]; try done.

Lemma authToken_not_denied (req : Request) : returns not_denied (authToken req).
Proof. unfold authToken. not_denied_step. Qed.

Lemma localAuth_not_denied (req : Request) : returns not_denied (localAuth argv req).
Proof. unfold localAuth. not_denied_step. Qed.

Lemma nsoAuth_not_denied (req : Request) : returns not_denied (nsoAuth E argv req).
Proof. unfold nsoAuth. not_denied_step. Qed.

Lemma getAppData_not_denied (req : Request) : returns not_denied (getAppData E argv req).
Proof. unfold getAppData. not_denied_step. Qed.

Lemma getUserData_not_denied (req : Request) : returns not_denied (getUserData E argv req).
Proof. unfold getUserData. not_denied_step. Qed.

Lemma endpoints_not_denied (req : Request) :
  returns not_denied (get_auth req)
  ∧ returns not_denied (get_token req)
  ∧ returns not_denied (delete_token req)
  ∧ returns not_denied (get_tokens req)
  ∧ returns not_denied (post_tokens E req)
  ∧ returns not_denied (get_announcements E req)
  ∧ returns not_denied (get_friends req)
  ∧ returns not_denied (get_friends_presence req)
  ∧ returns not_denied (get_friend req)
  ∧ returns not_denied (get_friend_presence req)
  ∧ returns not_denied (get_webservices req)
  ∧ returns not_denied (get_webservice_token E req)
  ∧ returns not_denied (get_activeevent req)
  ∧ returns not_denied (get_user req)
  ∧ returns not_denied (get_user_presence req).
Proof.
  repeat split;
    unfold get_auth, get_token, delete_token, get_tokens, post_tokens, get_announcements,
      get_friends, get_friends_presence, get_friend, get_friend_presence, get_webservices,
      get_webservice_token, get_activeevent, get_user, get_user_presence, appdata, userdata;
    not_denied_step.
Qed.

Lemma ungated_not_denied (r : Route) :
  policy_check r = None →
  List.Forall (fun m : Middleware => ∀ req, returns not_denied (m req)) (handlers E argv r).
Proof.
  destruct r; intros H; cbn in H; try discriminate; cbn [handlers];
    repeat (apply List.Forall_cons || apply List.Forall_nil);
    intros req;
    first [apply authToken_not_denied | apply nsoAuth_not_denied | apply endpoints_not_denied].
Qed.

Lemma gated_not_denied (r : Route) (allowed : AuthPolicy → Request → bool) :
  policy_check r = Some allowed →
  ∃ rest, handlers E argv r = authToken :: gate allowed :: rest
          ∧ List.Forall (fun m : Middleware => ∀ req, returns not_denied (m req)) rest.
Proof.
  destruct r; intros H; cbn in H; simplify_eq; cbn [handlers]; eexists; (split; [done |]);
    repeat (apply List.Forall_cons || apply List.Forall_nil);
    intros req;
    first [apply localAuth_not_denied | apply nsoAuth_not_denied | apply getAppData_not_denied
          | apply getUserData_not_denied | apply endpoints_not_denied].
Qed.

(** X16. The answer 403 [token_unauthorised] has one cause: the request
    presented a proxy token whose stored entry carries a policy that
    forbids the route.  It is then sent after the single read of the
    token's entry, before any session is looked up; a request without a
    proxy token, or with a token issued without a policy, is never
    answered so. *)
Theorem denial_only_from_policy (r : Route) (req : Request) (w w' : World) :
  incoming req →
  serve E argv r req w = (Returned tokenUnauthorised, w') →
  ∃ allowed tok a p,
    policy_check r = Some allowed
    ∧ resolved w req = Some (tok, a)
    ∧ policy a = Some p
    ∧ allowed p req = false
    ∧ w' = elapse w.
Proof.
  intros (_ & _ & Hnone & _) Hrun. unfold serve in Hrun.
  destruct (policy_check r) as [allowed |] eqn:Hr.
  2: { exfalso. by eapply (run_not_denied _ (ungated_not_denied r Hr)). }
  destruct (gated_not_denied r allowed Hr) as (rest & Hh & Hrest). rewrite Hh in Hrun.
  apply run_cons_inv in Hrun.
  destruct Hrun as [(req1 & w1 & Hauth & Hrun) | [(res' & Hauth & ?) | (e & ? & ?)]];
    [| | discriminate].
  2: { apply authToken_inv in Hauth. destruct Hauth as [? | (? & ? & _)]; discriminate. }
  assert (Hw1 : resolved w req ≠ None → w1 = elapse w).
  { rewrite authToken_run in Hauth. unfold resolved.
    destruct (presented_token req); [| done]. intros _.
    by destruct (storage w !! ZncProxyAuthPolicy _) as [[| | |] |]; simplify_eq. }
  apply authToken_inv in Hauth.
  destruct Hauth as [? | (req1' & Heq & Hpol & Hparams & Hcases)]; [discriminate |].
  injection Heq as <-.
  apply run_cons_inv in Hrun.
  destruct Hrun as [(req2 & w2 & Hgate & Hrun) | [(res' & Hgate & ?) | (e & ? & ?)]];
    [| | discriminate].
  { exfalso. by eapply (run_not_denied _ Hrest). }
  rewrite gate_run in Hgate. injection Hgate as Hstep Hw.
  unfold policy_after_authToken in Hpol.
  destruct (resolved w req) as [[tok a] |] eqn:Hres.
  - rewrite Hpol in Hstep. destruct (policy a) as [p |] eqn:Hp; [| discriminate].
    destruct (allowed p req1) eqn:Hallowed; [discriminate |].
    exists allowed, tok, a, p.
    split; [done |]. split; [done |]. split; [done |]. split.
    + by rewrite (policy_check_params r allowed p req req1 Hr).
    + rewrite <- Hw. by apply Hw1.
  - rewrite Hpol, Hnone in Hstep. discriminate.
Qed.

(** X20. The user's presence needs a permission of its own: a policy
    that sets [current_user_presence] to false is denied on
    [GET /user/presence] whatever it grants on [current_user], and a
    policy that leaves it out is denied as well. *)
Theorem user_presence_needs_own_flag (req : Request) (w : World) (tok : string)
    (a : AuthToken) (p : AuthPolicy) :
  resolved w req = Some (tok, a) →
  policy a = Some p →
  current_user_presence p ≠ Some true →
  serve E argv GET_user_presence req w = (Returned tokenUnauthorised, elapse w).
Proof.
  intros Hres Hpol Hflag.
  apply (serve_denied E argv GET_user_presence allow_current_user_presence req w tok a p);
    [done | done | done |].
  unfold allow_current_user_presence.
  by destruct (current_user_presence p) as [[|] |].
Qed.

End Denial.

(** ** The [friends] command *)

Section FriendsCommand.
Context (E : Env).

Lemma run_ret_bind {A B} (a : A) (k : A → M B) (w : World) : (ret a ≫= k) w = k a w.
Proof. reflexivity. Qed.

(** X18. The [friends] command without [--token] acts on the session
    token that [getToken] last recorded for the user: run for that user
    after a successful [getToken], it behaves as the command given this
    token explicitly, one read of the store later. *)
Theorem friends_command_uses_recorded_token (argv : Friends.Arguments) (t : string)
    (url : option string) (w w1 : World) (nso : Nso) (saved : SavedToken) :
  Util.getToken E t url w = (Returned (nso, saved), w1) →
  Friends.user argv = Some (id (user saved)) →
  Friends.token argv = None →
  Friends.handler E argv w1 = Friends.handler E (with_token t argv) (elapse w1).
Proof.
  intros Hrun Hu Ht.
  destruct (getToken_returned_store E t url w w1 nso saved Hrun) as (Htruthy & Hid & _).
  unfold Friends.handler.
  cbn [with_token Friends.user Friends.token Friends.json Friends.jsonPrettyPrint
       Friends.zncProxyUrl].
  rewrite Hu, Ht. cbn [truthy_opt]. rewrite Htruthy.
  match goal with |- (_ ≫= λ _, _ ≫= λ _, _ ≫= ?k) _ = _ => set (rest := k) end.
  rewrite (run_bind (await (ret ()))), (run_bind (await (ret ())) _ (elapse w1)).
  change (await (ret ()) w1) with (Returned (), elapse w1).
  change (await (ret ()) (elapse w1)) with (Returned (), elapse (elapse w1)).
  cbv beta iota. rewrite !run_ret_bind, !run_bind, run_getItem. cbn [default from_option Datatypes.id].
  fold (NintendoAccountToken (id (user saved))).
  change (storage (elapse w1)) with (storage w1). by rewrite Hid.
Qed.

(** The command from the call of [getToken] on. *)
Lemma handler_run (argv : Friends.Arguments) (w : World) (tok : string) :
  is_Some (Friends.user argv) ∨ selected_user_readable w →
  command_token argv w = Some tok →
  Friends.handler E argv w =
    match Util.getToken E tok (Friends.zncProxyUrl argv) (session_start argv w) with
    | (Thrown e, w1) => (Thrown e, w1)
    | (Returned (nso, data), w1) =>
      let w2 := elapse (with_trace (GetAnnouncements nso) w1) in
      let w3 := elapse (with_trace (GetFriendList nso) w2) in
      let w4 := elapse (with_trace (GetWebServices nso) w3) in
      let w5 := elapse (with_trace (GetActiveEvent nso) w4) in
      match getAnnouncements E nso (clock w1) (trace w1) with
      | inl e => (Thrown e, w2)
      | inr _ =>
        match getFriendList E nso (clock w2) (trace w2) with
        | inl e => (Thrown e, w3)
        | inr friends' =>
          match getWebServices E nso (clock w3) (trace w3) with
          | inl e => (Thrown e, w4)
          | inr _ =>
            match getActiveEvent E nso (clock w4) (trace w4) with
            | inl e => (Thrown e, w5)
            | inr _ =>
              (Returned (if Friends.jsonPrettyPrint argv then Friends.PrettyJson friends'
                         else if Friends.json argv then Friends.Json friends'
                         else Friends.Table friends'), w5)
            end
          end
        end
      end
    end.
Proof.
  intros Huser Htok. unfold Friends.handler.
  match goal with |- (_ ≫= λ _, _ ≫= λ _, _ ≫= ?k) _ = _ => set (rest := k) end.
  assert (Hprefix : (await (ret ()) ≫= λ _,
                       match Friends.user argv with
                       | Some u => ret (Some u)
                       | None => getItem "SelectedUser" ≫= as_string
                       end ≫= λ usernsid,
                         (if truthy_opt (Friends.token argv) then ret (Friends.token argv)
                          else getItem ("NintendoAccountToken."
                                        +:+ default "undefined" usernsid) ≫= as_string)
                         ≫= rest) w
                    = rest (Some tok) (session_start argv w)).
  { rewrite run_bind. change (await (ret ()) w) with (Returned (), elapse w). cbv beta iota.
    unfold command_token, selected_user, session_start in *.
    assert (Hsel : ∃ usernsid,
              (match Friends.user argv with
               | Some u => ret (Some u)
               | None => getItem "SelectedUser" ≫= as_string
               end) (elapse w)
              = (Returned usernsid,
                 if defined (Friends.user argv) then elapse w else elapse (elapse w))
              ∧ usernsid = match Friends.user argv with
                           | Some u => Some u
                           | None => match storage w !! "SelectedUser" with
                                     | Some (VString s) => Some s
                                     | _ => None
                                     end
                           end).
    { destruct (Friends.user argv) as [u |]; [by eexists |].
      destruct Huser as [[? ?] | Hread]; [discriminate |].
      unfold selected_user_readable in Hread.
      rewrite run_bind, run_getItem. change (storage (elapse w)) with (storage w).
      destruct (storage w !! "SelectedUser") as [[| | |] |]; try done; by eexists. }
    destruct Hsel as (usernsid & Hsel & Husernsid). rewrite run_bind, Hsel. clear Hsel.
    rewrite <- Husernsid in Htok. cbv zeta.
    destruct (truthy_opt (Friends.token argv)).
    - rewrite run_ret_bind. by rewrite Htok.
    - rewrite run_bind, run_bind, run_getItem.
      unfold NintendoAccountToken in Htok.
      assert (Hst : storage (if defined (Friends.user argv) then elapse w
                             else elapse (elapse w)) = storage w)
        by by destruct (defined (Friends.user argv)).
      rewrite Hst.
      destruct (storage w !! _) as [[| s | |] |]; try discriminate.
      injection Htok as ->. reflexivity. }
  rewrite Hprefix. unfold rest. cbn [default from_option Datatypes.id].
  rewrite run_bind.
  destruct (Util.getToken E tok _ _) as [[[nso data] | e] w1]; [| reflexivity].
  cbv zeta. rewrite run_bind, run_request.
  destruct (getAnnouncements E nso _ _) as [e | a]; [reflexivity |].
  rewrite run_bind, run_request.
  destruct (getFriendList E nso _ _) as [e | f]; [reflexivity |].
  rewrite run_bind, run_request.
  destruct (getWebServices E nso _ _) as [e | ws]; [reflexivity |].
  rewrite run_bind, run_request.
  destruct (getActiveEvent E nso _ _) as [e | ae]; [reflexivity |].
  by destruct (Friends.jsonPrettyPrint argv), (Friends.json argv).
Qed.

(** A command that prints has found its account and a token. *)
Lemma handler_returned_token (argv : Friends.Arguments) (w w' : World) (out : Friends.Output) :
  Friends.handler E argv w = (Returned out, w') →
  (is_Some (Friends.user argv) ∨ selected_user_readable w)
  ∧ ∃ tok, command_token argv w = Some tok.
Proof.
  unfold Friends.handler. rewrite run_bind.
  change (await (ret ()) w) with (Returned (), elapse w). cbv beta iota.
  rewrite run_bind. intros Hrun.
  assert (Huser : is_Some (Friends.user argv) ∨ selected_user_readable w).
  { destruct (Friends.user argv) as [u |]; [left; by eexists | right].
    unfold selected_user_readable. rewrite run_bind, run_getItem in Hrun.
    change (storage (elapse w)) with (storage w) in Hrun.
    by destruct (storage w !! "SelectedUser") as [[| | |] |]. }
  split; [exact Huser |].
  destruct (command_token argv w) as [tok |] eqn:Htok; [by eexists |]. exfalso.
  unfold command_token in Htok.
  destruct (truthy_opt (Friends.token argv)) eqn:Hgiven.
  { destruct (Friends.token argv); discriminate. }
  assert (Hsel : match Friends.user argv with
                 | Some u => ret (Some u)
                 | None => getItem "SelectedUser" ≫= as_string
                 end (elapse w)
                 = (Returned (selected_user argv w),
                    if defined (Friends.user argv) then elapse w else elapse (elapse w))).
  { unfold selected_user. destruct (Friends.user argv) as [u |]; [done |].
    destruct Huser as [[? ?] | Hread]; [discriminate |].
    unfold selected_user_readable in Hread.
    rewrite run_bind, run_getItem. change (storage (elapse w)) with (storage w).
    by destruct (storage w !! "SelectedUser") as [[| | |] |]. }
  rewrite Hsel in Hrun. rewrite run_bind, run_bind, run_getItem in Hrun.
  assert (Hst : storage (if defined (Friends.user argv) then elapse w
                         else elapse (elapse w)) = storage w)
    by by destruct (defined (Friends.user argv)).
  rewrite Hst in Hrun. unfold NintendoAccountToken in Htok.
  destruct (storage w !! _) as [[| s | |] |]; try discriminate.
Qed.

(** X19. When the [friends] command prints, it has resolved one session
    token, the one of [--token] or else the one stored for the account,
    by one call of [getToken] made once the store was read; it has then
    sent the requests for the announcements, the friend list, the web
    services and the active event, in this order and nothing else; what
    it prints is the friend list it was answered by the second of
    these requests; and [--json-pretty-print] takes precedence over
    [--json]. *)
Theorem friends_command_requests (argv : Friends.Arguments) (w w' : World)
    (out : Friends.Output) :
  Friends.handler E argv w = (Returned out, w') →
  ∃ tok nso data w1,
    let w2 := elapse (with_trace (GetAnnouncements nso) w1) in
    let w3 := elapse (with_trace (GetFriendList nso) w2) in
    let w4 := elapse (with_trace (GetWebServices nso) w3) in
    command_token argv w = Some tok
    ∧ Util.getToken E tok (Friends.zncProxyUrl argv) (session_start argv w)
      = (Returned (nso, data), w1)
    ∧ (trace w1 = trace w
       ∨ trace w1 = (trace w ++ [exchange_call (Friends.zncProxyUrl argv) tok])%list)
    ∧ w' = elapse (with_trace (GetActiveEvent nso) w4)
    ∧ trace w' = (trace w1 ++ [GetAnnouncements nso; GetFriendList nso;
                               GetWebServices nso; GetActiveEvent nso])%list
    ∧ getFriendList E nso (clock w2) (trace w2) = inr (printed out)
    ∧ out = (if Friends.jsonPrettyPrint argv then Friends.PrettyJson (printed out)
             else if Friends.json argv then Friends.Json (printed out)
             else Friends.Table (printed out)).
Proof.
  intros Hrun.
  destruct (handler_returned_token argv w w' out Hrun) as (Huser & tok & Htok).
  rewrite (handler_run argv w tok Huser Htok) in Hrun.
  destruct (Util.getToken E tok _ _) as [[[nso data] | e] w1] eqn:Hget; [| discriminate].
  cbv zeta in Hrun.
  destruct (getAnnouncements E nso _ _) as [e | a]; [discriminate |].
  destruct (getFriendList E nso _ _) as [e | f] eqn:Hf; [discriminate |].
  destruct (getWebServices E nso _ _) as [e | ws]; [discriminate |].
  destruct (getActiveEvent E nso _ _) as [e | ae]; [discriminate |].
  injection Hrun as <- <-.
  exists tok, nso, data, w1. cbv zeta.
  split; [done |]. split; [done |].
  split.
  { apply getToken_trace in Hget.
    assert (Hstart : trace (session_start argv w) = trace w).
    { unfold session_start.
      by destruct (defined (Friends.user argv)), (truthy_opt (Friends.token argv)). }
    by rewrite Hstart in Hget. }
  split; [done |].
  split; [cbn [trace elapse with_trace]; by rewrite <- !app_assoc |].
  split.
  - rewrite Hf. unfold printed.
    by destruct (Friends.jsonPrettyPrint argv), (Friends.json argv).
  - unfold printed. by destruct (Friends.jsonPrettyPrint argv), (Friends.json argv).
Qed.

(** X21. The [friends] command prints the friend list only, yet every
    one of its four requests has to be answered: in a run in which the
    session is resolved and the request for the announcements, the
    friend list, the web services or the active event fails, the
    command throws the error of the first request that failed and
    prints nothing; the store is as the session resolution left it. *)
Theorem friends_command_needs_every_answer (argv : Friends.Arguments) (w w1 : World)
    (tok : string) (nso : Nso) (data : SavedToken) (err : Error) :
  is_Some (Friends.user argv) ∨ selected_user_readable w →
  command_token argv w = Some tok →
  Util.getToken E tok (Friends.zncProxyUrl argv) (session_start argv w)
  = (Returned (nso, data), w1) →
  command_fetch_fails E nso w1 err →
  ∃ w', Friends.handler E argv w = (Thrown err, w')
        ∧ storage w' = storage w1.
Proof.
  intros Huser Htok Hget Hfail.
  rewrite (handler_run argv w tok Huser Htok), Hget. cbv zeta.
  unfold command_fetch_fails in Hfail. cbv zeta in Hfail.
  destruct Hfail as [-> | [[a ->] [-> | [[fs ->] [-> | [[ws ->] ->]]]]]]; by eexists.
Qed.

(** X23. Without a usable [--token] and without a session token
    recorded for the account, the [friends] command fails with
    [Invalid token]: nothing is requested upstream and the store is
    left as it was.  The account is [--user] or else the selected user
    of the store; with neither, the key read is
    [NintendoAccountToken.undefined]. *)
Theorem friends_command_without_token (argv : Friends.Arguments) (w : World) :
  truthy_opt (Friends.token argv) = false →
  is_Some (Friends.user argv) ∨ selected_user_readable w →
  storage w !! NintendoAccountToken (default "undefined" (selected_user argv w)) = None →
  ∃ w', Friends.handler E argv w = (Thrown (mkError "Invalid token"), w')
        ∧ storage w' = storage w ∧ trace w' = trace w.
Proof.
  intros Hno Huser Hmissing. unfold Friends.handler, selected_user in *.
  rewrite run_bind. change (await (ret ()) w) with (Returned (), elapse w). cbv beta iota.
  rewrite Hno.
  assert (Hu : ∃ wa, (match Friends.user argv with
                      | Some u => ret (Some u)
                      | None => getItem "SelectedUser" ≫= as_string
                      end) (elapse w)
                     = (Returned match Friends.user argv with
                                 | Some u => Some u
                                 | None => match storage w !! "SelectedUser" with
                                           | Some (VString s) => Some s
                                           | _ => None
                                           end
                                 end, wa)
                     ∧ storage wa = storage w ∧ trace wa = trace w).
  { destruct (Friends.user argv) as [u |]; [by eexists |].
    destruct Huser as [[? ?] | Hread]; [discriminate |]. unfold selected_user_readable in Hread.
    rewrite run_bind, run_getItem. change (storage (elapse w)) with (storage w).
    destruct (storage w !! "SelectedUser") as [[| | |] |]; try done; by eexists. }
  destruct Hu as (wa & Hu & Hst & Htr).
  rewrite run_bind, Hu. rewrite run_bind, run_bind, run_getItem.
  unfold NintendoAccountToken in Hmissing. rewrite Hst, Hmissing.
  eexists. split; [reflexivity |]. by cbn [storage trace elapse].
Qed.

End FriendsCommand.

(** ** The Discord users of the desktop application *)

Section DiscordUsers.
Import Ipc.

Lemma find_user_None (users : list DiscordUser) (u : DiscordUser) :
  find_user users u = None ↔ du_id u ∉ du_id <$> users.
Proof.
  unfold find_user. induction users as [| v users IH]; cbn.
  - split; [intros _; apply not_elem_of_nil | done].
  - rewrite not_elem_of_cons. destruct (String.eqb_spec (du_id v) (du_id u)) as [Heq | Hne].
    + split; [done | intros [Hne _]; by destruct Hne].
    + rewrite IH. split; [done | tauto].
Qed.

Lemma discord_users_from_spec (clients : list Client) (users result : list DiscordUser)
    (calls : list RpcCall) :
  discord_users_from clients users = (calls, inr result) →
  NoDup (du_id <$> users) →
  NoDup (du_id <$> result)
  ∧ users `prefix_of` result
  ∧ (∀ u, u ∈ result → u ∈ users ∨ ∃ c, c ∈ clients ∧ connect c = inr (Some u))
  ∧ (∀ c u, c ∈ clients → connect c = inr (Some u) → du_id u ∈ du_id <$> result)
  ∧ calls = (clients ≫= fun c => [Connect c; Destroy c]).
Proof.
  revert users calls. induction clients as [| c rest IH]; intros users calls; cbn.
  - intros H Hnd. injection H as <- <-.
    split; [done |]. split; [done |]. split; [by left |]. split; [| done].
    intros c u Hc. by apply elem_of_nil in Hc.
  - destruct (connect c) as [e | u] eqn:Hconnect; [discriminate |].
    destruct (destroy c) as [e |]; [discriminate |].
    destruct (discord_users_from rest _) as [calls' r] eqn:Hrest.
    intros H Hnd. injection H as <- ->.
    apply IH in Hrest.
    2: { destruct u as [u |]; [| done].
         destruct (find_user users u) eqn:Hfind; cbn [defined negb]; [done |].
         rewrite fmap_app. apply NoDup_app. split; [done |]. split.
         - intros x Hx Hx'. apply list_elem_of_singleton in Hx'. subst x.
           by apply find_user_None in Hfind.
         - apply NoDup_singleton. }
    destruct Hrest as (Hnd' & Hpre & Hfrom & Hall & ->).
    split; [done |]. split; [| split; [| split]].
    + etrans; [| exact Hpre]. destruct u as [u |]; [| done].
      destruct (negb _); [by apply prefix_app_r | done].
    + intros v Hv. destruct (Hfrom v Hv) as [Hin | (c' & Hc' & Hcon)].
      * destruct u as [u |]; [| by left].
        destruct (negb _); [| by left].
        apply elem_of_app in Hin. destruct Hin as [Hin | Hin]; [by left |].
        apply list_elem_of_singleton in Hin. subst v.
        right. exists c. split; [apply elem_of_cons; by left | done].
      * right. exists c'. split; [apply elem_of_cons; by right | done].
    + intros c' v Hc' Hcon. apply elem_of_cons in Hc'. destruct Hc' as [-> | Hc'].
      * rewrite Hconnect in Hcon. injection Hcon as ->.
        assert (Hin : du_id v ∈ du_id <$>
                  (if negb (defined (find_user users v)) then (users ++ [v])%list else users)).
        { destruct (find_user users v) eqn:Hfind; cbn [defined negb].
          - destruct (decide (du_id v ∈ du_id <$> users)) as [Hin | Hout]; [done |].
            apply find_user_None in Hout. congruence.
          - rewrite fmap_app. apply elem_of_app. right. by apply list_elem_of_singleton. }
        destruct Hpre as [tail ->]. rewrite fmap_app. apply elem_of_app. by left.
      * by eapply Hall.
    + done.
Qed.

(** X24. The list of Discord users that the desktop application
    collects holds no two users with the same id; it holds a user for
    every client that connected with one, and only such users; and its
    clients were each connected and then destroyed, in order. *)
Theorem discord_users_distinct (clients : list Client) (result : list DiscordUser)
    (calls : list RpcCall) :
  discord_users clients = (calls, inr result) →
  NoDup (du_id <$> result)
  ∧ (∀ u, u ∈ result → ∃ c, c ∈ clients ∧ connect c = inr (Some u))
  ∧ (∀ c u, c ∈ clients → connect c = inr (Some u) → du_id u ∈ du_id <$> result)
  ∧ calls = (clients ≫= fun c => [Connect c; Destroy c]).
Proof.
  intros Hrun. apply discord_users_from_spec in Hrun; [| apply NoDup_nil_2].
  destruct Hrun as (Hnd & _ & Hfrom & Hall & Hcalls).
  split; [done |]. split; [| done].
  intros u Hu. destruct (Hfrom u Hu) as [Hin | ?]; [by apply elem_of_nil in Hin | done].
Qed.

Lemma discord_users_from_failure (before after : list Client) (c : Client) (e : Error)
    (users : list DiscordUser) :
  Forall (fun c' => client_failure c' = None) before →
  client_failure c = Some e →
  discord_users_from (before ++ c :: after)%list users
  = ((before ++ [c])%list ≫= (fun c' => [Connect c'; Destroy c']), inl e).
Proof.
  intros Hbefore Hc. revert users.
  induction Hbefore as [| c0 before Hc0 _ IH]; intros users; cbn.
  - unfold client_failure in Hc.
    destruct (connect c) as [e0 | u]; destruct (destroy c) as [e1 |]; by simplify_eq.
  - unfold client_failure in Hc0.
    destruct (connect c0) as [e0 | u]; destruct (destroy c0) as [e1 |]; try discriminate.
    by rewrite IH.
Qed.

Lemma discord_users_from_success (clients : list Client) (users : list DiscordUser) :
  Forall (fun c => client_failure c = None) clients →
  ∃ result, discord_users_from clients users
            = (clients ≫= (fun c => [Connect c; Destroy c]), inr result).
Proof.
  intros Hclients. revert users.
  induction Hclients as [| c clients Hc _ IH]; intros users; cbn.
  - by eexists.
  - unfold client_failure in Hc.
    destruct (connect c) as [e0 | u]; destruct (destroy c) as [e1 |]; try discriminate.
    match goal with |- context [discord_users_from clients ?us] =>
      destruct (IH us) as [result ->] end.
    by eexists.
Qed.

(** X25. The collection of Discord users stops at the first client that
    fails.  Up to and including that client every client is connected
    and then destroyed, the failing one also when its [connect] threw;
    no later client is contacted; and the handler throws the error of
    that client, the one of [destroy] when it throws, else the one of
    [connect].  When no client fails, every client is connected and
    destroyed and a list is returned. *)
Theorem discord_users_cleanup :
  (∀ before after c e,
     Forall (fun c' => client_failure c' = None) before →
     client_failure c = Some e →
     discord_users (before ++ c :: after)%list
     = ((before ++ [c])%list ≫= (fun c' => [Connect c'; Destroy c']), inl e))
  ∧ (∀ clients,
       Forall (fun c => client_failure c = None) clients →
       ∃ result, discord_users clients
                 = (clients ≫= (fun c => [Connect c; Destroy c]), inr result)).
Proof.
  split.
  - intros before after c e. apply discord_users_from_failure.
  - intros clients. apply discord_users_from_success.
Qed.

End DiscordUsers.

(** ** Worked examples *)

(** Alice's data was fetched at 1000 ms and the interval is 30 s: at
    6000 ms it is reused. *)
Lemma getAppData_cache_window_witness :
  let w := Scenario.fetched 1000 (Example.world ∅ 6000 1) in
  getAppData Example.env Example.argv Scenario.session_request w
  = (Returned (Next Scenario.session_request), w).
Proof.
  cbv zeta.
  refine (proj1 (getAppData_cache_window Example.env Example.argv Scenario.session_request
                   (Scenario.fetched 1000 (Example.world ∅ 6000 1)) Scenario.credential
                   (ZncApi "access") _ _ _ 1000 eq_refl eq_refl _) _).
  - reflexivity.
  - vm_compute. reflexivity.
Defined.

(** Nothing is cached for Alice: her data is fetched and stored. *)
Lemma getAppData_refresh_witness :
  let w := Example.world ∅ 6000 1 in
  let w' := (getAppData Example.env Example.argv Scenario.session_request w).2 in
  trace w' = [GetFriendList (ZncApi "access"); GetWebServices (ZncApi "access");
              GetActiveEvent (ZncApi "access")]
  ∧ cached_appdata w' !! "a1" = Some ([Example.bob; Example.carol], [], Scenario.no_event, 6003).
Proof.
  cbv zeta.
  set (w := Example.world ∅ 6000 1).
  set (w' := (getAppData Example.env Example.argv Scenario.session_request w).2).
  assert (Hrun : getAppData Example.env Example.argv Scenario.session_request w
                 = (Returned (Next Scenario.session_request), w'))
    by (vm_compute; reflexivity).
  destruct (getAppData_refresh Example.env Example.argv Scenario.session_request w
              Scenario.credential (ZncApi "access") _ w' eq_refl eq_refl I Hrun eq_refl)
    as (Htrace & Hclock & (fs & ws & ae & Hcached & Hfs & Hws & Hae) & _).
  split; [exact Htrace |].
  change (cached_appdata w' !! id (user Scenario.credential)
          = Some ([Example.bob; Example.carol], [], Scenario.no_event, 6003)).
  rewrite Hcached, Hclock.
  injection Hfs as <-. injection Hws as <-. injection Hae as <-. reflexivity.
Defined.

(** Upstream is down: the refresh is answered 500. *)
Lemma getAppData_failure_keeps_cache_witness :
  let w := Scenario.fetched 1000 (Example.world ∅ 60000 1) in
  ∃ w', getAppData Example.env_down Example.argv Scenario.session_request w
        = (Returned (End (json_status 500 (ErrorThrown Example.down))), w')
        ∧ cached_appdata w' = cached_appdata w
        ∧ storage w' = storage w.
Proof.
  cbv zeta.
  apply (getAppData_failure_keeps_cache Example.env_down Example.argv
           Scenario.session_request _ Scenario.credential (ZncApi "access") Example.down
           eq_refl eq_refl).
  - vm_compute. discriminate.
  - by left.
Defined.

(** The current user is not cached: one request, and the result is
    stored for Alice. *)
Lemma getUserData_cache_witness :
  let w := Example.world ∅ 6000 1 in
  ∃ out w', getUserData Example.env Example.argv Scenario.session_request w = (out, w')
            ∧ trace w' = [GetCurrentUser (ZncApi "access")]
            ∧ out = Returned (Next Scenario.session_request).
Proof.
  cbv zeta.
  destruct (getUserData_cache Example.env Example.argv Scenario.session_request
              (Example.world ∅ 6000 1) Scenario.credential (ZncApi "access")
              eq_refl eq_refl) as [_ Hstale].
  destruct (Hstale I) as (out & w' & Hrun & Htrace & Hout).
  exists out, w'. split; [exact Hrun |]. split; [exact Htrace |]. exact (proj1 Hout).
Defined.

(** Without a policy both cached friends are listed. *)
Lemma friends_presence_listing_witness :
  let w := Scenario.fetched 1000 (Example.world ∅ 6000 1) in
  ∃ m, get_friends_presence Scenario.session_request w
       = (Returned (End (json (PresencesBody m))), w)
       ∧ is_Some (m !! "b") ∧ is_Some (m !! "c") ∧ m !! "__proto__" = None.
Proof.
  cbv zeta.
  destruct (friends_presence_listing Scenario.session_request
              (Scenario.fetched 1000 (Example.world ∅ 6000 1)) Scenario.credential
              _ _ _ 1000 eq_refl eq_refl) as (m & Hrun & Hproto & _ & _ & Hall).
  exists m. split; [exact Hrun |]. split; [| split; [| exact Hproto]].
  - apply (Hall eq_refl Example.bob); [| discriminate]. apply elem_of_cons. by left.
  - apply (Hall eq_refl Example.carol); [| discriminate].
    apply elem_of_cons. right. apply elem_of_cons. by left.
Defined.

Lemma friends_listing_witness :
  let w := Scenario.fetched 1000 (Example.world ∅ 6000 1) in
  get_friends Scenario.session_request w
  = (Returned (End (json (FriendsBody [Example.bob; Example.carol] 1000))), w).
Proof.
  cbv zeta.
  destruct (friends_listing Scenario.session_request
              (Scenario.fetched 1000 (Example.world ∅ 6000 1)) Scenario.credential
              _ _ _ 1000 eq_refl eq_refl) as (l & Hrun & _ & _ & Hall).
  rewrite Hrun. by rewrite (Hall eq_refl).
Defined.

(** The request asks for friend ["b"]. *)
Lemma friend_lookup_witness :
  let w := Scenario.fetched 1000 (Example.world ∅ 6000 1) in
  get_friend Scenario.session_request w
  = (Returned (End (json (FriendBody Example.bob 1000))), w)
  ∧ get_friend_presence Scenario.session_request w
    = (Returned (End (json (PresenceBody Example.online))), w).
Proof.
  cbv zeta.
  pose proof (friend_lookup Scenario.session_request
                (Scenario.fetched 1000 (Example.world ∅ 6000 1)) Scenario.credential
                _ _ _ 1000 eq_refl eq_refl) as H.
  cbn in H. destruct H as (_ & _ & Hfriend & Hpresence). by split.
Defined.

Lemma friend_presence_gate_matches_listing_witness :
  allow_friend_presence Example.only_b (Example.http None)
  = flag (friend_presence Example.only_b) && negb (skipped (Some Example.only_b) Example.bob).
Proof.
  apply (friend_presence_gate_matches_listing Example.only_b (Example.http None) Example.bob).
  reflexivity.
Defined.

(** The exchange of Alice's token in an empty store. *)
Lemma getToken_footprint_witness :
  let w := Example.world ∅ 6000 1 in
  let w' := (Util.getToken Example.env "alice" None w).2 in
  storage w' = <[NintendoAccountToken "a1" := VString "alice"]>
                 (<[NsoToken "alice" := VSavedToken Scenario.credential]> (storage w))
  ∧ (trace w' = trace w ∨ trace w' = (trace w ++ [exchange_call None "alice"])%list)
  ∧ cached_appdata w' = cached_appdata w.
Proof.
  cbv zeta.
  set (w := Example.world ∅ 6000 1).
  set (w' := (Util.getToken Example.env "alice" None w).2).
  assert (Hrun : Util.getToken Example.env "alice" None w
                 = (Returned (ZncApi "access", Scenario.credential), w'))
    by (vm_compute; reflexivity).
  destruct (getToken_footprint Example.env "alice" None w w' _ Hrun)
    as ((Hstore & _) & _ & Htrace & _ & Hcache & _).
  by split.
Defined.


(** The proxy token ["pt"] belongs to ["a1"], for whom no session token
    is stored. *)
Lemma nsoAuth_uses_token_of_policy_user_witness :
  let w := Example.world ∅ 6000 1 in
  let req := set_policy Example.proxy_token "pt" (Example.http (Some "na alice")) in
  nsoAuth Example.env Example.argv req w
  = (Returned (End (json_status 500 (ErrorThrown
       (mkError "Nintendo Account for this token must reauthenticate")))), elapse w).
Proof.
  cbv zeta.
  apply (nsoAuth_uses_token_of_policy_user Example.env Example.argv
           (set_policy Example.proxy_token "pt" (Example.http (Some "na alice")))
           (Example.world ∅ 6000 1) "a1" eq_refl eq_refl).
  reflexivity.
Defined.

Lemma ipc_reads_back_getToken_witness :
  let w := Example.world ∅ 6000 1 in
  let w' := (Util.getToken Example.env "alice" None w).2 in
  Ipc.coral_gettoken "a1" w' = (Returned (Some (VString "alice")), elapse w')
  ∧ Ipc.coral_getcachedtoken "alice" w'
    = (Returned (Some (VSavedToken Scenario.credential)), elapse w').
Proof.
  cbv zeta.
  set (w := Example.world ∅ 6000 1).
  set (w' := (Util.getToken Example.env "alice" None w).2).
  assert (Hrun : Util.getToken Example.env "alice" None w
                 = (Returned (ZncApi "access", Scenario.credential), w'))
    by (vm_compute; reflexivity).
  destruct (ipc_reads_back_getToken Example.env "alice" None w w' _ _ Hrun)
    as (Htoken & Hcached & _).
  by split.
Defined.

Lemma localAuth_restores_last_token_witness :
  let w := Example.world ∅ 6000 1 in
  let w' := (Util.getToken Example.env "alice" None w).2 in
  localAuth Scenario.open_argv (Scenario.by_user "a1") w'
  = (Returned (Next (set_authorization "na alice" (Scenario.by_user "a1"))), elapse w').
Proof.
  cbv zeta.
  set (w := Example.world ∅ 6000 1).
  set (w' := (Util.getToken Example.env "alice" None w).2).
  assert (Hrun : Util.getToken Example.env "alice" None w
                 = (Returned (ZncApi "access", Scenario.credential), w'))
    by (vm_compute; reflexivity).
  exact (proj1 (localAuth_restores_last_token Example.env Scenario.open_argv "alice" None
                  w w' _ _ (Scenario.by_user "a1") Hrun eq_refl eq_refl eq_refl)).
Defined.

Lemma bearer_header_decides_witness :
  let w := Example.world Example.proxy_store 6000 1 in
  let req := Example.http (Some "Bearer pt") in
  authToken req w = (Returned (Next (set_policy Example.proxy_token "pt" req)), elapse w).
Proof.
  cbv zeta.
  apply (bearer_header_decides Example.env Example.argv (Example.http (Some "Bearer pt"))
           (Example.world Example.proxy_store 6000 1) "pt" eq_refl).
  vm_compute. reflexivity.
Defined.

(** Alice issues a token in an empty store; a request bearing it is
    answered with its policy (none was given). *)
Lemma issued_token_resolves_witness :
  let w := Example.world ∅ 6000 1 in
  let w1 := (serve Example.env Example.argv POST_tokens (Example.http (Some "na alice")) w).2 in
  serve Example.env Example.argv GET_token (Example.http (Some "Bearer uuid-0")) w1
  = (Returned (json (PolicyBody None)), elapse w1).
Proof.
  cbv zeta.
  set (w := Example.world ∅ 6000 1).
  set (w1 := (serve Example.env Example.argv POST_tokens (Example.http (Some "na alice")) w).2).
  assert (Hrun : serve Example.env Example.argv POST_tokens (Example.http (Some "na alice")) w
                 = (Returned (json (CreatedBody "uuid-0" Example.issued)), w1))
    by (vm_compute; reflexivity).
  exact (issued_token_resolves Example.env Example.argv (Example.http (Some "na alice"))
           (Example.http (Some "Bearer uuid-0")) w w1 _ Hrun eq_refl eq_refl eq_refl).
Defined.

(** The proxy token ["pt"] is revoked and presented again. *)
Lemma revoked_token_is_unknown_witness :
  let w := Example.world Example.proxy_store 6000 1 in
  let req := Example.http (Some "Bearer pt") in
  let w1 := (serve Example.env Example.argv DELETE_token req w).2 in
  serve Example.env Example.argv GET_token req w1
  = (Returned (json_status 403 (ErrorCode "no_policy")), elapse w1).
Proof.
  cbv zeta.
  set (w := Example.world Example.proxy_store 6000 1).
  set (req := Example.http (Some "Bearer pt")).
  set (w1 := (serve Example.env Example.argv DELETE_token req w).2).
  assert (Hrun : serve Example.env Example.argv DELETE_token req w
                 = (Returned {| statusCode := 204; content_type := None; body := NoBody |}, w1))
    by (vm_compute; reflexivity).
  exact (proj1 (revoked_token_is_unknown Example.env Example.argv req req w w1 _
                  (incoming_http _) (incoming_http _) Hrun eq_refl eq_refl)).
Defined.

(** Alice's one proxy token is listed. *)
Lemma tokens_listing_witness :
  let w := Example.world Example.proxy_store 6000 1 in
  let listed := [{| ti_token := "pt"; ti_user := "a1"; ti_policy := Some Example.only_b;
                    ti_created_at := 0 |}] in
  (get_tokens Scenario.session_request w).1 = Returned (End (json (TokensBody listed)))
  ∧ omap (token_info w) (tokens_of w "a1") = listed
  ∧ storage (get_tokens Scenario.session_request w).2 = storage w.
Proof.
  cbv zeta.
  set (w := Example.world Example.proxy_store 6000 1).
  set (listed := [{| ti_token := "pt"; ti_user := "a1"; ti_policy := Some Example.only_b;
                     ti_created_at := 0 |}]).
  assert (Hrun : get_tokens Scenario.session_request w
                 = (Returned (End (json (TokensBody listed))),
                    (get_tokens Scenario.session_request w).2))
    by (vm_compute; reflexivity).
  destruct (tokens_listing Scenario.session_request w _ _ Scenario.credential
              eq_refl Hrun) as (Hstore & Hbody & _).
  split; [by rewrite Hrun |]. split; [| exact Hstore].
  vm_compute. reflexivity.
Defined.

(** The policy of ["pt"] grants the presence listing only: the friend
    list is denied, and the denial has that policy as its cause. *)
Lemma denial_only_from_policy_witness :
  let w := Example.world Example.proxy_store 6000 1 in
  let req := Example.http (Some "Bearer pt") in
  serve Example.env Example.argv GET_friends req w = (Returned tokenUnauthorised, elapse w)
  ∧ ∃ allowed tok a p,
      policy_check GET_friends = Some allowed
      ∧ resolved w req = Some (tok, a)
      ∧ policy a = Some p
      ∧ allowed p req = false.
Proof.
  cbv zeta.
  set (w := Example.world Example.proxy_store 6000 1).
  set (req := Example.http (Some "Bearer pt")).
  assert (Hrun : serve Example.env Example.argv GET_friends req w
                 = (Returned tokenUnauthorised, elapse w))
    by (vm_compute; reflexivity).
  split; [exact Hrun |].
  destruct (denial_only_from_policy Example.env Example.argv GET_friends req w _
              (incoming_http _) Hrun) as (allowed & tok & a & p & H1 & H2 & H3 & H4 & _).
  by exists allowed, tok, a, p.
Defined.

(** The policy of ["pt"] says nothing about the user's presence. *)
Lemma user_presence_needs_own_flag_witness :
  let w := Example.world Example.proxy_store 6000 1 in
  serve Example.env Example.argv GET_user_presence (Example.http (Some "Bearer pt")) w
  = (Returned tokenUnauthorised, elapse w).
Proof.
  cbv zeta.
  apply (user_presence_needs_own_flag Example.env Example.argv
           (Example.http (Some "Bearer pt")) (Example.world Example.proxy_store 6000 1)
           "pt" Example.proxy_token Example.only_b).
  - vm_compute. reflexivity.
  - reflexivity.
  - discriminate.
Defined.

(** Alice's token was exchanged; the command run for her without a
    token is the command run with it. *)
Lemma friends_command_uses_recorded_token_witness :
  let w := Example.world ∅ 6000 1 in
  let w1 := (Util.getToken Example.env "alice" None w).2 in
  Friends.handler Example.env Scenario.friends_argv w1
  = Friends.handler Example.env (with_token "alice" Scenario.friends_argv) (elapse w1).
Proof.
  cbv zeta.
  set (w := Example.world ∅ 6000 1).
  set (w1 := (Util.getToken Example.env "alice" None w).2).
  assert (Hrun : Util.getToken Example.env "alice" None w
                 = (Returned (ZncApi "access", Scenario.credential), w1))
    by (vm_compute; reflexivity).
  exact (friends_command_uses_recorded_token Example.env Scenario.friends_argv "alice" None
           w w1 _ _ Hrun eq_refl eq_refl).
Defined.

(** Alice's credential is cached, but upstream is down: the command
    fails at its first request. *)
Lemma friends_command_needs_every_answer_witness :
  let w := Example.world {[ NsoToken "alice" := VSavedToken Scenario.credential ]} 6000 1 in
  ∃ w', Friends.handler Example.env_down (with_token "alice" Scenario.friends_argv) w
        = (Thrown Example.down, w').
Proof.
  cbv zeta.
  set (w := Example.world {[ NsoToken "alice" := VSavedToken Scenario.credential ]} 6000 1).
  set (argv := with_token "alice" Scenario.friends_argv).
  set (w1 := (Util.getToken Example.env_down "alice" None (session_start argv w)).2).
  assert (Hget : Util.getToken Example.env_down "alice" (Friends.zncProxyUrl argv)
                   (session_start argv w)
                 = (Returned (ZncApi "access", Scenario.credential), w1))
    by (vm_compute; reflexivity).
  destruct (friends_command_needs_every_answer Example.env_down argv w w1 "alice"
              (ZncApi "access") Scenario.credential Example.down)
    as (w' & Hrun & _).
  - left. by eexists.
  - reflexivity.
  - exact Hget.
  - by left.
  - by exists w'.
Defined.

(** The command with Alice's token in an empty store: one exchange, four
    requests, and the table of her two friends. *)
Lemma friends_command_requests_witness :
  let w := Example.world ∅ 6000 1 in
  let argv := with_token "alice" Scenario.friends_argv in
  let nso := ZncApi "access" in
  (Friends.handler Example.env argv w).1 = Returned (Friends.Table [Example.bob; Example.carol])
  ∧ trace (Friends.handler Example.env argv w).2
    = [NsoLogin "alice"; GetAnnouncements nso; GetFriendList nso;
       GetWebServices nso; GetActiveEvent nso].
Proof.
  cbv zeta.
  set (w := Example.world ∅ 6000 1).
  set (argv := with_token "alice" Scenario.friends_argv).
  assert (Hrun : Friends.handler Example.env argv w
                 = (Returned (Friends.Table [Example.bob; Example.carol]),
                    (Friends.handler Example.env argv w).2))
    by (vm_compute; reflexivity).
  split; [by rewrite Hrun |].
  destruct (friends_command_requests Example.env argv w _ _ Hrun)
    as (tok & nso & data & w1 & Htok & Hget & Hlogin & _ & Htrace & _).
  assert (Hget' : Util.getToken Example.env "alice" None (session_start argv w)
                  = (Returned (ZncApi "access", Example.saved 3606003),
                     (Util.getToken Example.env "alice" None (session_start argv w)).2))
    by (vm_compute; reflexivity).
  injection Htok as <-. change (Friends.zncProxyUrl argv) with (@None string) in Hget.
  rewrite Hget' in Hget. injection Hget as <- <- <-.
  rewrite Htrace. vm_compute. reflexivity.
Defined.

(** No token is recorded for Alice in an empty store. *)
Lemma friends_command_without_token_witness :
  let w := Example.world ∅ 6000 1 in
  ∃ w', Friends.handler Example.env Scenario.friends_argv w
        = (Thrown (mkError "Invalid token"), w')
        ∧ storage w' = storage w ∧ trace w' = trace w.
Proof.
  cbv zeta.
  apply (friends_command_without_token Example.env Scenario.friends_argv
           (Example.world ∅ 6000 1)).
  - reflexivity.
  - left. by eexists.
  - reflexivity.
Defined.

(** Two clients of the same user and one without a user give one
    user. *)
Lemma discord_users_distinct_witness :
  let clients := [Scenario.first_client; Scenario.idle_client; Scenario.first_client] in
  (Ipc.discord_users clients).2 = inr [Scenario.dave]
  ∧ NoDup (Ipc.du_id <$> [Scenario.dave])
  ∧ (Ipc.discord_users clients).1
    = (clients ≫= fun c => [Ipc.Connect c; Ipc.Destroy c]).
Proof.
  cbv zeta.
  set (clients := [Scenario.first_client; Scenario.idle_client; Scenario.first_client]).
  assert (Hrun : Ipc.discord_users clients
                 = ((Ipc.discord_users clients).1, inr [Scenario.dave]))
    by (vm_compute; reflexivity).
  destruct (discord_users_distinct clients _ _ Hrun) as (Hnd & _ & _ & Hcalls).
  split; [by rewrite Hrun |]. by split.
Defined.

(** The second of three clients does not connect: it is destroyed, the
    third is not contacted, and the user of the first is lost with the
    error. *)
Lemma discord_users_cleanup_witness :
  Ipc.discord_users [Scenario.first_client; Scenario.broken_client; Scenario.idle_client]
  = ([Ipc.Connect Scenario.first_client; Ipc.Destroy Scenario.first_client;
      Ipc.Connect Scenario.broken_client; Ipc.Destroy Scenario.broken_client],
     inl (mkError "Could not connect")).
Proof.
  apply (proj1 discord_users_cleanup [Scenario.first_client] [Scenario.idle_client]
           Scenario.broken_client (mkError "Could not connect")).
  - apply List.Forall_cons; [reflexivity | apply List.Forall_nil].
  - reflexivity.
Defined.
